(** * CoCoHue preprocessor: a shallow embedding of [preprocessor-cocohue.py]

    The script merges Groovy app/driver sources with shared library
    fragments, replaces placeholder tokens and evaluates [#IF]/[#ENDIF]
    blocks.  This file embeds the script and proves properties of it.

    Conventions of the embedding:
    - a Python [str] is a [string]; a character is a code point below 256,
      and [str.isspace] is restricted to that range;
    - the file system is a finite map from paths to the decoded text of the
      file (newlines already translated to LF); directories and permissions
      are not modelled;
    - a file opened for reading is read as it is at [open]; text written to
      the destination is appended in place.  The script never reads back a
      file it writes, unless the destination path is the path of a library
      fragment; the theorems about file contents exclude that aliasing;
    - a Python exception is an outcome [Raise e w] that keeps the world [w]
      reached when it was raised. *)

From Stdlib Require Import Ascii String List Bool Arith Lia.
From stdpp Require Import base option list gmap strings pretty.

Set Default Proof Using "Type".

(** ** Python built-ins used by the script *)

Module Py.

(** [str.isspace] on code points below 256. *)
Definition isspace (c : ascii) : bool :=
  let n := nat_of_ascii c in
  ((9 <=? n) && (n <=? 13)) || ((28 <=? n) && (n <=? 32))
  || (n =? 133) || (n =? 160).

Fixpoint lstrip (s : string) : string :=
  match s with
  | "" => ""
  | String c r => if isspace c then lstrip r else s
  end.

Fixpoint rstrip (s : string) : string :=
  match s with
  | "" => ""
  | String c r =>
      match rstrip r with
      | "" => if isspace c then "" else String c ""
      | r' => String c r'
      end
  end.

(** [s.strip()] *)
Definition strip (s : string) : string := rstrip (lstrip s).

(** [s.startswith(p)] *)
Fixpoint startswith (s p : string) : bool :=
  match p, s with
  | "", _ => true
  | String a p', String b s' => if ascii_dec a b then startswith s' p' else false
  | String _ _, "" => false
  end.

(** [sub in s] *)
Fixpoint contains (sub s : string) : bool :=
  startswith s sub
  || match s with
     | "" => false
     | String _ r => contains sub r
     end.

(** [s.replace(old, new)]: the leftmost occurrences of [old] that do not
    overlap are replaced.  [skip] counts the characters of a matched
    occurrence that are still to be passed over. *)
Fixpoint replace_go (old new : string) (skip : nat) (s : string) : string :=
  match s with
  | "" => ""
  | String c r =>
      match skip with
      | S k => replace_go old new k r
      | 0 =>
          if startswith s old
          then new +:+ replace_go old new (String.length old - 1) r
          else String c (replace_go old new 0 r)
      end
  end.

(** With an empty [old], Python puts [new] before every character and at
    the end. *)
Fixpoint replace_empty (new s : string) : string :=
  new +:+ match s with
          | "" => ""
          | String c r => String c (replace_empty new r)
          end.

Definition replace (s old new : string) : string :=
  match old with
  | "" => replace_empty new s
  | _ => replace_go old new 0 s
  end.

(** [s.split(sep)] for a non-empty separator (both call sites pass a
    literal); the result always has at least one piece. *)
Fixpoint split_go (sep : string) (skip : nat) (s : string) : list string :=
  match s with
  | "" => [""]
  | String c r =>
      match skip with
      | S k => split_go sep k r
      | 0 =>
          if startswith s sep
          then "" :: split_go sep (String.length sep - 1) r
          else match split_go sep 0 r with
               | p :: ps => String c p :: ps
               | [] => [String c ""]
               end
      end
  end.

Definition split (s sep : string) : list string := split_go sep 0 s.

(** [l[-1]] on a list of strings that is known to be non-empty. *)
Definition last (l : list string) : string := List.last l "".

(** Iterating over a text file yields its lines, each with its newline. *)
Fixpoint readlines (content : string) : list string :=
  match content with
  | "" => []
  | String c r =>
      if ascii_dec c "010"
      then String c "" :: readlines r
      else match readlines r with
           | l :: ls => String c l :: ls
           | [] => [String c ""]
           end
  end.

(** [repr] of a [str] without quotes, backslashes or control characters,
    and of a list of such strings. *)
Definition repr_str (s : string) : string := "'" +:+ s +:+ "'".
Definition repr_list (l : list string) : string :=
  "[" +:+ String.concat ", " (map repr_str l) +:+ "]".

(** A [dict] with [str] keys, in insertion order. *)
Definition dict (V : Type) : Type := list (string * V).

Fixpoint dict_get {V} (d : dict V) (k : string) : option V :=
  match d with
  | [] => None
  | (k', v) :: d' => if String.eqb k k' then Some v else dict_get d' k
  end.

Definition dict_keys {V} (d : dict V) : list string := map fst d.

(** [os.path.join(a, b)] on POSIX. *)
Definition path_join (a b : string) : string :=
  if startswith b "/" then b
  else match a with
       | "" => b
       | _ => if startswith (String.rev a) "/" then a +:+ b
              else a +:+ "/" +:+ b
       end.

End Py.

(** ** Module-level data of the script *)

Import Py.

Definition COCOHUE : string := "CoCoHue - Hue Bridge Integration".

Definition ALL_TARGETS : list string := [COCOHUE].
Definition ALL_TARGET_NAMES : dict string := [("COCOHUE", COCOHUE)].

Definition driverFiles : list string :=
  [ "cocohue-bridge-driver.groovy";
    "cocohue-button-driver.groovy";
    "cocohue-ct-bulb-driver.groovy";
    "cocohue-dimmable-bulb-driver.groovy";
    "cocohue-group-driver.groovy";
    "cocohue-motion-sensor-driver.groovy";
    "cocohue-plug-driver.groovy";
    "cocohue-rgb-bulb-driver.groovy";
    "cocohue-rgbw-bulb-driver.groovy";
    "cocohue-scene-driver.groovy" ].

Definition appFiles : list string := [ "cocohue-app.groovy" ].

Definition libraries : dict string :=
  [ ("RMoRobert.CoCoHue_Bri_Lib", "cocohue-library-bri.groovy");
    ("RMoRobert.CoCoHue_Common_Lib", "cocohue-library-common.groovy");
    ("RMoRobert.CoCoHue_Constants_Lib", "cocohue-library-constants.groovy");
    ("RMoRobert.CoCoHue_CT_Lib", "cocohue-library-ct.groovy");
    ("RMoRobert.CoCoHue_Effect_Lib", "cocohue-library-effect.groovy");
    ("RMoRobert.CoCoHue_Flash_Lib", "cocohue-library-flash.groovy");
    ("RMoRobert.CoCoHue_HueSat_Lib", "cocohue-library-huesat.groovy") ].

Definition CONSTANTS : dict (dict string) :=
  [ ("__APP_NAME__", [(COCOHUE, "CoCoHue - Hue Bridge Integration")]);
    ("__APP_DESCRIPTION__",
      [(COCOHUE, "Community-created Philips Hue integration for Hue Bridge lights and other Hue devices and features")]);
    ("__DOCUMENTATION_LINK__",
      [(COCOHUE, "https://community.hubitat.com/t/release-cocohue-hue-bridge-integration-including-scenes/27978")]);
    ("__NAMESPACE__", [(COCOHUE, "RMoRobert")]);
    ("__DNI_PREFIX__", [(COCOHUE, "CCH")]);
    ("__DRIVER_NAME_BRIDGE__", [(COCOHUE, "CoCoHue Bridge")]);
    ("__DRIVER_NAME_BUTTON__", [(COCOHUE, "CoCoHue Button")]);
    ("__DRIVER_NAME_CT_BULB__", [(COCOHUE, "CoCoHue CT Bulb")]);
    ("__DRIVER_NAME_DIMMABLE_BULB__", [(COCOHUE, "CoCoHue Dimmable Bulb")]);
    ("__DRIVER_NAME_GROUP__", [(COCOHUE, "CoCoHue Group")]);
    ("__DRIVER_NAME_MOTION__", [(COCOHUE, "CoCoHue Motion Sensor")]);
    ("__DRIVER_NAME_PLUG__", [(COCOHUE, "CoCoHue Plug")]);
    ("__DRIVER_NAME_RGBW_BULB__", [(COCOHUE, "CoCoHue RGBW Bulb")]);
    ("__DRIVER_NAME_RGB_BULB__", [(COCOHUE, "CoCoHue RGB Bulb")]);
    ("__DRIVER_NAME_SCENE__", [(COCOHUE, "CoCoHue Scene")]) ].

Definition CONSTANT_KEYS : list string := dict_keys CONSTANTS.

Definition DRIVER_DIR : string := "drivers".
Definition APP_DIR : string := "apps".
Definition LIB_DIR : string := "libraries".

(** ** Exceptions, the world, and the monad of the script *)

Inductive exn : Type :=
  | KeyError (key : string)
  | ValueError
  | SyntaxError
  | FileNotFoundError (path : string).

(** The result of a computation that has no effect but may raise. *)
Inductive result (A : Type) : Type :=
  | Success (a : A)
  | Failure (e : exn).
Arguments Success {A} a.
Arguments Failure {A} e.

(** What the script can observe and change: the files, the console, and the
    global counter [totalProcessed]. *)
Record World : Type := mkWorld {
  files : gmap string string;
  stdout : list string;
  totalProcessed : nat
}.

Inductive outcome (A : Type) : Type :=
  | Ok (a : A) (w : World)
  | Raise (e : exn) (w : World).
Arguments Ok {A} a w.
Arguments Raise {A} e w.

Definition M (A : Type) : Type := World -> outcome A.

Definition ret {A} (a : A) : M A := fun w => Ok a w.

Definition bind {A B} (m : M A) (k : A -> M B) : M B :=
  fun w => match m w with
           | Ok a w' => k a w'
           | Raise e w' => Raise e w'
           end.

Definition raise {A} (e : exn) : M A := fun w => Raise e w.

Definition lift {A} (r : result A) : M A :=
  match r with
  | Success a => ret a
  | Failure e => raise e
  end.

Declare Scope py_scope.
Delimit Scope py_scope with py.
Notation "x <- m ;; k" := (bind m (fun x => k))
  (at level 100, m at next level, right associativity) : py_scope.
Notation "m ;; k" := (bind m (fun _ => k))
  (at level 100, right associativity) : py_scope.
Open Scope py_scope.

(** A [for] loop whose body updates the loop-carried locals [st]. *)
Fixpoint for_each {A S} (body : S -> A -> M S) (st : S) (l : list A) : M S :=
  match l with
  | [] => ret st
  | x :: l' => st' <- body st x ;; for_each body st' l'
  end.

(** [print(s)] *)
Definition print (s : string) : M unit :=
  fun w => Ok tt (mkWorld (files w) (stdout w ++ [s]) (totalProcessed w)).

(** [os.path.isfile(p)] *)
Definition isfile (p : string) : M bool :=
  fun w => Ok (bool_decide (is_Some (files w !! p))) w.

(** [os.remove(p)] of a file that exists *)
Definition remove (p : string) : M unit :=
  fun w => Ok tt (mkWorld (delete p (files w)) (stdout w) (totalProcessed w)).

(** [open(p, "a+")]: the file is created empty when it does not exist. *)
Definition open_append (p : string) : M unit :=
  fun w => match files w !! p with
           | Some _ => Ok tt w
           | None => Ok tt (mkWorld (<[p := ""]> (files w)) (stdout w) (totalProcessed w))
           end.

(** [open(p, "r")] followed by reading: the text of the file. *)
Definition open_read (p : string) : M string :=
  fun w => match files w !! p with
           | Some content => Ok content w
           | None => Raise (FileNotFoundError p) w
           end.

(** [f.write(s)] on the file opened for appending at [p] *)
Definition write (p : string) (s : string) : M unit :=
  fun w => Ok tt (mkWorld (<[p := default "" (files w !! p) +:+ s]> (files w))
                          (stdout w) (totalProcessed w)).

(** ** The preprocessor *)

(** The newline character as a [str]. *)
Definition nl : string := String "010" "".

(** The locals that the loops of [processFile] read and update. *)
Record locals : Type := mkLocals {
  inIf : bool;
  skipLines : bool;
  libNamesToInclude : list string
}.

(** [d[k]], raising [KeyError] *)
Definition subscript {V} (d : dict V) (k : string) : result V :=
  match dict_get d k with
  | Some v => Success v
  | None => Failure (KeyError k)
  end.

(** [s == o] for a [str] on the left: another [str] is compared by value,
    an object of any other class is never equal to a [str]. *)
Inductive object (node : Type) : Type :=
  | Str (s : string)
  | Ast (tree : node).
Arguments Str {node} s.
Arguments Ast {node} tree.

Definition str_eq {node} (s : string) (o : object node) : bool :=
  match o with
  | Str t => String.eqb s t
  | Ast _ => false
  end.

Section Preprocessor.

(** [ast.parse] is Python's own parser: it returns an [ast.Module] object
    or raises (here: [None]). *)
Variable ast_Module : Type.
Variable ast_parse : string -> option ast_Module.

Definition checkConditionFromLine (line target : string) : result bool :=
  let condition := strip (replace line "#IF " "") in
  match split condition "==" with
  | [lhs; rhs] =>
      match subscript CONSTANTS (strip lhs) with
      | Failure e => Failure e
      | Success values =>
          match subscript values target with
          | Failure e => Failure e
          | Success value =>
              match ast_parse (strip rhs) with
              | None => Failure SyntaxError
              | Some tree => Success (str_eq value (Ast tree))
              end
          end
      end
  | _ => Failure ValueError
  end.

(** The loop [for const in CONSTANT_KEYS] of [processConstants]. *)
Fixpoint replaceConstants (keys : list string) (newLine target : string)
  : result string :=
  match keys with
  | [] => Success newLine
  | const :: keys' =>
      match subscript CONSTANTS const with
      | Failure e => Failure e
      | Success values =>
          match subscript values target with
          | Failure e => Failure e
          | Success newVal =>
              replaceConstants keys' (replace newLine const newVal) target
          end
      end
  end.

Definition processConstants (srcLine target : string) : result string :=
  if existsb (fun c => contains c srcLine) CONSTANT_KEYS
  then replaceConstants CONSTANT_KEYS srcLine target
  else Success srcLine.

(** Body of the loop over the lines of the source file. *)
Definition sourceLine (destFile target : string) (st : locals) (line : string)
  : M locals :=
  if startswith (strip line) "#include" && negb (skipLines st) then
    let libName := strip (last (split line "#include")) in
    ret (mkLocals (inIf st) (skipLines st) (libNamesToInclude st ++ [libName]))
  else if startswith (strip line) "#IF " then
    c <- lift (checkConditionFromLine line target) ;;
    ret (mkLocals true (negb c) (libNamesToInclude st))
  else if startswith (strip line) "#ENDIF" then
    ret (mkLocals false false (libNamesToInclude st))
  else if negb (inIf st && skipLines st) then
    newLine <- lift (processConstants line target) ;;
    write destFile newLine ;;
    ret st
  else ret st.

(** Body of the loop over the lines of a library file. *)
Definition libraryLine (destFile target : string) (st : locals) (line : string)
  : M locals :=
  if startswith (strip line) "#IF " then
    c <- lift (checkConditionFromLine line target) ;;
    ret (mkLocals true (negb c) (libNamesToInclude st))
  else if startswith (strip line) "#ENDIF" then
    ret (mkLocals false false (libNamesToInclude st))
  else if negb (inIf st && skipLines st) then
    newLine <- lift (processConstants line target) ;;
    write destFile newLine ;;
    ret st
  else ret st.

(** Body of the loop [for libName in libNamesToInclude]. *)
Definition includeLibrary (destFile target : string) (preprocessLibrary : bool)
    (st : locals) (libName : string) : M locals :=
  libFileName <- lift (subscript libraries libName) ;;
  let libFilePath := path_join LIB_DIR libFileName in
  libFile <- open_read libFilePath ;;
  let toPrepend := nl +:+ nl +:+ "// ~~~ IMPORTED FROM " +:+ libName +:+ " ~~~" +:+ nl in
  write destFile toPrepend ;;
  if negb preprocessLibrary then
    write destFile libFile ;;
    ret st
  else
    for_each (libraryLine destFile target) st (readlines libFile).

Definition processFile (sourceFile destFile target : string)
    (preprocessLibrary : bool) : M unit :=
  print ("  PROCESSING: " +:+ sourceFile +:+ " -> " +:+ destFile) ;;
  exists_ <- isfile destFile ;;
  (if exists_ : bool then remove destFile else ret tt) ;;
  open_append destFile ;;
  ogFile <- open_read sourceFile ;;
  st <- for_each (sourceLine destFile target) (mkLocals false false [])
          (readlines ogFile) ;;
  for_each (includeLibrary destFile target preprocessLibrary) st
    (libNamesToInclude st) ;;
  ret tt.

(** [totalProcessed += 1] *)
Definition count_processed : M unit :=
  fun w => Ok tt (mkWorld (files w) (stdout w) (S (totalProcessed w))).

Definition OUTPUT_DIR : string := path_join "full" "cocohue".

Definition processApps (target : string) : M unit :=
  for_each (fun _ appFile =>
              let ogFilename := path_join APP_DIR appFile in
              let destFilename := path_join OUTPUT_DIR appFile in
              processFile ogFilename destFilename target true ;;
              count_processed)
           tt appFiles.

Definition processDrivers (target : string) : M unit :=
  for_each (fun _ driverFile =>
              let ogFilename := path_join DRIVER_DIR driverFile in
              let destFilename := path_join OUTPUT_DIR driverFile in
              processFile ogFilename destFilename target true ;;
              count_processed)
           tt driverFiles.

Definition main (target : string) : M unit :=
  print (nl +:+ "----------" +:+ nl +:+ "Processing for target: " +:+ target
         +:+ nl +:+ "---------" +:+ nl) ;;
  processApps target ;;
  processDrivers target ;;
  total <- (fun w => Ok (totalProcessed w) w) ;;
  print (nl +:+ "Done. TOTAL: " +:+ pretty (total : nat) +:+ " files processed.").

(** The block under [if __name__ == '__main__'], run on [sys.argv]. *)
Definition script (argv : list string) : M unit :=
  if 1 <? length argv then
    let tgt := nth 1 argv "" in
    match dict_get ALL_TARGET_NAMES (strip tgt) with
    | Some tgtVal => main tgtVal
    | None =>
        print ("Invalaid target specified: " +:+ tgt +:+ ". Should be one of: "
               +:+ repr_list (dict_keys ALL_TARGET_NAMES))
    end
  else
    print ("No target specified. Run script with parameter, e.g., COCOHUE. Possible parameters: "
           +:+ repr_list (dict_keys ALL_TARGET_NAMES)).

(** Running the file as a program: the module body sets [totalProcessed]
    to zero, then the block above runs. *)
Definition program (argv : list string) : M unit :=
  fun w => script argv (mkWorld (files w) (stdout w) 0).

End Preprocessor.

Arguments checkConditionFromLine {ast_Module} ast_parse line target.
Arguments sourceLine {ast_Module} ast_parse destFile target st line _.
Arguments libraryLine {ast_Module} ast_parse destFile target st line _.
Arguments includeLibrary {ast_Module} ast_parse destFile target preprocessLibrary st libName _.
Arguments processFile {ast_Module} ast_parse sourceFile destFile target preprocessLibrary _.
Arguments processApps {ast_Module} ast_parse target _.
Arguments processDrivers {ast_Module} ast_parse target _.
Arguments main {ast_Module} ast_parse target _.
Arguments script {ast_Module} ast_parse argv _.
Arguments program {ast_Module} ast_parse argv _.

(** ** Vocabulary of the specification *)

(** The tests the loops make on a line, and the parts they take from it. *)
Definition is_include (line : string) : bool := startswith (strip line) "#include".
Definition is_if (line : string) : bool := startswith (strip line) "#IF ".
Definition is_endif (line : string) : bool := startswith (strip line) "#ENDIF".
Definition include_name (line : string) : string := strip (last (split line "#include")).
Definition condition_of (line : string) : string := strip (replace line "#IF " "").

(** The comment written before the text of a library. *)
Definition marker (libName : string) : string :=
  nl +:+ nl +:+ "// ~~~ IMPORTED FROM " +:+ libName +:+ " ~~~" +:+ nl.

(** The paths of the registered library fragments. *)
Definition library_paths : list string :=
  map (fun entry => path_join LIB_DIR (snd entry)) libraries.

(** [CONSTANTS[const][target]], when both lookups succeed. *)
Definition value_of (target const : string) : option string :=
  match dict_get CONSTANTS const with
  | Some values => dict_get values target
  | None => None
  end.

(** The world with the text [text] at [path]. *)
Definition with_file (path text : string) (w : World) : World :=
  mkWorld (<[path := text]> (files w)) (stdout w) (totalProcessed w).

Definition files_of {A} (o : outcome A) : gmap string string :=
  match o with
  | Ok _ w => files w
  | Raise _ w => files w
  end.

Definition raised {A} (o : outcome A) : option exn :=
  match o with
  | Ok _ _ => None
  | Raise e _ => Some e
  end.

(** The world in which a run ended. *)
Definition world_after {A} (o : outcome A) : World :=
  match o with
  | Ok _ w => w
  | Raise _ w => w
  end.

(** ** The text a run writes, without the world

    [render] is [processFile] read as a function from the text of the source
    file and the texts of the library files to the text written to the
    destination, together with the exception that ended the run, if any. *)

Section Render.

Context {ast_Module : Type} (ast_parse : string -> option ast_Module).
Variable target : string.

Definition renderLibraryLine (st : locals) (line : string)
  : result (locals * string) :=
  if is_if line then
    match checkConditionFromLine ast_parse line target with
    | Success c => Success (mkLocals true (negb c) (libNamesToInclude st), "")
    | Failure e => Failure e
    end
  else if is_endif line then
    Success (mkLocals false false (libNamesToInclude st), "")
  else if negb (inIf st && skipLines st) then
    match processConstants line target with
    | Success newLine => Success (st, newLine)
    | Failure e => Failure e
    end
  else Success (st, "").

Definition renderSourceLine (st : locals) (line : string)
  : result (locals * string) :=
  if is_include line && negb (skipLines st) then
    Success (mkLocals (inIf st) (skipLines st)
               (libNamesToInclude st ++ [include_name line]), "")
  else renderLibraryLine st line.

(** The text written by a loop over [lines], and how the loop ended. *)
Fixpoint renderLines (step : locals -> string -> result (locals * string))
    (st : locals) (lines : list string) : string * result locals :=
  match lines with
  | [] => ("", Success st)
  | line :: rest =>
      match step st line with
      | Failure e => ("", Failure e)
      | Success (st', text) =>
          let '(text', r) := renderLines step st' rest in
          (text +:+ text', r)
      end
  end.

Variable lib_text : string -> option string.
Variable preprocessLibrary : bool.

Definition renderLibrary (st : locals) (libName : string)
  : string * result locals :=
  match subscript libraries libName with
  | Failure e => ("", Failure e)
  | Success libFileName =>
      let libFilePath := path_join LIB_DIR libFileName in
      match lib_text libFilePath with
      | None => ("", Failure (FileNotFoundError libFilePath))
      | Some libFile =>
          if negb preprocessLibrary
          then (marker libName +:+ libFile, Success st)
          else let '(text, r) := renderLines renderLibraryLine st (readlines libFile) in
               (marker libName +:+ text, r)
      end
  end.

Fixpoint renderLibraries (st : locals) (libNames : list string)
  : string * result locals :=
  match libNames with
  | [] => ("", Success st)
  | libName :: rest =>
      match renderLibrary st libName with
      | (text, Failure e) => (text, Failure e)
      | (text, Success st') =>
          let '(text', r) := renderLibraries st' rest in
          (text +:+ text', r)
      end
  end.

Definition render (ogFile : string) : string * option exn :=
  match renderLines renderSourceLine (mkLocals false false []) (readlines ogFile) with
  | (own, Failure e) => (own, Some e)
  | (own, Success st) =>
      match renderLibraries st (libNamesToInclude st) with
      | (libs, Failure e) => (own +:+ libs, Some e)
      | (libs, Success _) => (own +:+ libs, None)
      end
  end.

End Render.

(** How a run that wrote [text] to [destFile] and printed its progress line
    ends, from the world [w] it started in. *)
Definition finish (sourceFile destFile : string) (written : string * option exn)
    (w : World) : outcome unit :=
  let w' := mkWorld (<[destFile := fst written]> (files w))
              (stdout w ++ ["  PROCESSING: " +:+ sourceFile +:+ " -> " +:+ destFile])
              (totalProcessed w) in
  match snd written with
  | None => Ok tt w'
  | Some e => Raise e w'
  end.

(** What a run writes and how it ends, from the files it finds: the source
    file may be missing. *)
Definition rendered {ast_Module} (ast_parse : string -> option ast_Module)
    (target : string) (preprocessLibrary : bool) (fs : gmap string string)
    (sourceFile : string) : string * option exn :=
  match fs !! sourceFile with
  | Some ogFile => render ast_parse target (fun p => fs !! p) preprocessLibrary ogFile
  | None => ("", Some (FileNotFoundError sourceFile))
  end.

(** ** The two phases, with the single flag that the loops really use

    [checkConditionFromLine] never answers [True], so after any [#IF] line
    the lines are skipped until the next [#ENDIF]. *)

(** The line as written when all its constants have a value for [target]. *)
Definition substituted (target line : string) : string :=
  match processConstants line target with
  | Success newLine => newLine
  | Failure _ => line
  end.

(** Whether lines are being skipped after [lines]. *)
Fixpoint skip_after (skip : bool) (lines : list string) : bool :=
  match lines with
  | [] => skip
  | line :: rest =>
      if is_if line then skip_after true rest
      else if is_endif line then skip_after false rest
      else skip_after skip rest
  end.

(** Phase one: the text of the source file's own lines. *)
Fixpoint own_text (target : string) (skip : bool) (lines : list string) : string :=
  match lines with
  | [] => ""
  | line :: rest =>
      if is_include line then own_text target skip rest
      else if is_if line then own_text target true rest
      else if is_endif line then own_text target false rest
      else if skip then own_text target skip rest
      else substituted target line +:+ own_text target skip rest
  end.

(** Phase one: the names collected from the [#include] lines. *)
Fixpoint recorded_includes (skip : bool) (lines : list string) : list string :=
  match lines with
  | [] => []
  | line :: rest =>
      if is_include line then
        if skip then recorded_includes skip rest
        else include_name line :: recorded_includes skip rest
      else if is_if line then recorded_includes true rest
      else if is_endif line then recorded_includes false rest
      else recorded_includes skip rest
  end.

(** Phase two: the text of the lines of one library. *)
Fixpoint library_text (target : string) (skip : bool) (lines : list string) : string :=
  match lines with
  | [] => ""
  | line :: rest =>
      if is_if line then library_text target true rest
      else if is_endif line then library_text target false rest
      else if skip then library_text target skip rest
      else substituted target line +:+ library_text target skip rest
  end.

(** Phase two: a marker and the text of each library, in the order of
    [libNames]; [content] gives the text of the file of a library. *)
Fixpoint libraries_text (target : string) (content : string -> string)
    (preprocessLibrary : bool) (skip : bool) (libNames : list string) : string :=
  match libNames with
  | [] => ""
  | libName :: rest =>
      if preprocessLibrary then
        marker libName +:+ library_text target skip (readlines (content libName))
        +:+ libraries_text target content preprocessLibrary
              (skip_after skip (readlines (content libName))) rest
      else
        marker libName +:+ content libName
        +:+ libraries_text target content preprocessLibrary skip rest
  end.

(** An [#IF] line on which [checkConditionFromLine] returns. *)
Definition if_lines_return {ast_Module} (ast_parse : string -> option ast_Module)
    (target : string) (lines : list string) : Prop :=
  forall line, In line lines -> is_if line = true ->
    exists c, checkConditionFromLine ast_parse line target = Success c.

(** The outcome of a loop that wrote the text of [r] after [c] in [destFile]. *)
Definition wrote (destFile c : string) (r : string * result locals) (w : World)
  : outcome locals :=
  match snd r with
  | Success st => Ok st (with_file destFile (c +:+ fst r) w)
  | Failure e => Raise e (with_file destFile (c +:+ fst r) w)
  end.

(** The lines on which [processConstants] returns. *)
Definition constants_resolve (target : string) (lines : list string) : Prop :=
  forall line, In line lines ->
    exists newLine, processConstants line target = Success newLine.

(** The flags of the loops when lines are, or are not, being skipped. *)
Definition flags (skip : bool) (libNames : list string) : locals :=
  mkLocals skip skip libNames.

(** The libraries of [libNames] are registered, their files exist with the
    text [content] gives, and, when libraries are preprocessed, no line of
    theirs makes [checkConditionFromLine] or [processConstants] raise. *)
Definition libraries_available {ast_Module} (ast_parse : string -> option ast_Module)
    (target : string) (lib_text : string -> option string) (content : string -> string)
    (preprocessLibrary : bool) (libNames : list string) : Prop :=
  forall libName, In libName libNames ->
    exists libFileName,
      dict_get libraries libName = Some libFileName /\
      lib_text (path_join LIB_DIR libFileName) = Some (content libName) /\
      (preprocessLibrary = true ->
         if_lines_return ast_parse target (readlines (content libName)) /\
         constants_resolve target (readlines (content libName))).

(** The keys with their values for a target, in the order of the table, and
    the replacements of [processConstants] made one after the other. *)
Definition values_for (target : string) (keys : list string) : list (string * string) :=
  map (fun const => (const, default "" (value_of target const))) keys.

Fixpoint replace_each (kvs : list (string * string)) (line : string) : string :=
  match kvs with
  | [] => line
  | (const, newVal) :: rest => replace_each rest (replace line const newVal)
  end.

(** ** Vocabulary of the failures *)

(** The run ended with an exception. *)
Definition aborts {A} (o : outcome A) : Prop := is_Some (raised o).

(** The condition of the [#IF] line has a left-hand side, and the table gives
    it no value for the target: the constant is unknown, or it has no value
    for this target. *)
Definition lhs_without_value (target line : string) : Prop :=
  exists lhs rhs,
    split (condition_of line) "==" = [lhs; rhs] /\ value_of target (strip lhs) = None.

(** The line holds the token of some constant. *)
Definition holds_constant (line : string) : bool :=
  existsb (fun c => contains c line) CONSTANT_KEYS.

(** Some constant of the table has no value for the target. *)
Definition target_lacks_value (target : string) : Prop :=
  exists const, In const CONSTANT_KEYS /\ value_of target const = None.

(** The line is no directive. *)
Definition is_text (line : string) : bool :=
  negb (is_include line) && negb (is_if line) && negb (is_endif line).

(** The loop of [processApps] and of [processDrivers], over the files
    [fileNames] of the directory [dir]. *)
Definition processEach {ast_Module} (ast_parse : string -> option ast_Module)
    (dir target : string) (fileNames : list string) : M unit :=
  for_each (fun _ fileName =>
              processFile ast_parse (path_join dir fileName)
                (path_join OUTPUT_DIR fileName) target true ;;
              count_processed)
           tt fileNames.

(** The first line that [main] prints. *)
Definition banner (target : string) : string :=
  nl +:+ "----------" +:+ nl +:+ "Processing for target: " +:+ target
  +:+ nl +:+ "---------" +:+ nl.

(** ** Lines as literal text and placeholder tokens *)

(** A piece of a line: literal text, or the token of a constant. *)
Inductive piece : Type :=
  | Lit (text : string)
  | Token (const : string).

(** The piece as it stands in the source line. *)
Definition spell (p : piece) : string :=
  match p with
  | Lit text => text
  | Token const => const
  end.

Fixpoint line_of (ps : list piece) : string :=
  match ps with
  | [] => ""
  | p :: rest => spell p +:+ line_of rest
  end.

(** The piece with its token replaced by the value for [target]. *)
Definition resolve (target : string) (p : piece) : string :=
  match p with
  | Lit text => text
  | Token const => default "" (value_of target const)
  end.

Fixpoint resolved (target : string) (ps : list piece) : string :=
  match ps with
  | [] => ""
  | p :: rest => resolve target p +:+ resolved target rest
  end.

(** No key of [keys] starts in [s +:+ tail] at a position within [s]. *)
Fixpoint starts_none (keys : list string) (s tail : string) : bool :=
  match s with
  | "" => true
  | String _ s' =>
      forallb (fun k => negb (startswith (s +:+ tail) k)) keys
      && starts_none keys s' tail
  end.

(** The keys start in the line exactly where the tokens of [ps] stand: none
    starts within literal text or inside a token, and where a token stands
    no other key starts. *)
Fixpoint tokens_exact (keys : list string) (ps : list piece) : bool :=
  match ps with
  | [] => true
  | Lit text :: rest =>
      starts_none keys text (line_of rest) && tokens_exact keys rest
  | Token const :: rest =>
      match const with
      | "" => false
      | String _ const' =>
          existsb (String.eqb const) keys
          && forallb (fun k => String.eqb k const
                               || negb (startswith (const +:+ line_of rest) k)) keys
          && starts_none keys const' (line_of rest)
          && tokens_exact keys rest
      end
  end.

(** The non-empty suffixes of a string. *)
Fixpoint suffixes (s : string) : list string :=
  match s with
  | "" => []
  | String _ r => s :: suffixes r
  end.

(** A key and a value cannot overlap in a line: no non-empty end of one is a
    beginning of the other, and neither stands inside the other. *)
Definition no_overlap (k v : string) : bool :=
  forallb (fun u => negb (startswith v u) && negb (startswith u v)) (suffixes k)
  && forallb (fun s => negb (startswith k s) && negb (startswith s k)) (suffixes v).

(** Every key is non-empty and overlaps no value. *)
Definition separated (kvs : list (string * string)) : bool :=
  forallb (fun k => negb (String.eqb k "")
                    && forallb (fun v => no_overlap k v) (map snd kvs))
          (map fst kvs).

(** One replacement seen on the pieces: the tokens of [k] become the
    literal text [v]. *)
Definition settle_piece (k v : string) (p : piece) : piece :=
  match p with
  | Lit text => Lit text
  | Token const => if String.eqb const k then Lit v else Token const
  end.

Definition settle (k v : string) (ps : list piece) : list piece :=
  map (settle_piece k v) ps.

Fixpoint settle_each (kvs : list (string * string)) (ps : list piece) : list piece :=
  match kvs with
  | [] => ps
  | (k, v) :: rest => settle_each rest (settle k v ps)
  end.

(** All the replacements seen on one piece. *)
Fixpoint settle_piece_each (kvs : list (string * string)) (p : piece) : piece :=
  match kvs with
  | [] => p
  | (k, v) :: rest => settle_piece_each rest (settle_piece k v p)
  end.

Definition is_lit (p : piece) : bool :=
  match p with
  | Lit _ => true
  | Token _ => false
  end.

(** ** Data of the examples *)

(** The double quote as a [str]. *)
Definition quote : string := String "034" "".

(** A stand-in for [ast.parse] that accepts every text. *)
Definition parse_all (source : string) : option string := Some source.

(** The source file of the scenario about [__DNI_PREFIX__]: an [#IF] line
    that compares the prefix with [literal], a [log] line, and [#ENDIF]. *)
Definition log_line : string := "log " +:+ quote +:+ "prefix ok" +:+ quote +:+ nl.

Definition if_prefix_line (literal : string) : string :=
  "#IF __DNI_PREFIX__ == " +:+ quote +:+ literal +:+ quote +:+ nl.

Definition prefix_source (literal : string) : string :=
  if_prefix_line literal +:+ log_line +:+ "#ENDIF" +:+ nl.

(** A world with the given files, a silent console and no file counted. *)
Definition world_of (fs : list (string * string)) : World :=
  mkWorld (list_to_map fs) [] 0.

(** A source file that includes two libraries, and a library whose text ends
    inside an [#IF] block. *)
Definition two_includes_source : string :=
  "#include RMoRobert.CoCoHue_Bri_Lib" +:+ nl +:+
  "#include RMoRobert.CoCoHue_CT_Lib" +:+ nl.

Definition open_block_library : string :=
  if_prefix_line "CCH" +:+ "def bri() {}" +:+ nl.

Definition two_includes_world : World :=
  world_of [("apps/app.groovy", two_includes_source);
            ("libraries/cocohue-library-bri.groovy", open_block_library);
            ("libraries/cocohue-library-ct.groovy", "def ct() {}" +:+ nl)].

(** A source file that includes a library and ends inside an [#IF] block,
    and the same file with the block closed. *)
Definition open_block_source : string :=
  "#include RMoRobert.CoCoHue_Bri_Lib" +:+ nl +:+
  if_prefix_line "XXX" +:+ "hidden" +:+ nl.

Definition closed_block_source : string := open_block_source +:+ "#ENDIF" +:+ nl.

Definition one_library_world (ogFile : string) : World :=
  world_of [("apps/app.groovy", ogFile);
            ("libraries/cocohue-library-bri.groovy", "def bri() {}" +:+ nl)].

(** A source file that includes the same library twice, between lines of its
    own, and the world it is run in. *)
Definition twice_source : string :=
  "title: " +:+ quote +:+ "__APP_NAME__ Setup" +:+ quote +:+ nl +:+
  "#include RMoRobert.CoCoHue_Bri_Lib" +:+ nl +:+
  "def installed() {}" +:+ nl +:+
  "#include RMoRobert.CoCoHue_Bri_Lib" +:+ nl.

Definition twice_world : World :=
  world_of [("apps/app.groovy", twice_source);
            ("libraries/cocohue-library-bri.groovy", "def bri() {}" +:+ nl);
            ("full/cocohue/app.groovy", "stale text")].

Definition twice_output : string :=
  "title: " +:+ quote +:+ "CoCoHue - Hue Bridge Integration Setup" +:+ quote +:+ nl +:+
  "def installed() {}" +:+ nl +:+
  marker "RMoRobert.CoCoHue_Bri_Lib" +:+ "def bri() {}" +:+ nl +:+
  marker "RMoRobert.CoCoHue_Bri_Lib" +:+ "def bri() {}" +:+ nl.

(** A source file whose [#IF] line has two [==]. *)
Definition two_equals_source : string :=
  "#IF __DNI_PREFIX__ == " +:+ quote +:+ "CCH" +:+ quote +:+ " == "
  +:+ quote +:+ "CCH" +:+ quote +:+ nl.

(** The line of the scenario about [__APP_NAME__], in pieces. *)
Definition title_pieces : list piece :=
  [Lit ("title: " +:+ quote); Token "__APP_NAME__"; Lit (" Setup" +:+ quote)].

(** A world that holds every file of the manifest. *)
Definition manifest_world : World :=
  world_of (("apps/cocohue-app.groovy", twice_source)
            :: ("libraries/cocohue-library-bri.groovy", "def bri() {}" +:+ nl)
            :: map (fun f => (path_join DRIVER_DIR f,
                              "name: " +:+ quote +:+ "__DRIVER_NAME_PLUG__" +:+ quote +:+ nl))
                   driverFiles).

(** ** Tactics for the examples *)

(** Proves that a given path is not the path of a registered library. *)
Ltac not_a_library :=
  let H := fresh in
  intros H; vm_compute in H;
  repeat (destruct H as [H|H]; [discriminate H|]); exact H.

(** Evaluates the tests and the substitution made on the lines in the goal,
    which are closed terms, and unfolds one step of the loops. *)
Ltac render_step :=
  match goal with
  | |- context [readlines ?t] =>
      let v := eval vm_compute in (readlines t) in change (readlines t) with v
  | |- context [is_include ?l] =>
      let v := eval vm_compute in (is_include l) in change (is_include l) with v
  | |- context [is_if ?l] =>
      let v := eval vm_compute in (is_if l) in change (is_if l) with v
  | |- context [is_endif ?l] =>
      let v := eval vm_compute in (is_endif l) in change (is_endif l) with v
  | |- context [include_name ?l] =>
      let v := eval vm_compute in (include_name l) in change (include_name l) with v
  | |- context [processConstants ?l ?t] =>
      let v := eval vm_compute in (processConstants l t) in
      change (processConstants l t) with v
  | |- context [subscript libraries ?n] =>
      let v := eval vm_compute in (subscript libraries n) in
      change (subscript libraries n) with v
  | |- context [@lookup string string _ _ ?k ?m] =>
      let v := eval vm_compute in (@lookup string string _ _ k m) in
      change (@lookup string string _ _ k m) with v
  | |- _ => progress unfold renderSourceLine, renderLibraryLine, renderLibrary
  | |- _ =>
      progress (cbn [renderLines renderLibraries andb negb inIf skipLines
                     libNamesToInclude app fst snd])
  end.

(** Writes the [#IF] line of the goal as [if_prefix_line literal]. *)
Tactic Notation "fold_condition" constr(literal) :=
  repeat match goal with
  | |- context [checkConditionFromLine ?p ?l ?t] =>
      progress change (checkConditionFromLine p l t)
        with (checkConditionFromLine p (if_prefix_line literal) COCOHUE)
  end.

(** ** The batch of [main] *)

(** A job of the manifest: the path of a source file and the path of its
    destination, as [processApps] and [processDrivers] compute them. *)
Definition job_of (dir fileName : string) : string * string :=
  (path_join dir fileName, path_join OUTPUT_DIR fileName).

(** The jobs of [main], in the order it runs them. *)
Definition jobs : list (string * string) :=
  map (job_of APP_DIR) appFiles ++ map (job_of DRIVER_DIR) driverFiles.

(** The line [processFile] prints for a job, and the last line of [main]. *)
Definition progress (j : string * string) : string :=
  "  PROCESSING: " +:+ fst j +:+ " -> " +:+ snd j.

Definition done_line (total : nat) : string :=
  nl +:+ "Done. TOTAL: " +:+ pretty total +:+ " files processed.".

(** The loop of [processApps] and [processDrivers] on a list of jobs. *)
Definition processJobs {ast_Module} (ast_parse : string -> option ast_Module)
    (target : string) (js : list (string * string)) : M unit :=
  for_each (fun _ j =>
              processFile ast_parse (fst j) (snd j) target true ;;
              count_processed)
           tt js.

(** A run that ended with the exception [e], or normally. *)
Definition ended (e : option exn) (w : World) : outcome unit :=
  match e with
  | None => Ok tt w
  | Some e => Raise e w
  end.

Section Batch.

Context {ast_Module : Type} (ast_parse : string -> option ast_Module).
Variable target : string.
Variable fs : gmap string string.

(** What the job writes and how it ends, from the files [fs]. *)
Definition job_result (j : string * string) : string * option exn :=
  rendered ast_parse target true fs (fst j).

(** The jobs that are started: those up to the first one that raises. *)
Fixpoint attempted (js : list (string * string)) : list (string * string) :=
  match js with
  | [] => []
  | j :: rest =>
      match snd (job_result j) with
      | Some _ => [j]
      | None => j :: attempted rest
      end
  end.

(** The exception of the first job that raises. *)
Fixpoint failure (js : list (string * string)) : option exn :=
  match js with
  | [] => None
  | j :: rest =>
      match snd (job_result j) with
      | Some e => Some e
      | None => failure rest
      end
  end.

(** The number of jobs before the first one that raises. *)
Fixpoint completed (js : list (string * string)) : nat :=
  match js with
  | [] => 0
  | j :: rest =>
      match snd (job_result j) with
      | Some _ => 0
      | None => S (completed rest)
      end
  end.

(** The files after the destinations of [js] were written. *)
Definition write_job (acc : gmap string string) (j : string * string)
  : gmap string string :=
  <[snd j := fst (job_result j)]> acc.

Definition write_all (js : list (string * string)) (acc : gmap string string)
  : gmap string string :=
  fold_left write_job js acc.

End Batch.

(** ** Vocabulary of the failures inside libraries *)

(** The lines of the file of a library, as the loop over a library reads
    them from the files [fs]; no line when the library is not registered or
    its file is missing. *)
Definition library_lines (fs : gmap string string) (libName : string) : list string :=
  match dict_get libraries libName with
  | Some libFileName =>
      match fs !! path_join LIB_DIR libFileName with
      | Some libFile => readlines libFile
      | None => []
      end
  | None => []
  end.

(** ** Data of further examples *)

(** An [#IF] line whose left-hand side is a known constant and whose
    right-hand side, after the first [==], is [= "CCH"]. *)
Definition triple_equals_line : string :=
  "#IF __DNI_PREFIX__ === " +:+ quote +:+ "CCH" +:+ quote +:+ nl.

(** A library whose text ends inside an [#IF] block whose condition is
    false, the same library with the block closed, and the world in which
    the source file [ogFile] finds the library text [libFile]. *)
Definition open_tail_library : string :=
  "def bri() {}" +:+ nl +:+ if_prefix_line "XXX" +:+ "def extra() {}" +:+ nl.

Definition closed_tail_library : string := open_tail_library +:+ "#ENDIF" +:+ nl.

(** A source file that includes the same library before and after a line of
    its own. *)
Definition repeated_source : string :=
  "#include RMoRobert.CoCoHue_Bri_Lib" +:+ nl +:+
  "def installed() {}" +:+ nl +:+
  "#include RMoRobert.CoCoHue_Bri_Lib" +:+ nl.

Definition library_world (ogFile libFile : string) : World :=
  world_of [("apps/app.groovy", ogFile);
            ("libraries/cocohue-library-bri.groovy", libFile)].

(** * Properties *)

(** ** The built-ins on small inputs *)

Example strip_example : strip ("  #IF x == 1 " +:+ nl) = "#IF x == 1".
Proof. reflexivity. Qed.

Example split_example :
  split "a==b==c" "==" = ["a"; "b"; "c"] /\ split "abc" "==" = ["abc"] /\
  split "===" "==" = [""; "="].
Proof. repeat split; reflexivity. Qed.

Example replace_example :
  replace "#IF x #IF y" "#IF " "" = "x y" /\
  replace "a__X__b__X____X__" "__X__" "v" = "avbvv" /\
  replace "ab" "" "-" = "-a-b-".
Proof. repeat split; reflexivity. Qed.

Example readlines_example :
  readlines ("a" +:+ nl +:+ nl +:+ "b") = ["a" +:+ nl; nl; "b"].
Proof. reflexivity. Qed.

Example path_join_example :
  OUTPUT_DIR = "full/cocohue" /\
  path_join OUTPUT_DIR "cocohue-app.groovy" = "full/cocohue/cocohue-app.groovy".
Proof. split; reflexivity. Qed.

(** ** Strings *)

Lemma app_empty_r (s : string) : s +:+ "" = s.
Proof.
  induction s as [|c s IH]; [reflexivity|].
  change (String c (s +:+ "") = String c s). by rewrite IH.
Qed.

Lemma app_cons (c : ascii) (s t : string) : String c s +:+ t = String c (s +:+ t).
Proof. reflexivity. Qed.

Lemma app_empty_l (s : string) : "" +:+ s = s.
Proof. reflexivity. Qed.

Lemma app_assoc' (s t u : string) : (s +:+ t) +:+ u = s +:+ t +:+ u.
Proof.
  induction s as [|c s IH]; [reflexivity|]. rewrite !app_cons. by rewrite IH.
Qed.

Lemma startswith_spec (s p : string) :
  startswith s p = true <-> exists r, s = p +:+ r.
Proof.
  revert s. induction p as [|a p IH]; intros s.
  - destruct s; simpl; split; eauto.
  - destruct s as [|b s]; simpl.
    + split; [discriminate|]. intros [r Hr]. discriminate.
    + destruct (ascii_dec a b) as [->|Hne].
      * rewrite IH. split; intros [r Hr]; exists r.
        -- rewrite app_cons. by rewrite Hr.
        -- rewrite app_cons in Hr. by injection Hr.
      * split; [discriminate|]. intros [r Hr]. rewrite app_cons in Hr.
        injection Hr as ? ?. congruence.
Qed.

Lemma startswith_app (p r : string) : startswith (p +:+ r) p = true.
Proof. apply startswith_spec. by exists r. Qed.

Lemma is_include_not_if (line : string) : is_include line = true -> is_if line = false.
Proof.
  unfold is_include, is_if. intros [r ->]%startswith_spec. reflexivity.
Qed.

Lemma is_include_not_endif (line : string) : is_include line = true -> is_endif line = false.
Proof.
  unfold is_include, is_endif. intros [r ->]%startswith_spec. reflexivity.
Qed.

(** ** Worlds *)

Lemma with_file_id (p c : string) (w : World) :
  files w !! p = Some c -> with_file p c w = w.
Proof. intros H. destruct w as [f o t]. unfold with_file; simpl in *. by rewrite insert_id. Qed.

Lemma with_file_lookup (p c : string) (w : World) :
  files (with_file p c w) !! p = Some c.
Proof. simpl. apply lookup_insert_eq. Qed.

Lemma with_file_lookup_ne (p q c : string) (w : World) :
  p <> q -> files (with_file p c w) !! q = files w !! q.
Proof. intros H. simpl. by apply lookup_insert_ne. Qed.

Lemma with_file_twice (p c d : string) (w : World) :
  with_file p d (with_file p c w) = with_file p d w.
Proof. unfold with_file; simpl. by rewrite insert_insert_eq. Qed.

Lemma write_with_file (p c s : string) (w : World) :
  files w !! p = Some c -> write p s w = Ok tt (with_file p (c +:+ s) w).
Proof. intros H. unfold write, with_file. by rewrite H. Qed.

(** ** The loops write what [render] says *)

Section Loops.

Context {ast_Module : Type} (ast_parse : string -> option ast_Module).
Variables destFile target : string.

Lemma libraryLine_render st line w c :
  files w !! destFile = Some c ->
  libraryLine ast_parse destFile target st line w =
    match renderLibraryLine ast_parse target st line with
    | Success (st', text) => Ok st' (with_file destFile (c +:+ text) w)
    | Failure e => Raise e w
    end.
Proof.
  intros Hc. unfold libraryLine, renderLibraryLine, is_if, is_endif.
  destruct (startswith (strip line) "#IF ").
  { unfold bind, lift. destruct (checkConditionFromLine _ _ _); simpl; [|done].
    by rewrite app_empty_r, with_file_id. }
  destruct (startswith (strip line) "#ENDIF").
  { unfold ret. by rewrite app_empty_r, with_file_id. }
  destruct (negb _).
  - unfold bind, lift. destruct (processConstants _ _) as [newLine|e]; [|done].
    unfold ret at 1. rewrite (write_with_file _ c) by done. done.
  - unfold ret. by rewrite app_empty_r, with_file_id.
Qed.

Lemma sourceLine_render st line w c :
  files w !! destFile = Some c ->
  sourceLine ast_parse destFile target st line w =
    match renderSourceLine ast_parse target st line with
    | Success (st', text) => Ok st' (with_file destFile (c +:+ text) w)
    | Failure e => Raise e w
    end.
Proof.
  intros Hc. unfold sourceLine, renderSourceLine, is_include.
  destruct (startswith (strip line) "#include" && negb (skipLines st)).
  - unfold ret. by rewrite app_empty_r, with_file_id.
  - apply (libraryLine_render st line w c Hc).
Qed.

Lemma for_each_render (body : locals -> string -> M locals)
    (step : locals -> string -> result (locals * string)) :
  (forall st line w c, files w !! destFile = Some c ->
     body st line w = match step st line with
                      | Success (st', text) => Ok st' (with_file destFile (c +:+ text) w)
                      | Failure e => Raise e w
                      end) ->
  forall lines st w c, files w !! destFile = Some c ->
    for_each body st lines w = wrote destFile c (renderLines step st lines) w.
Proof.
  intros Hbody lines. induction lines as [|line rest IH]; intros st w c Hc.
  - unfold wrote; simpl. unfold ret. by rewrite app_empty_r, with_file_id.
  - simpl. unfold bind. rewrite (Hbody _ _ _ c Hc).
    destruct (step st line) as [[st' text]|e].
    + rewrite (IH st' _ (c +:+ text)) by apply with_file_lookup.
      destruct (renderLines step st' rest) as [text' r]. unfold wrote; simpl.
      rewrite app_assoc', with_file_twice. done.
    + unfold wrote; simpl. by rewrite app_empty_r, with_file_id.
Qed.

End Loops.

Lemma dict_get_In {V} (d : dict V) (k : string) (v : V) :
  dict_get d k = Some v -> In (k, v) d.
Proof.
  induction d as [|[k' v'] d IH]; simpl; [done|].
  destruct (String.eqb_spec k k') as [->|Hne].
  - intros [= ->]. by left.
  - intros H. right. by apply IH.
Qed.

Lemma library_path_registered (libName libFileName : string) :
  dict_get libraries libName = Some libFileName ->
  In (path_join LIB_DIR libFileName) library_paths.
Proof.
  intros H%dict_get_In. unfold library_paths.
  apply in_map_iff. by exists (libName, libFileName).
Qed.

Section Files.

Context {ast_Module : Type} (ast_parse : string -> option ast_Module).
Variables destFile target : string.
Variable preprocessLibrary : bool.
Hypothesis dest_not_library : ~ In destFile library_paths.

Lemma includeLibrary_render lib_text st libName w c :
  files w !! destFile = Some c ->
  (forall p, p <> destFile -> files w !! p = lib_text p) ->
  includeLibrary ast_parse destFile target preprocessLibrary st libName w =
    wrote destFile c
      (renderLibrary ast_parse target lib_text preprocessLibrary st libName) w.
Proof using dest_not_library.
  intros Hc Hlib. unfold includeLibrary, renderLibrary, subscript.
  unfold bind at 1, lift.
  destruct (dict_get libraries libName) as [libFileName|] eqn:Hreg; simpl.
  2:{ unfold wrote, raise; simpl. by rewrite app_empty_r, with_file_id. }
  assert (path_join LIB_DIR libFileName <> destFile) as Hne.
  { intros <-. apply dest_not_library. by eapply library_path_registered. }
  unfold ret at 1, bind at 1, open_read. rewrite (Hlib _ Hne).
  destruct (lib_text (path_join LIB_DIR libFileName)) as [libFile|].
  2:{ unfold wrote; simpl. by rewrite app_empty_r, with_file_id. }
  unfold bind at 1. fold (marker libName). rewrite (write_with_file _ c) by done.
  destruct preprocessLibrary; simpl.
  - rewrite (for_each_render destFile _ _
               (libraryLine_render ast_parse destFile target) _ _ _ (c +:+ marker libName))
      by apply with_file_lookup.
    destruct (renderLines _ _ _) as [text r]. unfold wrote; simpl.
    rewrite with_file_twice, app_assoc'. done.
  - unfold bind, ret. rewrite (write_with_file _ (c +:+ marker libName))
      by apply with_file_lookup.
    unfold wrote; simpl. rewrite with_file_twice, app_assoc'. done.
Qed.

Lemma for_each_includeLibrary lib_text libNames st w c :
  files w !! destFile = Some c ->
  (forall p, p <> destFile -> files w !! p = lib_text p) ->
  for_each (includeLibrary ast_parse destFile target preprocessLibrary) st libNames w =
    wrote destFile c
      (renderLibraries ast_parse target lib_text preprocessLibrary st libNames) w.
Proof using dest_not_library.
  revert st w c. induction libNames as [|libName rest IH]; intros st w c Hc Hlib.
  - unfold wrote; simpl. unfold ret. by rewrite app_empty_r, with_file_id.
  - simpl. unfold bind. rewrite (includeLibrary_render lib_text _ _ _ c) by done.
    destruct (renderLibrary _ _ _ _ _ _) as [text [st'|e]]; unfold wrote at 1; simpl.
    + rewrite (IH st' _ (c +:+ text)).
      * destruct (renderLibraries _ _ _ _ _ _) as [text' r]. unfold wrote; simpl.
        rewrite with_file_twice, app_assoc'. done.
      * apply with_file_lookup.
      * intros p Hp. rewrite with_file_lookup_ne by done. by apply Hlib.
    + done.
Qed.

Lemma processFile_start sourceFile w :
  processFile ast_parse sourceFile destFile target preprocessLibrary w =
    (ogFile <- open_read sourceFile ;;
     st <- for_each (sourceLine ast_parse destFile target) (mkLocals false false [])
             (readlines ogFile) ;;
     for_each (includeLibrary ast_parse destFile target preprocessLibrary) st
       (libNamesToInclude st) ;;
     ret tt)
    (mkWorld (<[destFile := ""]> (files w))
       (stdout w ++ ["  PROCESSING: " +:+ sourceFile +:+ " -> " +:+ destFile])
       (totalProcessed w)).
Proof.
  unfold processFile. unfold bind at 1, print. unfold bind at 1, isfile. simpl.
  destruct (files w !! destFile) as [old|] eqn:Hold.
  - rewrite bool_decide_eq_true_2 by eauto.
    unfold bind at 1, remove. simpl. unfold bind at 1, open_append; simpl.
    rewrite lookup_delete_eq. by rewrite insert_delete_eq.
  - rewrite bool_decide_eq_false_2 by (intros [? ?]; congruence).
    unfold bind at 1, ret at 1. unfold bind at 1, open_append; simpl.
    by rewrite Hold.
Qed.

(** A run writes the text that [render] gives, and ends as [render] says. *)
Lemma processFile_render sourceFile w ogFile :
  destFile <> sourceFile ->
  files w !! sourceFile = Some ogFile ->
  processFile ast_parse sourceFile destFile target preprocessLibrary w =
    finish sourceFile destFile
      (render ast_parse target (fun p => files w !! p) preprocessLibrary ogFile) w.
Proof using dest_not_library.
  intros Hne Hsrc. rewrite processFile_start.
  set (w1 := mkWorld _ _ _).
  assert (files w1 !! destFile = Some "") as Hc by apply lookup_insert_eq.
  assert (forall p, p <> destFile -> files w1 !! p = files w !! p) as Hlib.
  { intros p Hp. subst w1; simpl. by apply lookup_insert_ne. }
  unfold bind at 1, open_read. rewrite Hlib, Hsrc by done.
  unfold bind at 1.
  rewrite (for_each_render destFile _ _
             (sourceLine_render ast_parse destFile target) _ _ _ "" Hc).
  unfold render.
  destruct (renderLines _ _ _) as [own [st|e]]; unfold wrote at 1; simpl.
  2:{ unfold finish; simpl. subst w1. unfold with_file; simpl.
      by rewrite insert_insert_eq. }
  unfold bind at 1.
  rewrite (for_each_includeLibrary (fun p => files w !! p) _ _ _ own).
  - destruct (renderLibraries _ _ _ _ _ _) as [libs [st'|e]];
      unfold wrote, finish; simpl; subst w1; unfold with_file; simpl;
      by rewrite !insert_insert_eq.
  - apply with_file_lookup.
  - intros p Hp. rewrite with_file_lookup_ne by done. by apply Hlib.
Qed.

Lemma processFile_missing sourceFile w :
  destFile <> sourceFile ->
  files w !! sourceFile = None ->
  processFile ast_parse sourceFile destFile target preprocessLibrary w =
    finish sourceFile destFile ("", Some (FileNotFoundError sourceFile)) w.
Proof.
  intros Hne Hsrc. rewrite processFile_start.
  unfold bind at 1, open_read; simpl.
  rewrite lookup_insert_ne, Hsrc by done. done.
Qed.

End Files.

(** ** Conditions are never true, and the flags move together *)

Section Flags.

Context {ast_Module : Type} (ast_parse : string -> option ast_Module).
Variable target : string.

Lemma checkCondition_not_true line c :
  checkConditionFromLine ast_parse line target = Success c -> c = false.
Proof.
  unfold checkConditionFromLine.
  destruct (split _ _) as [|lhs [|rhs [|? ?]]]; try discriminate.
  destruct (subscript CONSTANTS _) as [values|]; [|discriminate].
  destruct (subscript values target) as [value|]; [|discriminate].
  destruct (ast_parse _) as [tree|]; [|discriminate].
  simpl. by intros [= <-].
Qed.

Lemma renderLibraryLine_flags skip libNames line :
  (is_if line = true -> exists c, checkConditionFromLine ast_parse line target = Success c) ->
  (exists newLine, processConstants line target = Success newLine) ->
  renderLibraryLine ast_parse target (flags skip libNames) line =
    Success (flags (skip_after skip [line]) libNames,
             library_text target skip [line]).
Proof.
  intros Hif [newLine Hsub]. unfold renderLibraryLine; simpl.
  destruct (is_if line) eqn:Eif.
  { destruct Hif as [c Hc]; [done|]. rewrite Hc.
    by rewrite (checkCondition_not_true _ _ Hc). }
  destruct (is_endif line); [done|].
  rewrite andb_diag. unfold substituted. rewrite Hsub.
  destruct skip; simpl; [done|]. by rewrite app_empty_r.
Qed.

Lemma renderSourceLine_flags skip libNames line :
  (is_if line = true -> exists c, checkConditionFromLine ast_parse line target = Success c) ->
  (exists newLine, processConstants line target = Success newLine) ->
  renderSourceLine ast_parse target (flags skip libNames) line =
    Success (flags (skip_after skip [line]) (libNames ++ recorded_includes skip [line]),
             own_text target skip [line]).
Proof.
  intros Hif Hsub. unfold renderSourceLine.
  destruct (is_include line) eqn:Einc; simpl.
  - rewrite Einc, (is_include_not_if _ Einc), (is_include_not_endif _ Einc).
    destruct skip; simpl.
    + unfold renderLibraryLine.
      rewrite (is_include_not_if _ Einc), (is_include_not_endif _ Einc). simpl.
      by rewrite app_nil_r.
    + done.
  - rewrite (renderLibraryLine_flags _ _ _ Hif Hsub). simpl. rewrite Einc.
    destruct (is_if line); [by rewrite app_nil_r|].
    destruct (is_endif line); by rewrite app_nil_r.
Qed.

Lemma skip_after_app skip l1 l2 :
  skip_after skip (l1 ++ l2) = skip_after (skip_after skip l1) l2.
Proof.
  revert skip. induction l1 as [|line l1 IH]; intros skip; simpl; [done|].
  destruct (is_if line); [apply IH|]. destruct (is_endif line); apply IH.
Qed.

Lemma skip_after_cons skip line rest :
  skip_after (skip_after skip [line]) rest = skip_after skip (line :: rest).
Proof. by rewrite <- skip_after_app. Qed.

Lemma library_text_cons skip line rest :
  library_text target skip [line] +:+ library_text target (skip_after skip [line]) rest
  = library_text target skip (line :: rest).
Proof.
  simpl. destruct (is_if line); [done|]. destruct (is_endif line); [done|].
  destruct skip; [done|]. by rewrite app_empty_r.
Qed.

Lemma own_text_cons skip line rest :
  own_text target skip [line] +:+ own_text target (skip_after skip [line]) rest
  = own_text target skip (line :: rest).
Proof.
  simpl. destruct (is_include line) eqn:Einc.
  { by rewrite (is_include_not_if _ Einc), (is_include_not_endif _ Einc). }
  destruct (is_if line); [done|]. destruct (is_endif line); [done|].
  destruct skip; [done|]. by rewrite app_empty_r.
Qed.

Lemma recorded_includes_cons skip line rest :
  recorded_includes skip [line] ++ recorded_includes (skip_after skip [line]) rest
  = recorded_includes skip (line :: rest).
Proof.
  simpl. destruct (is_include line) eqn:Einc.
  { rewrite (is_include_not_if _ Einc), (is_include_not_endif _ Einc).
    by destruct skip. }
  destruct (is_if line); [done|]. by destruct (is_endif line).
Qed.

Lemma renderLines_library skip libNames lines :
  if_lines_return ast_parse target lines ->
  constants_resolve target lines ->
  renderLines (renderLibraryLine ast_parse target) (flags skip libNames) lines =
    (library_text target skip lines, Success (flags (skip_after skip lines) libNames)).
Proof.
  revert skip. induction lines as [|line rest IH]; intros skip Hif Hsub; [done|].
  cbn [renderLines]. rewrite renderLibraryLine_flags.
  - rewrite IH.
    + by rewrite library_text_cons, skip_after_cons.
    + intros l Hl. apply Hif. by right.
    + intros l Hl. apply Hsub. by right.
  - apply Hif. by left.
  - apply Hsub. by left.
Qed.

Lemma renderLines_source skip libNames lines :
  if_lines_return ast_parse target lines ->
  constants_resolve target lines ->
  renderLines (renderSourceLine ast_parse target) (flags skip libNames) lines =
    (own_text target skip lines,
     Success (flags (skip_after skip lines) (libNames ++ recorded_includes skip lines))).
Proof.
  revert skip libNames.
  induction lines as [|line rest IH]; intros skip libNames Hif Hsub.
  { simpl. by rewrite app_nil_r. }
  cbn [renderLines]. rewrite renderSourceLine_flags.
  - rewrite IH.
    + by rewrite own_text_cons, skip_after_cons, <- app_assoc, recorded_includes_cons.
    + intros l Hl. apply Hif. by right.
    + intros l Hl. apply Hsub. by right.
  - apply Hif. by left.
  - apply Hsub. by left.
Qed.

End Flags.

(** ** Substitution returns when the target has values *)

Lemma replaceConstants_values (target : string) (keys : list string) (line : string) :
  Forall (fun const => is_Some (value_of target const)) keys ->
  replaceConstants keys line target = Success (replace_each (values_for target keys) line).
Proof.
  revert line. induction keys as [|const keys IH]; intros line Hall; [done|].
  inversion Hall as [|? ? [newVal Hval] Hrest]; subst.
  simpl. unfold value_of in Hval |- *. unfold subscript.
  destruct (dict_get CONSTANTS const) as [values|]; [|done].
  rewrite Hval. simpl. by apply IH.
Qed.

Lemma COCOHUE_has_values :
  Forall (fun const => is_Some (value_of COCOHUE const)) CONSTANT_KEYS.
Proof. repeat (constructor; [by eexists|]). constructor. Qed.

Lemma processConstants_COCOHUE (line : string) :
  processConstants line COCOHUE =
    Success (if existsb (fun c => contains c line) CONSTANT_KEYS
             then replace_each (values_for COCOHUE CONSTANT_KEYS) line
             else line).
Proof.
  unfold processConstants. destruct (existsb _ _); [|done].
  apply replaceConstants_values, COCOHUE_has_values.
Qed.

Lemma constants_resolve_COCOHUE (lines : list string) : constants_resolve COCOHUE lines.
Proof. intros line _. eexists. apply processConstants_COCOHUE. Qed.

Lemma processConstants_no_constant (line target : string) :
  existsb (fun c => contains c line) CONSTANT_KEYS = false ->
  processConstants line target = Success line.
Proof. intros H. unfold processConstants. by rewrite H. Qed.

(** ** A run that does not raise writes the two phases *)

Section TwoPhases.

Context {ast_Module : Type} (ast_parse : string -> option ast_Module).
Variable target : string.
Variable lib_text : string -> option string.
Variable content : string -> string.
Variable preprocessLibrary : bool.

Lemma renderLibrary_text skip libNames libName :
  libraries_available ast_parse target lib_text content preprocessLibrary [libName] ->
  renderLibrary ast_parse target lib_text preprocessLibrary (flags skip libNames) libName =
    (libraries_text target content preprocessLibrary skip [libName],
     Success (flags (if preprocessLibrary
                     then skip_after skip (readlines (content libName))
                     else skip) libNames)).
Proof.
  intros Hav. destruct (Hav libName) as (libFileName & Hreg & Htext & Hlines); [by left|].
  unfold renderLibrary, subscript. rewrite Hreg, Htext. simpl.
  destruct preprocessLibrary; simpl.
  - destruct Hlines as [Hif Hsub]; [done|].
    rewrite renderLines_library by done. by rewrite !app_empty_r.
  - by rewrite !app_empty_r.
Qed.

Lemma renderLibraries_text skip libNames names :
  libraries_available ast_parse target lib_text content preprocessLibrary names ->
  exists skip',
    renderLibraries ast_parse target lib_text preprocessLibrary (flags skip libNames) names =
      (libraries_text target content preprocessLibrary skip names,
       Success (flags skip' libNames)).
Proof.
  revert skip. induction names as [|libName rest IH]; intros skip Hav.
  { by exists skip. }
  cbn [renderLibraries]. rewrite renderLibrary_text.
  2:{ intros n [<-|[]]. apply Hav. by left. }
  edestruct IH as [skip' ->].
  { intros n Hn. apply Hav. by right. }
  exists skip'. f_equal. simpl.
  destruct preprocessLibrary; by rewrite !app_empty_r, ?app_assoc'.
Qed.

Lemma render_two_phases ogFile :
  if_lines_return ast_parse target (readlines ogFile) ->
  constants_resolve target (readlines ogFile) ->
  libraries_available ast_parse target lib_text content preprocessLibrary
    (recorded_includes false (readlines ogFile)) ->
  render ast_parse target lib_text preprocessLibrary ogFile =
    (own_text target false (readlines ogFile)
     +:+ libraries_text target content preprocessLibrary
           (skip_after false (readlines ogFile))
           (recorded_includes false (readlines ogFile)),
     None).
Proof.
  intros Hif Hsub Hav. unfold render.
  change (mkLocals false false []) with (flags false []).
  rewrite renderLines_source by done. simpl.
  edestruct renderLibraries_text as [skip' ->]; [exact Hav|]. done.
Qed.

End TwoPhases.

(** ** Directive lines *)

Lemma is_if_not_include (line : string) : is_if line = true -> is_include line = false.
Proof. unfold is_include, is_if. intros [r ->]%startswith_spec. reflexivity. Qed.

Lemma is_endif_not_include (line : string) : is_endif line = true -> is_include line = false.
Proof. unfold is_include, is_endif. intros [r ->]%startswith_spec. reflexivity. Qed.

Lemma is_endif_not_if (line : string) : is_endif line = true -> is_if line = false.
Proof. unfold is_if, is_endif. intros [r ->]%startswith_spec. reflexivity. Qed.

Section Conditions.

Context {ast_Module : Type} (ast_parse : string -> option ast_Module).
Variables destFile target : string.

Lemma sourceLine_if st line w c :
  is_if line = true ->
  checkConditionFromLine ast_parse line target = Success c ->
  sourceLine ast_parse destFile target st line w =
    Ok (mkLocals true true (libNamesToInclude st)) w.
Proof.
  intros Hif Hc. unfold sourceLine.
  fold (is_include line) (is_if line). rewrite (is_if_not_include _ Hif), Hif. simpl.
  unfold bind, lift. rewrite Hc. simpl. by rewrite (checkCondition_not_true _ _ _ _ Hc).
Qed.

Lemma sourceLine_endif st line w :
  is_endif line = true ->
  sourceLine ast_parse destFile target st line w =
    Ok (mkLocals false false (libNamesToInclude st)) w.
Proof.
  intros Hend. unfold sourceLine.
  fold (is_include line) (is_if line) (is_endif line).
  by rewrite (is_endif_not_include _ Hend), (is_endif_not_if _ Hend), Hend.
Qed.

Lemma sourceLine_skipped libNames line w :
  is_if line = false -> is_endif line = false ->
  sourceLine ast_parse destFile target (mkLocals true true libNames) line w =
    Ok (mkLocals true true libNames) w.
Proof.
  intros Hif Hend. unfold sourceLine.
  fold (is_include line) (is_if line) (is_endif line).
  rewrite Hif, Hend. simpl. by rewrite andb_false_r.
Qed.

Lemma for_each_skipped libNames body w :
  Forall (fun l => is_if l = false /\ is_endif l = false) body ->
  for_each (sourceLine ast_parse destFile target) (mkLocals true true libNames) body w =
    Ok (mkLocals true true libNames) w.
Proof.
  induction 1 as [|line body [Hif Hend] _ IH]; [done|].
  simpl. unfold bind. by rewrite sourceLine_skipped.
Qed.

Lemma for_each_app {A S} (body : S -> A -> M S) (st : S) (l1 l2 : list A) (w : World) :
  for_each body st (l1 ++ l2) w =
    match for_each body st l1 w with
    | Ok st' w' => for_each body st' l2 w'
    | Raise e w' => Raise e w'
    end.
Proof.
  revert st w. induction l1 as [|x l1 IH]; intros st w; [done|].
  simpl. unfold bind. destruct (body st x w); [apply IH|done].
Qed.

End Conditions.

(** C2, as amended: when what follows [#IF ] on the line splits at [==]
    into exactly a left-hand and a right-hand side, the left-hand side names
    a constant that has a value for the target, and [ast.parse] accepts the
    right-hand side, the value, a [str], is compared with the object that
    [ast.parse] makes of the right-hand side; the answer is [False] for
    every such line and target, and no line and no target give [True]; so
    the lines between such an [#IF] line and the next [#ENDIF] line are
    dropped whatever the literal is: the loop writes nothing, records no
    library and ends outside any block. *)
Theorem condition_never_holds {ast_Module : Type}
    (ast_parse : string -> option ast_Module)
    (line target lhs rhs : string) (values : dict string) (value : string)
    (tree : ast_Module) :
  split (condition_of line) "==" = [lhs; rhs] ->
  dict_get CONSTANTS (strip lhs) = Some values ->
  dict_get values target = Some value ->
  ast_parse (strip rhs) = Some tree ->
  checkConditionFromLine ast_parse line target = Success (str_eq value (Ast tree)) /\
  checkConditionFromLine ast_parse line target = Success false /\
  (forall line' target', checkConditionFromLine ast_parse line' target' <> Success true) /\
  forall destFile st body endif w,
    is_if line = true ->
    Forall (fun l => is_if l = false /\ is_endif l = false) body ->
    is_endif endif = true ->
    for_each (sourceLine ast_parse destFile target) st (line :: body ++ [endif]) w =
      Ok (mkLocals false false (libNamesToInclude st)) w.
Proof.
  intros Hsplit Hvalues Hvalue Htree.
  assert (checkConditionFromLine ast_parse line target = Success false) as Hc.
  { unfold checkConditionFromLine, subscript. fold (condition_of line).
    by rewrite Hsplit, Hvalues, Hvalue, Htree. }
  split; [by rewrite Hc|]. split; [done|]. split.
  { intros line' target' Htrue. by apply checkCondition_not_true in Htrue. }
  intros destFile st body endif w Hif Hbody Hend.
  cbn [for_each]. unfold bind at 1. rewrite (sourceLine_if _ _ _ _ _ _ false) by done.
  rewrite for_each_app, for_each_skipped by done.
  simpl. unfold bind. by rewrite sourceLine_endif.
Qed.

Lemma condition_never_holds_witness :
  checkConditionFromLine parse_all (if_prefix_line "CCH") COCOHUE = Success false /\
  checkConditionFromLine parse_all (if_prefix_line "XXX") COCOHUE = Success false /\
  for_each (sourceLine parse_all "out.groovy" COCOHUE) (mkLocals false false [])
    [if_prefix_line "CCH"; log_line; "#include RMoRobert.CoCoHue_Bri_Lib"; "  #ENDIF"]
    (world_of []) = Ok (mkLocals false false []) (world_of []).
Proof.
  pose proof (condition_never_holds parse_all (if_prefix_line "CCH") COCOHUE
                "__DNI_PREFIX__ " (" " +:+ quote +:+ "CCH" +:+ quote)
                [(COCOHUE, "CCH")] "CCH" (quote +:+ "CCH" +:+ quote)
                eq_refl eq_refl eq_refl eq_refl) as (_ & Hcch & _ & Hblock).
  pose proof (condition_never_holds parse_all (if_prefix_line "XXX") COCOHUE
                "__DNI_PREFIX__ " (" " +:+ quote +:+ "XXX" +:+ quote)
                [(COCOHUE, "CCH")] "CCH" (quote +:+ "XXX" +:+ quote)
                eq_refl eq_refl eq_refl eq_refl) as (_ & Hxxx & _ & _).
  split; [exact Hcch|]. split; [exact Hxxx|].
  apply (Hblock "out.groovy" (mkLocals false false [])
           [log_line; "#include RMoRobert.CoCoHue_Bri_Lib"] "  #ENDIF" (world_of [])).
  - reflexivity.
  - repeat constructor.
  - reflexivity.
Defined.

(** C2, as stated, fails: the left-hand side of each of these two [#IF]
    lines names a constant that has a value for the target, and
    [checkConditionFromLine] does not return [False]: it raises
    [ValueError] on the line with two [==], whatever [ast.parse] does, and
    [SyntaxError] on the line whose right-hand side is [= "CCH"] when
    [ast.parse] rejects that text; the loop over the source file stops at
    the line, so no block is dropped: the run ends there. *)
Lemma condition_raises_for_known_constant :
  value_of COCOHUE "__DNI_PREFIX__" = Some "CCH" /\
  is_if two_equals_source = true /\
  map strip (split (condition_of two_equals_source) "==") =
    ["__DNI_PREFIX__"; quote +:+ "CCH" +:+ quote; quote +:+ "CCH" +:+ quote] /\
  (forall (ast_Module : Type) (ast_parse : string -> option ast_Module),
     checkConditionFromLine ast_parse two_equals_source COCOHUE = Failure ValueError /\
     forall destFile st rest w,
       for_each (sourceLine ast_parse destFile COCOHUE) st (two_equals_source :: rest) w =
         Raise ValueError w) /\
  is_if triple_equals_line = true /\
  map strip (split (condition_of triple_equals_line) "==") =
    ["__DNI_PREFIX__"; "= " +:+ quote +:+ "CCH" +:+ quote] /\
  (forall (ast_Module : Type) (ast_parse : string -> option ast_Module),
     ast_parse ("= " +:+ quote +:+ "CCH" +:+ quote) = None ->
     checkConditionFromLine ast_parse triple_equals_line COCOHUE = Failure SyntaxError /\
     forall destFile st rest w,
       for_each (sourceLine ast_parse destFile COCOHUE) st (triple_equals_line :: rest) w =
         Raise SyntaxError w).
Proof.
  split; [reflexivity|]. split; [reflexivity|]. split; [reflexivity|].
  split; [|split; [reflexivity|split; [reflexivity|]]].
  - intros ast_Module ast_parse.
    assert (checkConditionFromLine ast_parse two_equals_source COCOHUE = Failure ValueError)
      as Hc by reflexivity.
    split; [exact Hc|]. intros destFile st rest w.
    cbn [for_each]. unfold bind, sourceLine.
    change (startswith (strip two_equals_source) "#include") with false.
    change (startswith (strip two_equals_source) "#IF ") with true.
    cbn [andb]. unfold bind, lift. rewrite Hc. reflexivity.
  - intros ast_Module ast_parse Hreject.
    assert (checkConditionFromLine ast_parse triple_equals_line COCOHUE = Failure SyntaxError)
      as Hc.
    { change (checkConditionFromLine ast_parse triple_equals_line COCOHUE)
        with (match ast_parse ("= " +:+ quote +:+ "CCH" +:+ quote) with
              | Some tree => Success (str_eq "CCH" (Ast tree))
              | None => Failure SyntaxError
              end).
      by rewrite Hreject. }
    split; [exact Hc|]. intros destFile st rest w.
    cbn [for_each]. unfold bind, sourceLine.
    change (startswith (strip triple_equals_line) "#include") with false.
    change (startswith (strip triple_equals_line) "#IF ") with true.
    cbn [andb]. unfold bind, lift. rewrite Hc. reflexivity.
Qed.

Section FlagsTogether.

Context {ast_Module : Type} (ast_parse : string -> option ast_Module).
Variables destFile target : string.

Lemma sourceLine_flags_together st line w st' w' :
  inIf st = skipLines st ->
  sourceLine ast_parse destFile target st line w = Ok st' w' ->
  inIf st' = skipLines st'.
Proof.
  intros Hst. unfold sourceLine.
  destruct (_ && _); [by intros [= <- _]|].
  destruct (startswith (strip line) "#IF ").
  { unfold bind, lift. destruct (checkConditionFromLine _ _ _) as [c|] eqn:Hc; [|done].
    simpl. rewrite (checkCondition_not_true _ _ _ _ Hc). by intros [= <- _]. }
  destruct (startswith (strip line) "#ENDIF"); [by intros [= <- _]|].
  destruct (negb _).
  - unfold bind, lift. destruct (processConstants _ _); [|done].
    simpl. by intros [= <- _].
  - by intros [= <- _].
Qed.

Lemma for_each_flags_together lines st w st' w' :
  inIf st = skipLines st ->
  for_each (sourceLine ast_parse destFile target) st lines w = Ok st' w' ->
  inIf st' = skipLines st'.
Proof.
  revert st w. induction lines as [|line rest IH]; intros st w Hst; simpl.
  { by intros [= <- _]. }
  unfold bind. destruct (sourceLine _ _ _ _ _ _) as [st1 w1|] eqn:Hline; [|done].
  apply IH. by eapply sourceLine_flags_together.
Qed.

End FlagsTogether.

(** C10: an [#include] line met while lines are being skipped (both flags
    set: inside an [#IF] block whose condition was false) is neither recorded
    nor written; met inside a block whose condition was true (only [inIf]
    set) it is recorded as it is outside any block.  The loop over the source
    file never has [skipLines] set without [inIf]. *)
Theorem include_inside_block {ast_Module : Type}
    (ast_parse : string -> option ast_Module)
    (destFile target line : string) (libNames : list string) (w : World) :
  is_include line = true ->
  sourceLine ast_parse destFile target (mkLocals true true libNames) line w =
    Ok (mkLocals true true libNames) w /\
  sourceLine ast_parse destFile target (mkLocals true false libNames) line w =
    Ok (mkLocals true false (libNames ++ [include_name line])) w /\
  sourceLine ast_parse destFile target (mkLocals false false libNames) line w =
    Ok (mkLocals false false (libNames ++ [include_name line])) w /\
  forall lines st' w',
    for_each (sourceLine ast_parse destFile target) (mkLocals false false []) lines w =
      Ok st' w' ->
    inIf st' = skipLines st'.
Proof.
  intros Hinc. split; [|split; [|split]].
  - apply sourceLine_skipped.
    + by apply is_include_not_if.
    + by apply is_include_not_endif.
  - unfold sourceLine. fold (is_include line). by rewrite Hinc.
  - unfold sourceLine. fold (is_include line). by rewrite Hinc.
  - intros lines st' w'. by apply for_each_flags_together.
Qed.

Lemma include_inside_block_witness :
  let line := "#include RMoRobert.CoCoHue_Bri_Lib" +:+ nl in
  sourceLine parse_all "out.groovy" COCOHUE (mkLocals true true []) line (world_of []) =
    Ok (mkLocals true true []) (world_of []) /\
  sourceLine parse_all "out.groovy" COCOHUE (mkLocals true false []) line (world_of []) =
    Ok (mkLocals true false ["RMoRobert.CoCoHue_Bri_Lib"]) (world_of []) /\
  sourceLine parse_all "out.groovy" COCOHUE (mkLocals false false []) line (world_of []) =
    Ok (mkLocals false false ["RMoRobert.CoCoHue_Bri_Lib"]) (world_of []).
Proof.
  pose proof (include_inside_block parse_all "out.groovy" COCOHUE
                ("#include RMoRobert.CoCoHue_Bri_Lib" +:+ nl) [] (world_of []) eq_refl)
    as (H1 & H2 & H3 & _).
  exact (conj H1 (conj H2 H3)).
Defined.

(** C1: the scenario of the specification, run on the code.  For target
    COCOHUE, with a source file made of [#IF __DNI_PREFIX__ == "CCH"], the
    [log] line and [#ENDIF], the run writes nothing to the destination: the
    [log] line is dropped although the prefix is "CCH" (and the run raises
    when [ast.parse] rejects the literal). *)
Theorem prefix_scenario_writes_nothing {ast_Module : Type}
    (ast_parse : string -> option ast_Module) :
  let w := world_of [("apps/app.groovy", prefix_source "CCH")] in
  processFile ast_parse "apps/app.groovy" "full/cocohue/app.groovy" COCOHUE true w =
    finish "apps/app.groovy" "full/cocohue/app.groovy"
      ("", match ast_parse (quote +:+ "CCH" +:+ quote) with
           | Some _ => None
           | None => Some SyntaxError
           end) w.
Proof.
  intros w.
  assert (~ In "full/cocohue/app.groovy" library_paths) as Hlib by not_a_library.
  rewrite (processFile_render ast_parse _ _ _ Hlib "apps/app.groovy" w
             (prefix_source "CCH")) by done.
  f_equal. unfold render.
  change (readlines (prefix_source "CCH"))
    with [if_prefix_line "CCH"; log_line; "#ENDIF" +:+ nl].
  cbn [renderLines]. unfold renderSourceLine at 1.
  change (is_include (if_prefix_line "CCH")) with false. cbn [andb].
  unfold renderLibraryLine at 1. change (is_if (if_prefix_line "CCH")) with true.
  cbv iota.
  change (checkConditionFromLine ast_parse (if_prefix_line "CCH") COCOHUE)
    with (match ast_parse (quote +:+ "CCH" +:+ quote) with
          | Some tree => Success (str_eq "CCH" (Ast tree))
          | None => Failure SyntaxError
          end).
  destruct (ast_parse _); reflexivity.
Qed.

(** ** Running [render] on given texts *)

Lemma checkCondition_prefix_CCH {ast_Module : Type}
    (ast_parse : string -> option ast_Module) :
  checkConditionFromLine ast_parse (if_prefix_line "CCH") COCOHUE =
    match ast_parse (quote +:+ "CCH" +:+ quote) with
    | Some tree => Success false
    | None => Failure SyntaxError
    end.
Proof. reflexivity. Qed.

Lemma checkCondition_prefix_XXX {ast_Module : Type}
    (ast_parse : string -> option ast_Module) :
  checkConditionFromLine ast_parse (if_prefix_line "XXX") COCOHUE =
    match ast_parse (quote +:+ "XXX" +:+ quote) with
    | Some tree => Success false
    | None => Failure SyntaxError
    end.
Proof. reflexivity. Qed.

(** C5: a library does not start afresh.  The source file includes two
    libraries; the text of the first ends inside an [#IF] block; the run
    writes the two markers and drops the only line of the second library. *)
Theorem library_starts_in_left_state {ast_Module : Type}
    (ast_parse : string -> option ast_Module) :
  processFile ast_parse "apps/app.groovy" "full/cocohue/app.groovy" COCOHUE true
    two_includes_world =
  finish "apps/app.groovy" "full/cocohue/app.groovy"
    match ast_parse (quote +:+ "CCH" +:+ quote) with
    | Some _ =>
        (marker "RMoRobert.CoCoHue_Bri_Lib" +:+ marker "RMoRobert.CoCoHue_CT_Lib", None)
    | None => (marker "RMoRobert.CoCoHue_Bri_Lib", Some SyntaxError)
    end
    two_includes_world.
Proof.
  assert (~ In "full/cocohue/app.groovy" library_paths) as Hlib by not_a_library.
  rewrite (processFile_render ast_parse _ _ _ Hlib "apps/app.groovy" _
             two_includes_source) by done.
  f_equal. unfold render, two_includes_world, world_of, files.
  repeat render_step. fold_condition "CCH". rewrite !checkCondition_prefix_CCH.
  destruct (ast_parse _); repeat render_step; reflexivity.
Qed.

(** C8: the end of the source file inside an [#IF] block raises nothing, but
    the block stays open.  The source file includes a library and ends inside
    a block: the run ends normally and, of the library, writes the marker
    only.  With [#ENDIF] added at the end of the source file the line of the
    library is written too. *)
Theorem open_block_at_end_of_file {ast_Module : Type}
    (ast_parse : string -> option ast_Module) :
  processFile ast_parse "apps/app.groovy" "full/cocohue/app.groovy" COCOHUE true
    (one_library_world open_block_source) =
  finish "apps/app.groovy" "full/cocohue/app.groovy"
    match ast_parse (quote +:+ "XXX" +:+ quote) with
    | Some _ => (marker "RMoRobert.CoCoHue_Bri_Lib", None)
    | None => ("", Some SyntaxError)
    end
    (one_library_world open_block_source)
  /\
  processFile ast_parse "apps/app.groovy" "full/cocohue/app.groovy" COCOHUE true
    (one_library_world closed_block_source) =
  finish "apps/app.groovy" "full/cocohue/app.groovy"
    match ast_parse (quote +:+ "XXX" +:+ quote) with
    | Some _ => (marker "RMoRobert.CoCoHue_Bri_Lib" +:+ "def bri() {}" +:+ nl, None)
    | None => ("", Some SyntaxError)
    end
    (one_library_world closed_block_source).
Proof.
  assert (~ In "full/cocohue/app.groovy" library_paths) as Hlib by not_a_library.
  split.
  - rewrite (processFile_render ast_parse _ _ _ Hlib "apps/app.groovy" _
               open_block_source) by done.
    f_equal. unfold render, one_library_world, world_of, files.
    repeat render_step. fold_condition "XXX". rewrite !checkCondition_prefix_XXX.
    destruct (ast_parse _); repeat render_step; reflexivity.
  - rewrite (processFile_render ast_parse _ _ _ Hlib "apps/app.groovy" _
               closed_block_source) by done.
    f_equal. unfold render, one_library_world, world_of, files.
    repeat render_step. fold_condition "XXX". rewrite !checkCondition_prefix_XXX.
    destruct (ast_parse _); repeat render_step; reflexivity.
Qed.

(** ** The command line *)

Lemma contains_app_r (sub a b : string) :
  contains sub b = true -> contains sub (a +:+ b) = true.
Proof.
  intros Hb. induction a as [|c a IH]; [done|].
  rewrite app_cons. cbn [contains]. rewrite IH. apply orb_true_r.
Qed.

(** C9: run with no argument, or with an argument that is not the name of a
    target, the program prints one message that lists the names of the
    targets and ends normally: the files are those it started with, and
    [totalProcessed] is zero. *)
Theorem no_target_no_processing {ast_Module : Type}
    (ast_parse : string -> option ast_Module) (argv : list string) (w : World) :
  length argv <= 1 \/ dict_get ALL_TARGET_NAMES (strip (nth 1 argv "")) = None ->
  exists message,
    program ast_parse argv w = Ok tt (mkWorld (files w) (stdout w ++ [message]) 0) /\
    Forall (fun name => contains name message = true) (dict_keys ALL_TARGET_NAMES).
Proof.
  intros Hargv. unfold program, script.
  destruct (1 <? length argv) eqn:Hlen.
  - destruct Hargv as [Hshort|Hunknown].
    { apply Nat.ltb_lt in Hlen. lia. }
    rewrite Hunknown. eexists. split; [reflexivity|].
    repeat constructor. rewrite <- !app_assoc'. by apply contains_app_r.
  - eexists. split; [reflexivity|]. by repeat constructor.
Qed.

Lemma no_target_no_processing_witness :
  (exists message,
     program parse_all ["preprocessor-cocohue.py"] (world_of [("apps/a", "text")]) =
       Ok tt (mkWorld (files (world_of [("apps/a", "text")])) [message] 0) /\
     Forall (fun name => contains name message = true) (dict_keys ALL_TARGET_NAMES)) /\
  (exists message,
     program parse_all ["preprocessor-cocohue.py"; "HUE"] (world_of [("apps/a", "text")]) =
       Ok tt (mkWorld (files (world_of [("apps/a", "text")])) [message] 0) /\
     Forall (fun name => contains name message = true) (dict_keys ALL_TARGET_NAMES)).
Proof.
  split.
  - apply (no_target_no_processing parse_all ["preprocessor-cocohue.py"]
             (world_of [("apps/a", "text")])).
    left. simpl. lia.
  - apply (no_target_no_processing parse_all ["preprocessor-cocohue.py"; "HUE"]
             (world_of [("apps/a", "text")])).
    right. reflexivity.
Defined.

(** ** The two phases of a run *)

Lemma own_text_without_includes (target : string) (skip : bool) (lines : list string) :
  own_text target skip lines =
    own_text target skip (List.filter (fun l => negb (is_include l)) lines).
Proof.
  revert skip. induction lines as [|line rest IH]; intros skip; [done|].
  simpl. destruct (is_include line) eqn:Einc; simpl; [apply IH|].
  rewrite Einc.
  destruct (is_if line); [apply IH|]. destruct (is_endif line); [apply IH|].
  destruct skip; [apply IH|]. by rewrite IH.
Qed.

Lemma recorded_includes_no_if (lines : list string) :
  Forall (fun l => is_if l = false) lines ->
  recorded_includes false lines = map include_name (List.filter is_include lines).
Proof.
  induction 1 as [|line rest Hif _ IH]; [done|].
  simpl. rewrite Hif. destruct (is_include line); simpl; [by rewrite IH|].
  destruct (is_endif line); apply IH.
Qed.

Lemma concat_empty_cons (x : string) (l : list string) :
  String.concat "" (x :: l) = x +:+ String.concat "" l.
Proof. destruct l; [by rewrite app_empty_r|reflexivity]. Qed.

Lemma libraries_text_raw (target : string) (content : string -> string)
    (skip : bool) (libNames : list string) :
  libraries_text target content false skip libNames =
    String.concat "" (map (fun libName => marker libName +:+ content libName) libNames).
Proof.
  induction libNames as [|libName rest IH]; [done|].
  cbn [libraries_text map]. by rewrite IH, concat_empty_cons, app_assoc'.
Qed.

(** The two phases as the loops write them: a run that does not raise writes
    the text of phase one, in which no [#include] line of the source file
    takes part (removing them from the source leaves it unchanged), and then
    the text of phase two: for each name collected from the [#include]
    lines, in their order and with repetitions kept, the marker of the
    library and then what the loop over the library writes of it, from the
    flags that the lines before it have left. *)
Theorem two_phase_emission {ast_Module : Type}
    (ast_parse : string -> option ast_Module)
    (sourceFile destFile target : string) (preprocessLibrary : bool)
    (w : World) (ogFile : string) (content : string -> string) :
  destFile <> sourceFile ->
  ~ In destFile library_paths ->
  files w !! sourceFile = Some ogFile ->
  if_lines_return ast_parse target (readlines ogFile) ->
  constants_resolve target (readlines ogFile) ->
  libraries_available ast_parse target (fun p => files w !! p) content
    preprocessLibrary (recorded_includes false (readlines ogFile)) ->
  processFile ast_parse sourceFile destFile target preprocessLibrary w =
    finish sourceFile destFile
      (own_text target false (readlines ogFile)
       +:+ libraries_text target content preprocessLibrary
             (skip_after false (readlines ogFile))
             (recorded_includes false (readlines ogFile)),
       None) w /\
  own_text target false (readlines ogFile) =
    own_text target false (List.filter (fun l => negb (is_include l)) (readlines ogFile)) /\
  (Forall (fun l => is_if l = false) (readlines ogFile) ->
   recorded_includes false (readlines ogFile) =
     map include_name (List.filter is_include (readlines ogFile))) /\
  (preprocessLibrary = false ->
   forall skip libNames,
     libraries_text target content preprocessLibrary skip libNames =
       String.concat "" (map (fun libName => marker libName +:+ content libName) libNames)).
Proof.
  intros Hne Hlib Hsrc Hif Hsub Hav. split; [|split; [|split]].
  - rewrite (processFile_render ast_parse _ _ _ Hlib _ _ ogFile) by done.
    f_equal. by apply render_two_phases.
  - apply own_text_without_includes.
  - apply recorded_includes_no_if.
  - intros -> skip libNames. apply libraries_text_raw.
Qed.

Lemma if_lines_return_none {ast_Module : Type}
    (ast_parse : string -> option ast_Module) (target : string) (lines : list string) :
  forallb (fun l => negb (is_if l)) lines = true ->
  if_lines_return ast_parse target lines.
Proof.
  intros Hall line Hin Hif. rewrite forallb_forall in Hall.
  specialize (Hall line Hin). by rewrite Hif in Hall.
Qed.

Lemma two_phase_emission_witness :
  recorded_includes false (readlines twice_source) =
    ["RMoRobert.CoCoHue_Bri_Lib"; "RMoRobert.CoCoHue_Bri_Lib"] /\
  processFile parse_all "apps/app.groovy" "full/cocohue/app.groovy" COCOHUE true
    twice_world =
  Ok tt (mkWorld (<["full/cocohue/app.groovy" := twice_output]> (files twice_world))
           ["  PROCESSING: apps/app.groovy -> full/cocohue/app.groovy"] 0).
Proof.
  split; [reflexivity|].
  assert (~ In "full/cocohue/app.groovy" library_paths) as Hlib by not_a_library.
  pose proof (two_phase_emission parse_all "apps/app.groovy" "full/cocohue/app.groovy"
                COCOHUE true twice_world twice_source
                (fun _ => "def bri() {}" +:+ nl)) as Hrun.
  destruct Hrun as [Hrun _].
  - discriminate.
  - exact Hlib.
  - reflexivity.
  - by apply if_lines_return_none.
  - apply constants_resolve_COCOHUE.
  - intros libName Hin. exists "cocohue-library-bri.groovy".
    assert (libName = "RMoRobert.CoCoHue_Bri_Lib") as ->.
    { vm_compute in Hin. by destruct Hin as [<-|[<-|[]]]. }
    split; [reflexivity|]. split; [reflexivity|]. intros _. split.
    + by apply if_lines_return_none.
    + apply constants_resolve_COCOHUE.
  - rewrite Hrun. reflexivity.
Defined.

(** C4: a library that is included twice is not appended twice.  The source
    file has an [#include] line, a line of its own and the same [#include]
    line again; the text of the library is one line followed by an [#IF]
    block whose condition is false and which the end of the file leaves
    open.  The run ends normally and writes the line of the source file, the
    marker and the line of the library, and the marker again: of the second
    copy the marker alone is written.  With [#ENDIF] added at the end of the
    library the same run writes the marker and the line of the library twice,
    in the order of the [#include] lines and after the line of the source
    file. *)
Theorem repeated_include_loses_second_copy {ast_Module : Type}
    (ast_parse : string -> option ast_Module) :
  let own := "def installed() {}" +:+ nl in
  let copy := marker "RMoRobert.CoCoHue_Bri_Lib" +:+ "def bri() {}" +:+ nl in
  recorded_includes false (readlines repeated_source) =
    ["RMoRobert.CoCoHue_Bri_Lib"; "RMoRobert.CoCoHue_Bri_Lib"] /\
  processFile ast_parse "apps/app.groovy" "full/cocohue/app.groovy" COCOHUE true
    (library_world repeated_source open_tail_library) =
  finish "apps/app.groovy" "full/cocohue/app.groovy"
    match ast_parse (quote +:+ "XXX" +:+ quote) with
    | Some _ => (own +:+ copy +:+ marker "RMoRobert.CoCoHue_Bri_Lib", None)
    | None => (own +:+ copy, Some SyntaxError)
    end
    (library_world repeated_source open_tail_library)
  /\
  processFile ast_parse "apps/app.groovy" "full/cocohue/app.groovy" COCOHUE true
    (library_world repeated_source closed_tail_library) =
  finish "apps/app.groovy" "full/cocohue/app.groovy"
    match ast_parse (quote +:+ "XXX" +:+ quote) with
    | Some _ => (own +:+ copy +:+ copy, None)
    | None => (own +:+ copy, Some SyntaxError)
    end
    (library_world repeated_source closed_tail_library).
Proof.
  intros own copy.
  assert (~ In "full/cocohue/app.groovy" library_paths) as Hlib by not_a_library.
  split; [reflexivity|]. split.
  - rewrite (processFile_render ast_parse _ _ _ Hlib "apps/app.groovy" _
               repeated_source) by done.
    f_equal. vm_compute. destruct (ast_parse _); reflexivity.
  - rewrite (processFile_render ast_parse _ _ _ Hlib "apps/app.groovy" _
               repeated_source) by done.
    f_equal. vm_compute. destruct (ast_parse _); reflexivity.
Qed.

(** ** The destination is replaced *)

Section Replaced.

Context {ast_Module : Type} (ast_parse : string -> option ast_Module).
Variable target : string.
Variable preprocessLibrary : bool.
Variables lib_text lib_text' : string -> option string.
Hypothesis same_libraries : forall p, In p library_paths -> lib_text p = lib_text' p.

Lemma renderLibrary_ext st libName :
  renderLibrary ast_parse target lib_text preprocessLibrary st libName =
  renderLibrary ast_parse target lib_text' preprocessLibrary st libName.
Proof using same_libraries.
  unfold renderLibrary, subscript.
  destruct (dict_get libraries libName) as [libFileName|] eqn:Hreg; [|done].
  by rewrite (same_libraries _ (library_path_registered _ _ Hreg)).
Qed.

Lemma renderLibraries_ext st libNames :
  renderLibraries ast_parse target lib_text preprocessLibrary st libNames =
  renderLibraries ast_parse target lib_text' preprocessLibrary st libNames.
Proof using same_libraries.
  revert st. induction libNames as [|libName rest IH]; intros st; [done|].
  simpl. rewrite renderLibrary_ext.
  destruct (renderLibrary _ _ _ _ _ _) as [text [st'|e]]; [|done]. by rewrite IH.
Qed.

Lemma render_ext ogFile :
  render ast_parse target lib_text preprocessLibrary ogFile =
  render ast_parse target lib_text' preprocessLibrary ogFile.
Proof using same_libraries.
  unfold render. destruct (renderLines _ _ _) as [own [st|e]]; [|done].
  by rewrite renderLibraries_ext.
Qed.

End Replaced.

Lemma processFile_from {ast_Module : Type} (ast_parse : string -> option ast_Module)
    (sourceFile destFile target : string) (preprocessLibrary : bool)
    (w start : World) :
  destFile <> sourceFile ->
  ~ In destFile library_paths ->
  (files start = files w \/ exists old, files start = <[destFile := old]> (files w)) ->
  processFile ast_parse sourceFile destFile target preprocessLibrary start =
    finish sourceFile destFile
      (rendered ast_parse target preprocessLibrary (files w) sourceFile) start /\
  <[destFile := fst (rendered ast_parse target preprocessLibrary (files w) sourceFile)]>
    (files start) =
  <[destFile := fst (rendered ast_parse target preprocessLibrary (files w) sourceFile)]>
    (files w).
Proof.
  intros Hne Hlib Hstart.
  assert (forall p, p <> destFile -> files start !! p = files w !! p) as Hsame.
  { intros p Hp. destruct Hstart as [->|[old ->]]; [done|]. by apply lookup_insert_ne. }
  split.
  - unfold rendered. destruct (files w !! sourceFile) as [ogFile|] eqn:Hsrc.
    + rewrite (processFile_render ast_parse _ _ _ Hlib _ _ ogFile); [|done|].
      * f_equal. apply render_ext. intros p Hp. apply Hsame. by intros ->.
      * rewrite Hsame by done. done.
    + apply processFile_missing; [done|]. rewrite Hsame by done. done.
  - destruct Hstart as [->|[old ->]]; [done|]. by rewrite insert_insert_eq.
Qed.

(** C6: the text of the destination after a run is a function, [rendered],
    of the text of the source file, the target, the tables and the library
    files: the run ends the same way and leaves the same files whether the
    destination did not exist or held any text before, and a second run of
    the same pair leaves the files of the first. *)
Theorem destination_fully_replaced {ast_Module : Type}
    (ast_parse : string -> option ast_Module)
    (sourceFile destFile target : string) (preprocessLibrary : bool)
    (w start : World) :
  destFile <> sourceFile ->
  ~ In destFile library_paths ->
  (files start = files w \/ exists old, files start = <[destFile := old]> (files w)) ->
  let written := rendered ast_parse target preprocessLibrary (files w) sourceFile in
  let first := processFile ast_parse sourceFile destFile target preprocessLibrary start in
  let second :=
    processFile ast_parse sourceFile destFile target preprocessLibrary (world_after first) in
  files_of first = <[destFile := fst written]> (files w) /\
  raised first = snd written /\
  files_of second = files_of first /\
  raised second = raised first.
Proof.
  intros Hne Hlib Hstart written first second.
  destruct (processFile_from ast_parse sourceFile destFile target preprocessLibrary
              w start Hne Hlib Hstart) as [Hfirst Hfiles].
  fold written in Hfirst, Hfiles.
  assert (files_of first = <[destFile := fst written]> (files w)) as Hf1.
  { subst first. rewrite Hfirst. unfold finish. rewrite <- Hfiles.
    by destruct (snd written). }
  assert (raised first = snd written) as Hr1.
  { subst first. rewrite Hfirst. unfold finish. by destruct (snd written). }
  assert (files (world_after first) = files_of first) as Hw1.
  { by destruct first. }
  destruct (processFile_from ast_parse sourceFile destFile target preprocessLibrary
              w (world_after first) Hne Hlib) as [Hsecond Hfiles2].
  { right. exists (fst written). by rewrite Hw1. }
  fold written in Hsecond, Hfiles2.
  split; [done|]. split; [done|]. split.
  - subst second. rewrite Hsecond, Hf1. unfold finish. rewrite Hfiles2.
    by destruct (snd written).
  - subst second. rewrite Hsecond, Hr1. unfold finish. by destruct (snd written).
Qed.

Lemma destination_fully_replaced_witness :
  let dest := "full/cocohue/app.groovy" in
  let run := processFile parse_all "apps/app.groovy" dest COCOHUE true in
  files_of (run twice_world) = <[dest := twice_output]> (files twice_world) /\
  files_of (run (with_file dest "other text" twice_world)) =
    <[dest := twice_output]> (files twice_world) /\
  files_of (run (world_after (run twice_world))) = files_of (run twice_world).
Proof.
  intros dest run.
  assert (~ In dest library_paths) as Hlib by not_a_library.
  assert (dest <> "apps/app.groovy") as Hne by discriminate.
  destruct (destination_fully_replaced parse_all "apps/app.groovy" dest COCOHUE true
              twice_world twice_world Hne Hlib (or_introl eq_refl))
    as (H1 & _ & H2 & _).
  destruct (destination_fully_replaced parse_all "apps/app.groovy" dest COCOHUE true
              twice_world (with_file dest "other text" twice_world)
              Hne Hlib (or_intror (ex_intro _ "other text" eq_refl)))
    as (H3 & _).
  split; [exact H1|]. split; [exact H3|]. exact H2.
Defined.

(** ** Failures *)

Lemma for_each_raises {A S} (body : S -> A -> M S) (x : A) (l : list A) :
  (forall st w, aborts (body st x w)) ->
  In x l -> forall st w, aborts (for_each body st l w).
Proof.
  intros Hx. induction l as [|y l IH]; intros Hin st w; [done|].
  simpl. unfold bind. destruct Hin as [->|Hin].
  - specialize (Hx st w). destruct (body st x w); [|done].
    unfold aborts in Hx; simpl in Hx. by destruct Hx.
  - destruct (body st y w); [by apply IH|]. unfold aborts; simpl. by eexists.
Qed.

Lemma for_each_raise_at {A S} (body : S -> A -> M S) (st : S) (pre : list A)
    (x : A) (post : list A) (w : World) st1 w1 e w2 :
  for_each body st pre w = Ok st1 w1 ->
  body st1 x w1 = Raise e w2 ->
  for_each body st (pre ++ x :: post) w = Raise e w2.
Proof.
  intros Hpre Hx. rewrite for_each_app, Hpre. simpl. unfold bind. by rewrite Hx.
Qed.

Lemma dict_get_key {V} (d : dict V) (k : string) :
  In k (dict_keys d) -> is_Some (dict_get d k).
Proof.
  induction d as [|[k' v] d IH]; simpl; [done|].
  intros [->|Hin].
  - rewrite String.eqb_refl. by eexists.
  - destruct (String.eqb k k'); [by eexists|by apply IH].
Qed.

Lemma replaceConstants_failure (target : string) (keys : list string) (line : string) :
  (forall const, In const keys -> In const CONSTANT_KEYS) ->
  (exists key, replaceConstants keys line target = Failure (KeyError key)) <->
  (exists const, In const keys /\ value_of target const = None).
Proof.
  revert line. induction keys as [|const keys IH]; intros line Hkeys.
  { split; [by intros [? ?]|by intros (? & [] & _)]. }
  cbn [replaceConstants]. unfold subscript.
  destruct (dict_get_key CONSTANTS const) as [values Hvalues].
  { apply Hkeys. by left. }
  rewrite Hvalues.
  destruct (dict_get values target) as [newVal|] eqn:Hval.
  - rewrite IH by (intros c Hc; apply Hkeys; by right).
    split.
    + intros (c & Hc & Hnone). exists c. split; [by right|done].
    + intros (c & [<-|Hc] & Hnone).
      * unfold value_of in Hnone. rewrite Hvalues, Hval in Hnone. done.
      * by exists c.
  - split; [|by eexists]. intros _. exists const. split; [by left|].
    unfold value_of. by rewrite Hvalues.
Qed.

Lemma processConstants_failure (line target : string) :
  (exists key, processConstants line target = Failure (KeyError key)) <->
  holds_constant line = true /\ target_lacks_value target.
Proof.
  unfold processConstants, holds_constant, target_lacks_value.
  destruct (existsb _ _).
  - rewrite replaceConstants_failure by done. split; [by intros H|by intros [_ H]].
  - split; [by intros [? ?]|by intros [? _]].
Qed.

Lemma checkCondition_failure {ast_Module : Type}
    (ast_parse : string -> option ast_Module) (line target : string) :
  (exists key, checkConditionFromLine ast_parse line target = Failure (KeyError key)) <->
  lhs_without_value target line.
Proof.
  unfold checkConditionFromLine, lhs_without_value, value_of, subscript.
  fold (condition_of line).
  destruct (split (condition_of line) "==") as [|lhs [|rhs [|? ?]]].
  1,2,4: split; [by intros [? ?]|by intros (? & ? & ? & _)].
  destruct (dict_get CONSTANTS (strip lhs)) as [values|] eqn:Hvalues.
  - destruct (dict_get values target) as [value|] eqn:Hvalue.
    + split.
      * intros [key Hkey]. by destruct (ast_parse _).
      * intros (? & ? & [= <- <-] & Hnone). by rewrite Hvalues, Hvalue in Hnone.
    + split; [|by eexists]. intros _. exists lhs, rhs. by rewrite Hvalues.
  - split; [|by eexists]. intros _. exists lhs, rhs. by rewrite Hvalues.
Qed.

Section Failures.

Context {ast_Module : Type} (ast_parse : string -> option ast_Module).
Variables destFile target : string.

Lemma sourceLine_Ok_flags skip libNames line w st' w' :
  sourceLine ast_parse destFile target (flags skip libNames) line w = Ok st' w' ->
  st' = flags (skip_after skip [line]) (libNames ++ recorded_includes skip [line]).
Proof.
  unfold sourceLine. fold (is_include line) (is_if line) (is_endif line). simpl.
  destruct (is_include line) eqn:Einc.
  { rewrite (is_include_not_if _ Einc), (is_include_not_endif _ Einc).
    destruct skip; simpl; intros [= <- _]; [by rewrite app_nil_r|done]. }
  simpl. destruct (is_if line).
  { unfold bind, lift. destruct (checkConditionFromLine _ _ _) as [c|] eqn:Hc; [|done].
    simpl. rewrite (checkCondition_not_true _ _ _ _ Hc). intros [= <- _].
    by rewrite app_nil_r. }
  destruct (is_endif line).
  { intros [= <- _]. by rewrite app_nil_r. }
  rewrite andb_diag. destruct skip; simpl.
  - intros [= <- _]. by rewrite app_nil_r.
  - unfold bind, lift. destruct (processConstants _ _); [|done].
    simpl. intros [= <- _]. by rewrite app_nil_r.
Qed.

Lemma for_each_source_Ok lines skip libNames w st' w' :
  for_each (sourceLine ast_parse destFile target) (flags skip libNames) lines w = Ok st' w' ->
  st' = flags (skip_after skip lines) (libNames ++ recorded_includes skip lines).
Proof.
  revert skip libNames w. induction lines as [|line rest IH]; intros skip libNames w.
  { simpl. intros [= <- _]. by rewrite app_nil_r. }
  cbn [for_each]. unfold bind.
  destruct (sourceLine _ _ _ _ _ _) as [st1 w1|] eqn:Hline; [|done].
  apply sourceLine_Ok_flags in Hline as ->. intros ->%IH.
  by rewrite skip_after_cons, <- app_assoc, recorded_includes_cons.
Qed.

Lemma sourceLine_if_failure st line w :
  is_if line = true -> lhs_without_value target line ->
  exists key, sourceLine ast_parse destFile target st line w = Raise (KeyError key) w.
Proof.
  intros Hif Hlhs.
  destruct (proj2 (checkCondition_failure ast_parse line target) Hlhs) as [key Hkey].
  exists key.
  unfold sourceLine. fold (is_include line) (is_if line).
  rewrite (is_if_not_include _ Hif), Hif. simpl.
  unfold bind, lift. by rewrite Hkey.
Qed.

Lemma libraryLine_if_failure st line w :
  is_if line = true -> lhs_without_value target line ->
  exists key, libraryLine ast_parse destFile target st line w = Raise (KeyError key) w.
Proof.
  intros Hif Hlhs.
  destruct (proj2 (checkCondition_failure ast_parse line target) Hlhs) as [key Hkey].
  exists key.
  unfold libraryLine. fold (is_if line). rewrite Hif.
  unfold bind, lift. by rewrite Hkey.
Qed.

Lemma sourceLine_text_failure libNames line w :
  is_text line = true -> holds_constant line = true -> target_lacks_value target ->
  exists key,
    sourceLine ast_parse destFile target (flags false libNames) line w =
      Raise (KeyError key) w.
Proof.
  intros Htext Hholds Hlacks.
  destruct (proj2 (processConstants_failure line target)) as [key Hkey]; [done|].
  exists key. unfold is_text in Htext.
  apply andb_true_iff in Htext as [[Hinc Hif]%andb_true_iff Hend].
  apply negb_true_iff in Hinc, Hif, Hend.
  unfold sourceLine. fold (is_include line) (is_if line) (is_endif line).
  rewrite Hinc, Hif, Hend. simpl. unfold bind, lift. by rewrite Hkey.
Qed.

Lemma includeLibrary_unregistered preprocessLibrary st libName w :
  dict_get libraries libName = None ->
  includeLibrary ast_parse destFile target preprocessLibrary st libName w =
    Raise (KeyError libName) w.
Proof.
  intros Hreg. unfold includeLibrary, subscript, bind, lift. by rewrite Hreg.
Qed.

End Failures.

Lemma aborts_bind {A B} (m : M A) (k : A -> M B) (w : World) :
  aborts (m w) -> aborts (bind m k w).
Proof.
  unfold bind, aborts. destruct (m w); simpl; [by intros []|by eexists].
Qed.

Lemma aborts_Raise {A} (e : exn) (w : World) : aborts (@Raise A e w).
Proof. unfold aborts; simpl. by eexists. Qed.

Lemma COCOHUE_lacks_no_value : ~ target_lacks_value COCOHUE.
Proof.
  intros (const & Hin & Hnone).
  pose proof COCOHUE_has_values as Hall. rewrite List.Forall_forall in Hall.
  destruct (Hall const Hin) as [v Hv]. congruence.
Qed.

(** ** Failures inside the libraries *)

Lemma aborts_finish (sourceFile destFile text : string) (e : exn) (w : World) :
  aborts (finish sourceFile destFile (text, Some e) w).
Proof. unfold finish, aborts; simpl. by eexists. Qed.

Lemma renderLines_app_snd (step : locals -> string -> result (locals * string))
    (st : locals) (pre rest : list string) :
  snd (renderLines step st (pre ++ rest)) =
    match snd (renderLines step st pre) with
    | Success st1 => snd (renderLines step st1 rest)
    | Failure e => Failure e
    end.
Proof.
  revert st. induction pre as [|line pre IH]; intros st; [done|].
  cbn [app renderLines]. destruct (step st line) as [[st' text]|e]; [|done].
  specialize (IH st').
  destruct (renderLines step st' (pre ++ rest)) as [t r].
  destruct (renderLines step st' pre) as [t1 r1]. exact IH.
Qed.

Section LibraryFailures.

Context {ast_Module : Type} (ast_parse : string -> option ast_Module).
Variable target : string.
Variable fs : gmap string string.

Lemma renderLibraryLine_Ok skip libNames line st' text :
  renderLibraryLine ast_parse target (flags skip libNames) line = Success (st', text) ->
  st' = flags (skip_after skip [line]) libNames.
Proof.
  unfold renderLibraryLine, flags. cbn [inIf skipLines libNamesToInclude skip_after].
  destruct (is_if line).
  { destruct (checkConditionFromLine _ _ _) as [c|] eqn:Hc; [|done].
    rewrite (checkCondition_not_true _ _ _ _ Hc). by intros [= <- _]. }
  destruct (is_endif line); [by intros [= <- _]|].
  rewrite andb_diag. destruct skip; cbn [negb].
  - by intros [= <- _].
  - destruct (processConstants _ _); [|done]. by intros [= <- _].
Qed.

Lemma renderSourceLine_Ok skip libNames line st' text :
  renderSourceLine ast_parse target (flags skip libNames) line = Success (st', text) ->
  st' = flags (skip_after skip [line]) (libNames ++ recorded_includes skip [line]).
Proof.
  unfold renderSourceLine. cbn [flags skipLines inIf libNamesToInclude].
  destruct (is_include line) eqn:Einc.
  - cbn [recorded_includes skip_after]. rewrite Einc.
    rewrite (is_include_not_if _ Einc), (is_include_not_endif _ Einc).
    destruct skip; cbn [negb andb].
    + intros Hline. apply (renderLibraryLine_Ok true) in Hline as ->.
      cbn [skip_after]. rewrite (is_include_not_if _ Einc), (is_include_not_endif _ Einc).
      by rewrite app_nil_r.
    + by intros [= <- _].
  - cbn [andb]. intros Hline. apply renderLibraryLine_Ok in Hline as ->.
    cbn [recorded_includes]. rewrite Einc.
    destruct (is_if line); [by rewrite app_nil_r|].
    destruct (is_endif line); by rewrite app_nil_r.
Qed.

Lemma renderLines_library_Ok lines skip libNames st' :
  snd (renderLines (renderLibraryLine ast_parse target) (flags skip libNames) lines)
    = Success st' ->
  st' = flags (skip_after skip lines) libNames.
Proof.
  revert skip. induction lines as [|line rest IH]; intros skip.
  { cbn. by intros [= <-]. }
  cbn [renderLines].
  destruct (renderLibraryLine _ _ _ line) as [[st1 text]|e] eqn:Hline; [|done].
  apply renderLibraryLine_Ok in Hline as ->.
  destruct (renderLines _ _ rest) as [t r] eqn:Hrest. cbn [snd]. intros ->.
  rewrite <- skip_after_cons. apply IH. by rewrite Hrest.
Qed.

Lemma renderLines_source_Ok lines skip libNames st' :
  snd (renderLines (renderSourceLine ast_parse target) (flags skip libNames) lines)
    = Success st' ->
  st' = flags (skip_after skip lines) (libNames ++ recorded_includes skip lines).
Proof.
  revert skip libNames. induction lines as [|line rest IH]; intros skip libNames.
  { cbn. intros [= <-]. by rewrite app_nil_r. }
  cbn [renderLines].
  destruct (renderSourceLine _ _ _ line) as [[st1 text]|e] eqn:Hline; [|done].
  apply renderSourceLine_Ok in Hline as ->.
  destruct (renderLines _ _ rest) as [t r] eqn:Hrest. cbn [snd]. intros ->.
  rewrite <- skip_after_cons, <- recorded_includes_cons, app_assoc.
  apply IH. by rewrite Hrest.
Qed.

Lemma renderLibrary_Ok skip libNames libName st' :
  snd (renderLibrary ast_parse target (fun p => fs !! p) true (flags skip libNames) libName)
    = Success st' ->
  st' = flags (skip_after skip (library_lines fs libName)) libNames.
Proof.
  unfold renderLibrary, library_lines, subscript.
  destruct (dict_get libraries libName) as [f|]; [|done].
  cbv beta iota zeta. destruct (fs !! path_join LIB_DIR f) as [libFile|]; [|done].
  cbn [negb]. destruct (renderLines _ _ _) as [t r] eqn:Hlines. cbn [snd]. intros ->.
  apply renderLines_library_Ok. by rewrite Hlines.
Qed.

Lemma renderLibraries_app_snd (lib_text : string -> option string) (b : bool)
    (st : locals) (known rest : list string) :
  snd (renderLibraries ast_parse target lib_text b st (known ++ rest)) =
    match snd (renderLibraries ast_parse target lib_text b st known) with
    | Success st1 => snd (renderLibraries ast_parse target lib_text b st1 rest)
    | Failure e => Failure e
    end.
Proof.
  revert st. induction known as [|n known IH]; intros st; [done|].
  cbn [app renderLibraries].
  destruct (renderLibrary _ _ _ _ st n) as [text [st'|e]]; [|done].
  specialize (IH st').
  destruct (renderLibraries _ _ _ _ st' (known ++ rest)) as [t r].
  destruct (renderLibraries _ _ _ _ st' known) as [t1 r1]. exact IH.
Qed.

Lemma renderLibraries_Ok names skip libNames st' :
  snd (renderLibraries ast_parse target (fun p => fs !! p) true (flags skip libNames) names)
    = Success st' ->
  st' = flags (skip_after skip (concat (map (library_lines fs) names))) libNames.
Proof.
  revert skip. induction names as [|n names IH]; intros skip.
  { cbn. by intros [= <-]. }
  cbn [renderLibraries map concat].
  destruct (renderLibrary _ _ _ _ _ n) as [text [st1|e]] eqn:Hn; [|done].
  assert (st1 = flags (skip_after skip (library_lines fs n)) libNames) as ->.
  { apply renderLibrary_Ok. by rewrite Hn. }
  destruct (renderLibraries _ _ _ _ _ names) as [t r] eqn:Hrest. cbn [snd]. intros ->.
  rewrite skip_after_app. apply IH. by rewrite Hrest.
Qed.

Lemma renderLines_if_fails lines line st :
  In line lines -> is_if line = true -> lhs_without_value target line ->
  exists e, snd (renderLines (renderLibraryLine ast_parse target) st lines) = Failure e.
Proof.
  intros Hin Hif Hlhs. revert st. induction lines as [|l rest IH]; intros st; [done|].
  cbn [renderLines].
  destruct (renderLibraryLine _ _ st l) as [[st' text]|e] eqn:Hstep; [|by eexists].
  destruct Hin as [->|Hin].
  - unfold renderLibraryLine in Hstep. rewrite Hif in Hstep.
    destruct (proj2 (checkCondition_failure ast_parse line target) Hlhs) as [key Hkey].
    by rewrite Hkey in Hstep.
  - destruct (IH Hin st') as [e He].
    destruct (renderLines _ st' rest) as [t r]. by exists e.
Qed.

Lemma renderLines_text_fails pre line post skip libNames :
  skip_after skip pre = false -> is_if line = false -> is_endif line = false ->
  holds_constant line = true -> target_lacks_value target ->
  exists e, snd (renderLines (renderLibraryLine ast_parse target) (flags skip libNames)
                   (pre ++ line :: post)) = Failure e.
Proof.
  intros Hskip Hif Hend Hholds Hlacks. rewrite renderLines_app_snd.
  destruct (snd (renderLines _ _ pre)) as [st1|e] eqn:Hpre; [|by eexists].
  apply renderLines_library_Ok in Hpre as ->. rewrite Hskip.
  destruct (proj2 (processConstants_failure line target)) as [key Hkey]; [done|].
  cbn [renderLines]. unfold renderLibraryLine at 1. rewrite Hif, Hend.
  cbn [flags inIf skipLines andb negb]. rewrite Hkey. by eexists.
Qed.

Lemma renderLibrary_fails st libName :
  (exists e, snd (renderLines (renderLibraryLine ast_parse target) st
                    (library_lines fs libName)) = Failure e) ->
  exists e, snd (renderLibrary ast_parse target (fun p => fs !! p) true st libName)
            = Failure e.
Proof.
  unfold renderLibrary, library_lines, subscript.
  destruct (dict_get libraries libName) as [f|]; [|intros _; by eexists].
  cbv beta iota zeta.
  destruct (fs !! path_join LIB_DIR f) as [libFile|]; [|intros _; by eexists].
  cbn [negb]. intros [e He]. destruct (renderLines _ _ _) as [t r]. by exists e.
Qed.

Lemma renderLibraries_fails_at known libName later st :
  (forall st1,
     snd (renderLibraries ast_parse target (fun p => fs !! p) true st known) = Success st1 ->
     exists e, snd (renderLibrary ast_parse target (fun p => fs !! p) true st1 libName)
               = Failure e) ->
  exists e, snd (renderLibraries ast_parse target (fun p => fs !! p) true st
                   (known ++ libName :: later)) = Failure e.
Proof.
  intros Hat. rewrite renderLibraries_app_snd.
  destruct (snd (renderLibraries _ _ _ _ _ known)) as [st1|e] eqn:Hknown; [|by eexists].
  destruct (Hat st1 eq_refl) as [e He]. cbn [renderLibraries].
  destruct (renderLibrary _ _ _ _ st1 libName) as [text [st2|e']]; [done|].
  by eexists.
Qed.

Lemma render_libraries_fail ogFile :
  (exists e,
     snd (renderLibraries ast_parse target (fun p => fs !! p) true
            (flags (skip_after false (readlines ogFile))
               (recorded_includes false (readlines ogFile)))
            (recorded_includes false (readlines ogFile))) = Failure e) ->
  exists e, snd (render ast_parse target (fun p => fs !! p) true ogFile) = Some e.
Proof.
  intros [e He]. unfold render. change (mkLocals false false []) with (flags false []).
  destruct (renderLines _ _ _) as [own [st|e']] eqn:Hown; [|by eexists].
  assert (st = flags (skip_after false (readlines ogFile))
                 ([] ++ recorded_includes false (readlines ogFile))) as ->.
  { apply renderLines_source_Ok. by rewrite Hown. }
  cbn [app] in *. change (libNamesToInclude (flags ?a ?b)) with b.
  destruct (renderLibraries _ _ _ _ _ _) as [libs [st'|e']]; [done|by eexists].
Qed.

End LibraryFailures.

Lemma libraryLine_text_failure {ast_Module : Type} (ast_parse : string -> option ast_Module)
    (destFile target : string) (libNames : list string) (line : string) (w : World) :
  is_if line = false -> is_endif line = false ->
  holds_constant line = true -> target_lacks_value target ->
  exists key,
    libraryLine ast_parse destFile target (flags false libNames) line w =
      Raise (KeyError key) w.
Proof.
  intros Hif Hend Hholds Hlacks.
  destruct (proj2 (processConstants_failure line target)) as [key Hkey]; [done|].
  exists key. unfold libraryLine. fold (is_if line) (is_endif line).
  rewrite Hif, Hend. simpl. unfold bind, lift. by rewrite Hkey.
Qed.

Lemma includeLibrary_raw {ast_Module : Type} (ast_parse : string -> option ast_Module)
    (destFile target : string) (st : locals) (libName libFileName libFile : string)
    (w : World) :
  dict_get libraries libName = Some libFileName ->
  files w !! path_join LIB_DIR libFileName = Some libFile ->
  raised (includeLibrary ast_parse destFile target false st libName w) = None.
Proof.
  intros Hreg Hfile. unfold includeLibrary, subscript. rewrite Hreg.
  unfold bind, lift, ret, open_read, write. rewrite Hfile. reflexivity.
Qed.

(** C7, as amended: a run of [processFile] aborts whenever (a) an [#IF]
    line of the source file, or of a collected library when the libraries
    are preprocessed, has a left-hand side to which the table gives no value
    for the target, (b) a line that is written, of the source file or of a
    preprocessed library, holds a constant while some constant has no value
    for the target, or (c) a collected library name is not registered.  The
    line or library where the [KeyError] is raised leaves the world as it
    was, a loop stops at the file on which [processFile] raises, and [main]
    ends there.  [checkConditionFromLine] and [processConstants] raise a
    [KeyError] in these cases only, and a library that is copied without
    preprocessing raises nothing, whatever its lines. *)
Theorem lookup_failures_abort {ast_Module : Type}
    (ast_parse : string -> option ast_Module)
    (sourceFile destFile target : string) (preprocessLibrary : bool)
    (w : World) (ogFile : string) :
  destFile <> sourceFile ->
  files w !! sourceFile = Some ogFile ->
  let run := processFile ast_parse sourceFile destFile target preprocessLibrary w in
  (forall line, In line (readlines ogFile) -> is_if line = true ->
     lhs_without_value target line -> aborts run) /\
  (forall pre line post, readlines ogFile = pre ++ line :: post ->
     skip_after false pre = false -> is_text line = true ->
     holds_constant line = true -> target_lacks_value target -> aborts run) /\
  (forall libName, In libName (recorded_includes false (readlines ogFile)) ->
     dict_get libraries libName = None -> aborts run) /\
  (forall st line w1, is_if line = true -> lhs_without_value target line ->
     (exists key, sourceLine ast_parse destFile target st line w1 = Raise (KeyError key) w1) /\
     (exists key, libraryLine ast_parse destFile target st line w1 = Raise (KeyError key) w1)) /\
  (forall libNames line w1, is_text line = true -> holds_constant line = true ->
     target_lacks_value target ->
     exists key, sourceLine ast_parse destFile target (flags false libNames) line w1
                 = Raise (KeyError key) w1) /\
  (forall st libName w1, dict_get libraries libName = None ->
     includeLibrary ast_parse destFile target preprocessLibrary st libName w1
     = Raise (KeyError libName) w1) /\
  (forall line,
     (exists key, checkConditionFromLine ast_parse line target = Failure (KeyError key))
     <-> lhs_without_value target line) /\
  (forall line,
     (exists key, processConstants line target = Failure (KeyError key))
     <-> holds_constant line = true /\ target_lacks_value target) /\
  (forall dir pre fileName post w0 w1 e w2,
     processEach ast_parse dir target pre w0 = Ok tt w1 ->
     processFile ast_parse (path_join dir fileName) (path_join OUTPUT_DIR fileName)
       target true w1 = Raise e w2 ->
     processEach ast_parse dir target (pre ++ fileName :: post) w0 = Raise e w2) /\
  (forall w0 e w2,
     processApps ast_parse target (world_after (print (banner target) w0)) = Raise e w2 ->
     main ast_parse target w0 = Raise e w2) /\
  (forall w0 w1 e w2,
     processApps ast_parse target (world_after (print (banner target) w0)) = Ok tt w1 ->
     processDrivers ast_parse target w1 = Raise e w2 ->
     main ast_parse target w0 = Raise e w2) /\
  (forall libName line,
     ~ In destFile library_paths -> preprocessLibrary = true ->
     In libName (recorded_includes false (readlines ogFile)) ->
     In line (library_lines (files w) libName) -> is_if line = true ->
     lhs_without_value target line -> aborts run) /\
  (forall known libName later pre line post,
     ~ In destFile library_paths -> preprocessLibrary = true ->
     recorded_includes false (readlines ogFile) = known ++ libName :: later ->
     library_lines (files w) libName = pre ++ line :: post ->
     skip_after false
       (readlines ogFile ++ concat (map (library_lines (files w)) known) ++ pre) = false ->
     is_if line = false -> is_endif line = false ->
     holds_constant line = true -> target_lacks_value target -> aborts run) /\
  (forall libNames line w1,
     is_if line = false -> is_endif line = false ->
     holds_constant line = true -> target_lacks_value target ->
     exists key, libraryLine ast_parse destFile target (flags false libNames) line w1
                 = Raise (KeyError key) w1) /\
  (forall st libName libFileName libFile w1,
     dict_get libraries libName = Some libFileName ->
     files w1 !! path_join LIB_DIR libFileName = Some libFile ->
     raised (includeLibrary ast_parse destFile target false st libName w1) = None).
Proof.
  intros Hne Hsrc run.
  assert (run =
          (st <- for_each (sourceLine ast_parse destFile target) (flags false [])
                   (readlines ogFile) ;;
           for_each (includeLibrary ast_parse destFile target preprocessLibrary) st
             (libNamesToInclude st) ;;
           ret tt)
            (mkWorld (<[destFile := ""]> (files w))
               (stdout w ++ ["  PROCESSING: " +:+ sourceFile +:+ " -> " +:+ destFile])
               (totalProcessed w))) as Hrun.
  { subst run. rewrite processFile_start. unfold bind at 1, open_read. simpl.
    by rewrite lookup_insert_ne, Hsrc. }
  split.
  { intros line Hin Hif Hlhs. rewrite Hrun. apply aborts_bind.
    apply (for_each_raises _ line); [|done].
    intros st w1. destruct (sourceLine_if_failure ast_parse destFile target st line w1)
      as [key ->]; [done..|]. apply aborts_Raise. }
  split.
  { intros pre line post Hlines Hskip Htext Hholds Hlacks.
    rewrite Hrun, Hlines. apply aborts_bind. rewrite for_each_app.
    destruct (for_each _ _ pre _) as [st1 w1|] eqn:Hpre; [|apply aborts_Raise].
    apply for_each_source_Ok in Hpre as ->. rewrite Hskip.
    cbn [for_each]. apply aborts_bind.
    destruct (sourceLine_text_failure ast_parse destFile target
                ([] ++ recorded_includes false pre) line w1) as [key ->]; [done..|].
    apply aborts_Raise. }
  split.
  { intros libName Hin Hreg. rewrite Hrun. unfold bind at 1.
    destruct (for_each _ _ (readlines ogFile) _) as [st1 w1|] eqn:Hown;
      [|apply aborts_Raise].
    apply for_each_source_Ok in Hown as ->. apply aborts_bind.
    apply (for_each_raises _ libName); [|done].
    intros st w2. rewrite includeLibrary_unregistered by done. apply aborts_Raise. }
  split.
  { intros st line w1 Hif Hlhs. split.
    - by apply sourceLine_if_failure.
    - by apply libraryLine_if_failure. }
  split.
  { intros libNames line w1. by apply sourceLine_text_failure. }
  split.
  { intros st libName w1. by apply includeLibrary_unregistered. }
  split.
  { intros line. apply checkCondition_failure. }
  split.
  { intros line. apply processConstants_failure. }
  split.
  { intros dir pre fileName post w0 w1 e w2 Hpre Hfile. unfold processEach in *.
    apply (for_each_raise_at _ _ _ _ _ _ tt w1); [done|].
    unfold bind. by rewrite Hfile. }
  split.
  { intros w0 e w2 Happs. unfold main. unfold bind at 1.
    change (print _ w0) with (print (banner target) w0).
    destruct (print (banner target) w0) as [[] w1|] eqn:Hprint; [|done].
    simpl in Happs. unfold bind at 1. by rewrite Happs. }
  split.
  { intros w0 w1 e w2 Happs Hdrivers. unfold main. unfold bind at 1.
    change (print _ w0) with (print (banner target) w0).
    destruct (print (banner target) w0) as [[] w1'|] eqn:Hprint; [|done].
    simpl in Happs. unfold bind at 1. rewrite Happs. unfold bind at 1.
    by rewrite Hdrivers. }
  assert (forall e,
            snd (render ast_parse target (fun p => files w !! p) true ogFile) = Some e ->
            ~ In destFile library_paths -> preprocessLibrary = true -> aborts run)
    as Hrender.
  { intros e He Hlib ->. subst run.
    rewrite (processFile_render ast_parse _ _ _ Hlib _ _ ogFile) by done.
    destruct (render _ _ _ _ _) as [text r]. cbn [snd] in He. subst r.
    apply aborts_finish. }
  split.
  { intros libName line Hlib Hpre Hin Hline Hif Hlhs.
    destruct (render_libraries_fail ast_parse target (files w) ogFile) as [e He];
      [|by apply (Hrender e)].
    apply in_split in Hin as (known & later & ->).
    apply renderLibraries_fails_at. intros st1 _.
    apply renderLibrary_fails. by apply (renderLines_if_fails _ _ _ line). }
  split.
  { intros known libName later pre line post Hlib Hpre Hnames Hlines Hskip
      Hif Hend Hholds Hlacks.
    destruct (render_libraries_fail ast_parse target (files w) ogFile) as [e He];
      [|by apply (Hrender e)].
    rewrite Hnames.
    apply renderLibraries_fails_at. intros st1 Hknown.
    apply renderLibraries_Ok in Hknown as ->.
    apply renderLibrary_fails. rewrite Hlines.
    apply renderLines_text_fails; [|done..].
    by rewrite <- !skip_after_app. }
  split.
  { intros libNames line w1. by apply libraryLine_text_failure. }
  intros st libName libFileName libFile w1. by apply includeLibrary_raw.
Qed.

Lemma lookup_failures_abort_witness :
  let run ogFile target :=
    processFile parse_all "apps/app.groovy" "full/cocohue/app.groovy" target true
      (world_of [("apps/app.groovy", ogFile)]) in
  let run_library libFile target :=
    processFile parse_all "apps/app.groovy" "full/cocohue/app.groovy" target true
      (library_world ("#include RMoRobert.CoCoHue_Bri_Lib" +:+ nl) libFile) in
  aborts (run ("#IF __FOO__ == 1" +:+ nl) COCOHUE) /\
  aborts (run ("name: __APP_NAME__" +:+ nl) "OTHER TARGET") /\
  aborts (run ("#include RMoRobert.Unknown_Lib" +:+ nl) COCOHUE) /\
  aborts (run_library ("#IF __FOO__ == 1" +:+ nl) COCOHUE) /\
  aborts (run_library ("def bri() {}" +:+ nl +:+ "name: __APP_NAME__" +:+ nl)
            "OTHER TARGET").
Proof.
  intros run run_library.
  assert ("full/cocohue/app.groovy" <> "apps/app.groovy") as Hne by discriminate.
  assert (~ In "full/cocohue/app.groovy" library_paths) as Hlib by not_a_library.
  split; [|split; [|split; [|split]]].
  - destruct (lookup_failures_abort parse_all "apps/app.groovy" "full/cocohue/app.groovy"
                COCOHUE true (world_of [("apps/app.groovy", "#IF __FOO__ == 1" +:+ nl)])
                ("#IF __FOO__ == 1" +:+ nl) Hne eq_refl) as (Ha & _).
    apply (Ha ("#IF __FOO__ == 1" +:+ nl)).
    + by left.
    + reflexivity.
    + exists "__FOO__ ", " 1". split; reflexivity.
  - destruct (lookup_failures_abort parse_all "apps/app.groovy" "full/cocohue/app.groovy"
                "OTHER TARGET" true
                (world_of [("apps/app.groovy", "name: __APP_NAME__" +:+ nl)])
                ("name: __APP_NAME__" +:+ nl) Hne eq_refl) as (_ & Hb & _).
    apply (Hb [] ("name: __APP_NAME__" +:+ nl) []); try reflexivity.
    exists "__APP_NAME__". split; [by left|reflexivity].
  - destruct (lookup_failures_abort parse_all "apps/app.groovy" "full/cocohue/app.groovy"
                COCOHUE true
                (world_of [("apps/app.groovy", "#include RMoRobert.Unknown_Lib" +:+ nl)])
                ("#include RMoRobert.Unknown_Lib" +:+ nl) Hne eq_refl) as (_ & _ & Hc & _).
    apply (Hc "RMoRobert.Unknown_Lib"); [by left|reflexivity].
  - destruct (lookup_failures_abort parse_all "apps/app.groovy" "full/cocohue/app.groovy"
                COCOHUE true
                (library_world ("#include RMoRobert.CoCoHue_Bri_Lib" +:+ nl)
                   ("#IF __FOO__ == 1" +:+ nl))
                ("#include RMoRobert.CoCoHue_Bri_Lib" +:+ nl) Hne eq_refl)
      as (_ & _ & _ & _ & _ & _ & _ & _ & _ & _ & _ & Hif & _).
    apply (Hif "RMoRobert.CoCoHue_Bri_Lib" ("#IF __FOO__ == 1" +:+ nl)).
    + exact Hlib.
    + reflexivity.
    + vm_compute. by left.
    + vm_compute. by left.
    + reflexivity.
    + exists "__FOO__ ", " 1". split; reflexivity.
  - destruct (lookup_failures_abort parse_all "apps/app.groovy" "full/cocohue/app.groovy"
                "OTHER TARGET" true
                (library_world ("#include RMoRobert.CoCoHue_Bri_Lib" +:+ nl)
                   ("def bri() {}" +:+ nl +:+ "name: __APP_NAME__" +:+ nl))
                ("#include RMoRobert.CoCoHue_Bri_Lib" +:+ nl) Hne eq_refl)
      as (_ & _ & _ & _ & _ & _ & _ & _ & _ & _ & _ & _ & Htext & _).
    apply (Htext [] "RMoRobert.CoCoHue_Bri_Lib" [] ["def bri() {}" +:+ nl]
             ("name: __APP_NAME__" +:+ nl) []).
    + exact Hlib.
    + reflexivity.
    + vm_compute. reflexivity.
    + vm_compute. reflexivity.
    + vm_compute. reflexivity.
    + reflexivity.
    + reflexivity.
    + reflexivity.
    + exists "__APP_NAME__". split; [by left|reflexivity].
Defined.

(** C7, as stated, fails: a run aborts although the left-hand side of its
    only [#IF] line is a constant with a value for the target, every constant
    has a value for the target, and no library is included (the line has two
    [==]); and a run aborts when the source file does not exist. *)
Lemma abort_without_lookup_failure :
  let dest := "full/cocohue/app.groovy" in
  let w := world_of [("apps/app.groovy", two_equals_source)] in
  processFile parse_all "apps/app.groovy" dest COCOHUE true w =
    Raise ValueError
      (mkWorld (<[dest := ""]> (files w))
         ["  PROCESSING: apps/app.groovy -> full/cocohue/app.groovy"] 0) /\
  map strip (split (condition_of two_equals_source) "==") =
    ["__DNI_PREFIX__"; quote +:+ "CCH" +:+ quote; quote +:+ "CCH" +:+ quote] /\
  value_of COCOHUE "__DNI_PREFIX__" = Some "CCH" /\
  ~ lhs_without_value COCOHUE two_equals_source /\
  ~ target_lacks_value COCOHUE /\
  recorded_includes false (readlines two_equals_source) = [] /\
  processFile parse_all "apps/missing.groovy" dest COCOHUE true (world_of []) =
    Raise (FileNotFoundError "apps/missing.groovy")
      (mkWorld (<[dest := ""]> ∅)
         ["  PROCESSING: apps/missing.groovy -> full/cocohue/app.groovy"] 0).
Proof.
  intros dest w. split; [|split; [|split; [|split; [|split; [|split]]]]].
  - assert (~ In dest library_paths) as Hlib by not_a_library.
    rewrite (processFile_render parse_all _ _ _ Hlib "apps/app.groovy" w
               two_equals_source) by done.
    reflexivity.
  - reflexivity.
  - reflexivity.
  - intros (lhs & rhs & Hsplit & _). discriminate Hsplit.
  - apply COCOHUE_lacks_no_value.
  - reflexivity.
  - rewrite processFile_missing by done. reflexivity.
Qed.

(** ** [str.replace] *)

Lemma replace_go_skip (k v p r : string) :
  replace_go k v (String.length p) (p +:+ r) = replace_go k v 0 r.
Proof.
  induction p as [|a p IH]; simpl.
  - by destruct r.
  - apply IH.
Qed.

Lemma replace_hit (k v r : string) :
  k <> "" -> replace (k +:+ r) k v = v +:+ replace r k v.
Proof.
  intros Hk. destruct k as [|a k]; [done|]. unfold replace.
  rewrite app_cons. cbn [replace_go]. rewrite <- app_cons, startswith_app.
  f_equal. cbn [String.length]. rewrite Nat.sub_succ, Nat.sub_0_r.
  apply replace_go_skip.
Qed.

Lemma replace_miss (k v : string) (c : ascii) (r : string) :
  k <> "" -> startswith (String c r) k = false ->
  replace (String c r) k v = String c (replace r k v).
Proof.
  intros Hk Hmiss. destruct k as [|a k]; [done|]. unfold replace.
  cbn [replace_go]. by rewrite Hmiss.
Qed.

Lemma replace_passes (k v s tail : string) :
  k <> "" -> starts_none [k] s tail = true ->
  replace (s +:+ tail) k v = s +:+ replace tail k v.
Proof.
  intros Hk. induction s as [|c s IH]; [done|].
  cbn [starts_none forallb]. rewrite andb_true_r.
  intros [Hmiss Hrest]%andb_true_iff. apply negb_true_iff in Hmiss.
  rewrite app_cons in Hmiss |- *. rewrite replace_miss by done.
  by rewrite IH.
Qed.

(** ** Where a key can start *)

Lemma startswith_empty (s : string) : startswith s "" = true.
Proof. by destruct s. Qed.

Lemma startswith_app_l (x y k : string) :
  startswith x k = true -> startswith (x +:+ y) k = true.
Proof.
  intros [r ->]%startswith_spec. rewrite app_assoc'. apply startswith_app.
Qed.

(** A key that starts at the head of [x +:+ y] lies within [x], or a
    non-empty end of it is a beginning of [y]. *)
Lemma startswith_app_cases (x y k : string) :
  startswith (x +:+ y) k = true ->
  startswith x k = true \/
  exists u, In u (suffixes k) /\ startswith y u = true.
Proof.
  revert k. induction x as [|c x IH]; intros k.
  - rewrite app_empty_l. intros Hy. destruct k as [|a k]; [by left|].
    right. exists (String a k). split; [by left|done].
  - destruct k as [|a k]; [by left|].
    rewrite app_cons. cbn [startswith].
    destruct (ascii_dec a c); [|done].
    intros [Hx|(u & Hu & Hy)]%IH; [by left|].
    right. exists u. split; [by right|done].
Qed.

(** A beginning of [v +:+ tail] is a beginning of [v], or begins with [v]. *)
Lemma prefix_app_cases (v tail u : string) :
  startswith (v +:+ tail) u = true ->
  startswith v u = true \/ startswith u v = true.
Proof.
  revert u. induction v as [|c v IH]; intros u.
  - intros _. right. apply startswith_empty.
  - destruct u as [|a u]; [by left|].
    rewrite app_cons. cbn [startswith].
    destruct (ascii_dec a c) as [->|]; [|done].
    intros [H|H]%IH; [by left|right].
    by destruct (ascii_dec c c).
Qed.

Lemma starts_none_spec (keys : list string) (s tail : string) :
  starts_none keys s tail = true <->
  forall u k, In u (suffixes s) -> In k keys -> startswith (u +:+ tail) k = false.
Proof.
  induction s as [|c s IH]; cbn [starts_none suffixes].
  - split; [by intros _ ? ? []|done].
  - rewrite andb_true_iff, forallb_forall, IH. split.
    + intros [Hhead Hrest] u k [<-|Hu] Hk.
      * apply negb_true_iff. by apply Hhead.
      * by apply Hrest.
    + intros Hall. split.
      * intros k Hk. apply negb_true_iff. apply Hall; [by left|done].
      * intros u k Hu Hk. apply Hall; [by right|done].
Qed.

Lemma no_overlap_spec (k v : string) :
  no_overlap k v = true ->
  (forall u, In u (suffixes k) -> startswith v u = false /\ startswith u v = false) /\
  (forall s, In s (suffixes v) -> startswith k s = false /\ startswith s k = false).
Proof.
  unfold no_overlap. rewrite andb_true_iff, !forallb_forall.
  intros [Hk Hv]. split.
  - intros u Hu. specialize (Hk u Hu). apply andb_true_iff in Hk as [H1 H2].
    by apply negb_true_iff in H1, H2.
  - intros s Hs. specialize (Hv s Hs). apply andb_true_iff in Hv as [H1 H2].
    by apply negb_true_iff in H1, H2.
Qed.

Lemma tokens_exact_token (keys : list string) (const : string) (rest : list piece) :
  tokens_exact keys (Token const :: rest) = true <->
  exists a const', const = String a const' /\
    In const keys /\
    (forall k, In k keys -> k <> const ->
       startswith (const +:+ line_of rest) k = false) /\
    starts_none keys const' (line_of rest) = true /\
    tokens_exact keys rest = true.
Proof.
  cbn [tokens_exact]. destruct const as [|a const'].
  { split; [done|]. by intros (? & ? & ? & _). }
  remember (String a const') as const eqn:Hconst.
  rewrite !andb_true_iff, existsb_exists, forallb_forall. split.
  - intros [[[(k & Hk & Heq%String.eqb_eq) Hhead] Hnone] Hrest]. subst k.
    exists a, const'. split; [done|]. split; [done|]. split; [|done].
    intros k' Hk' Hne. specialize (Hhead k' Hk').
    destruct (String.eqb_spec k' const); [done|].
    by apply negb_true_iff in Hhead.
  - intros (a' & c' & Heq & Hin & Hhead & Hnone & Hrest).
    rewrite Hconst in Heq. injection Heq as <- <-.
    split; [split; [split|]|]; try done.
    + exists const. split; [done|]. apply String.eqb_refl.
    + intros k' Hk'. destruct (String.eqb_spec k' const); [done|].
      cbn [orb]. apply negb_true_iff. by apply Hhead.
Qed.

Section Round.

Variable keys : list string.
Variables k v : string.
Hypothesis key_listed : In k keys.
Hypothesis key_not_empty : k <> "".
Hypothesis apart : forall k', In k' keys -> no_overlap k' v = true.

(** A key that starts where [x] starts after the replacement started there
    before it. *)
Lemma settle_transfer (rest : list piece) (x k' : string) :
  In k' keys ->
  startswith (x +:+ line_of (settle k v rest)) k' = true ->
  startswith (x +:+ line_of rest) k' = true.
Proof using apart.
  intros Hk'. revert x. induction rest as [|p rest IH]; intros x; [done|].
  cbn [settle map line_of]. fold (settle k v rest).
  destruct p as [text|const]; cbn [settle_piece spell].
  - rewrite <- !app_assoc'. apply IH.
  - destruct (String.eqb const k); cbn [spell].
    + intros [Hx|(u & Hu & Hy)]%startswith_app_cases; [by apply startswith_app_l|].
      destruct (no_overlap_spec _ _ (apart k' Hk')) as [Hkey _].
      destruct (Hkey u Hu) as [H1 H2].
      apply prefix_app_cases in Hy as [Hy|Hy]; congruence.
    + rewrite <- !app_assoc'. apply IH.
Qed.

Lemma starts_none_settle (s : string) (rest : list piece) :
  starts_none keys s (line_of rest) = true ->
  starts_none keys s (line_of (settle k v rest)) = true.
Proof using apart.
  rewrite !starts_none_spec. intros Hnone u k' Hu Hk'.
  destruct (startswith (u +:+ line_of (settle k v rest)) k') eqn:Hstart; [|done].
  apply settle_transfer in Hstart; [|done]. by rewrite Hnone in Hstart.
Qed.

Lemma starts_none_value (tail : string) : starts_none keys v tail = true.
Proof using apart.
  apply starts_none_spec. intros s k' Hs Hk'.
  destruct (no_overlap_spec _ _ (apart k' Hk')) as [_ Hvalue].
  destruct (Hvalue s Hs) as [H1 H2].
  destruct (startswith (s +:+ tail) k') eqn:Hstart; [|done].
  apply prefix_app_cases in Hstart as [Hstart|Hstart]; congruence.
Qed.

Lemma tokens_exact_settle (ps : list piece) :
  tokens_exact keys ps = true -> tokens_exact keys (settle k v ps) = true.
Proof using apart.
  induction ps as [|p rest IH]; [done|].
  cbn [settle map]. fold (settle k v rest).
  destruct p as [text|const]; cbn [settle_piece].
  - cbn [tokens_exact]. intros [Hnone Hrest]%andb_true_iff.
    by rewrite starts_none_settle, IH.
  - intros (a & const' & -> & Hin & Hhead & Hnone & Hrest)%tokens_exact_token.
    destruct (String.eqb (String a const') k).
    + cbn [tokens_exact]. by rewrite starts_none_value, IH.
    + apply tokens_exact_token. exists a, const'.
      split; [done|]. split; [done|]. split; [|split].
      * intros k' Hk' Hne.
        destruct (startswith _ k') eqn:Hstart; [|done].
        apply settle_transfer in Hstart; [|done]. by rewrite Hhead in Hstart.
      * by apply starts_none_settle.
      * by apply IH.
Qed.

(** On a line whose tokens are exact, [str.replace] of the key by the value
    replaces the tokens of the key and nothing else. *)
Lemma replace_settle (ps : list piece) :
  tokens_exact keys ps = true ->
  replace (line_of ps) k v = line_of (settle k v ps).
Proof using key_listed key_not_empty.
  induction ps as [|p rest IH].
  { intros _. destruct k; [done|reflexivity]. }
  cbn [settle map line_of]. fold (settle k v rest).
  destruct p as [text|const]; cbn [settle_piece spell].
  - cbn [tokens_exact]. intros [Hnone Hrest]%andb_true_iff.
    rewrite replace_passes, IH; [done..|].
    apply starts_none_spec. intros u k0 Hu [<-|[]].
    rewrite starts_none_spec in Hnone. by apply Hnone.
  - intros (a & const' & -> & Hin & Hhead & Hnone & Hrest)%tokens_exact_token.
    destruct (String.eqb_spec (String a const') k) as [<-|Hother]; cbn [spell].
    + rewrite replace_hit by done. by rewrite IH.
    + rewrite replace_passes, IH; [done..|].
      apply starts_none_spec. intros u k0 Hu [<-|[]].
      destruct Hu as [<-|Hu].
      * apply Hhead; [done|]. by intros ->.
      * rewrite starts_none_spec in Hnone. by apply Hnone.
Qed.

End Round.

(** ** All the replacements of [processConstants] *)

Lemma separated_spec (kvs : list (string * string)) :
  separated kvs = true ->
  forall k, In k (map fst kvs) ->
    k <> "" /\ forall v, In v (map snd kvs) -> no_overlap k v = true.
Proof.
  unfold separated. rewrite forallb_forall. intros Hall k Hk.
  specialize (Hall k Hk). apply andb_true_iff in Hall as [Hne Hall].
  split.
  - intros ->. done.
  - by rewrite forallb_forall in Hall.
Qed.

Lemma replace_each_settle (keys : list string) (kvs : list (string * string))
    (ps : list piece) :
  (forall k v, In (k, v) kvs ->
     In k keys /\ k <> "" /\ forall k', In k' keys -> no_overlap k' v = true) ->
  tokens_exact keys ps = true ->
  replace_each kvs (line_of ps) = line_of (settle_each kvs ps) /\
  tokens_exact keys (settle_each kvs ps) = true.
Proof.
  revert ps. induction kvs as [|[k v] kvs IH]; intros ps Hkvs Hexact; [done|].
  destruct (Hkvs k v) as (Hk & Hne & Hapart); [by left|].
  cbn [replace_each settle_each].
  rewrite (replace_settle keys k v Hk Hne ps Hexact).
  apply IH.
  - intros k0 v0 Hin. apply Hkvs. by right.
  - by apply tokens_exact_settle.
Qed.

Lemma settle_each_map (kvs : list (string * string)) (ps : list piece) :
  settle_each kvs ps = map (settle_piece_each kvs) ps.
Proof.
  revert ps. induction kvs as [|[k v] kvs IH]; intros ps.
  - by rewrite map_id.
  - cbn [settle_each]. rewrite IH. unfold settle. by rewrite map_map.
Qed.

Lemma settle_piece_each_lit (kvs : list (string * string)) (text : string) :
  settle_piece_each kvs (Lit text) = Lit text.
Proof. induction kvs as [|[k v] kvs IH]; [done|apply IH]. Qed.

Lemma settle_piece_each_token (target : string) (keys : list string) (const : string) :
  In const keys ->
  settle_piece_each (values_for target keys) (Token const) =
    Lit (default "" (value_of target const)).
Proof.
  induction keys as [|k keys IH]; [done|].
  intros Hin. cbn [values_for map settle_piece_each settle_piece].
  destruct (String.eqb_spec const k) as [->|Hne].
  - apply settle_piece_each_lit.
  - apply IH. by destruct Hin as [->|Hin].
Qed.

Lemma tokens_exact_listed (keys : list string) (ps : list piece) (const : string) :
  tokens_exact keys ps = true -> In (Token const) ps -> In const keys.
Proof.
  induction ps as [|p rest IH]; [done|].
  destruct p as [text|c].
  - cbn [tokens_exact]. intros [_ Hrest]%andb_true_iff [|Hin]; [done|]. by apply IH.
  - intros (a & c' & -> & Hin & _ & _ & Hrest)%tokens_exact_token [[= <-]|Hin']; [done|].
    by apply IH.
Qed.

Lemma settle_each_resolved (target : string) (keys : list string) (ps : list piece) :
  (forall const, In (Token const) ps -> In const keys) ->
  line_of (settle_each (values_for target keys) ps) = resolved target ps /\
  forallb is_lit (settle_each (values_for target keys) ps) = true.
Proof.
  rewrite settle_each_map. induction ps as [|p rest IH]; intros Hlisted; [done|].
  destruct IH as [IHline IHlit]; [intros c Hc; apply Hlisted; by right|].
  cbn [map line_of resolved forallb]. rewrite IHline, IHlit.
  destruct p as [text|const].
  - by rewrite settle_piece_each_lit.
  - rewrite settle_piece_each_token by (apply Hlisted; by left). done.
Qed.

Lemma contains_passes (k s tail : string) :
  starts_none [k] s tail = true -> contains k (s +:+ tail) = contains k tail.
Proof.
  induction s as [|c s IH]; [done|].
  cbn [starts_none forallb]. rewrite andb_true_r.
  intros [Hmiss Hrest]%andb_true_iff. apply negb_true_iff in Hmiss.
  rewrite app_cons in Hmiss |- *. cbn [contains]. rewrite Hmiss. by apply IH.
Qed.

Lemma literal_line_holds_no_key (keys : list string) (ps : list piece) (k : string) :
  In k keys -> k <> "" ->
  forallb is_lit ps = true -> tokens_exact keys ps = true ->
  contains k (line_of ps) = false.
Proof.
  intros Hk Hne. induction ps as [|p rest IH].
  { intros _ _. by destruct k. }
  destruct p as [text|const]; [|done]. cbn [forallb is_lit tokens_exact line_of spell].
  intros Hlit [Hnone Hrest]%andb_true_iff.
  rewrite contains_passes; [by apply IH|].
  apply starts_none_spec. intros u k0 Hu [<-|[]].
  rewrite starts_none_spec in Hnone. by apply Hnone.
Qed.

Lemma contains_token (k tail : string) : contains k (k +:+ tail) = true.
Proof.
  destruct (k +:+ tail) eqn:E; cbn [contains]; rewrite <- E, startswith_app; done.
Qed.

Lemma no_key_no_token (target : string) (keys : list string) (ps : list piece) :
  tokens_exact keys ps = true ->
  existsb (fun c => contains c (line_of ps)) keys = false ->
  resolved target ps = line_of ps.
Proof.
  intros Hexact Hnone.
  assert (forall k, In k keys -> contains k (line_of ps) = false) as Hfree.
  { intros k Hk. destruct (contains k (line_of ps)) eqn:Hc; [|done].
    assert (existsb (fun c => contains c (line_of ps)) keys = true); [|congruence].
    apply existsb_exists. by exists k. }
  clear Hnone. induction ps as [|p rest IH]; [done|].
  destruct p as [text|const].
  - cbn [tokens_exact] in Hexact. apply andb_true_iff in Hexact as [_ Hrest].
    cbn [resolved resolve line_of spell]. rewrite IH; [done..|].
    intros k Hk. specialize (Hfree k Hk). cbn [line_of spell] in Hfree.
    destruct (contains k (line_of rest)) eqn:Hc; [|done].
    by rewrite (contains_app_r k text _ Hc) in Hfree.
  - apply tokens_exact_token in Hexact as (a & c' & -> & Hin & _).
    specialize (Hfree _ Hin). cbn [line_of spell] in Hfree.
    by rewrite contains_token in Hfree.
Qed.

Lemma values_for_entries (target : string) (keys : list string) (k v : string) :
  In (k, v) (values_for target keys) ->
  In k keys /\ In v (map snd (values_for target keys)).
Proof.
  intros Hin. split.
  - unfold values_for in Hin. apply in_map_iff in Hin as (c & [= <- _] & Hc). done.
  - apply in_map_iff. by exists (k, v).
Qed.

Lemma values_for_keys (target : string) (keys : list string) :
  map fst (values_for target keys) = keys.
Proof. unfold values_for. rewrite map_map. simpl. apply map_id. Qed.

Lemma COCOHUE_separated : separated (values_for COCOHUE CONSTANT_KEYS) = true.
Proof. vm_compute. reflexivity. Qed.

Lemma only_COCOHUE_has_values (target : string) :
  Forall (fun const => is_Some (value_of target const)) CONSTANT_KEYS ->
  target = COCOHUE.
Proof.
  intros Hall. inversion Hall as [|? ? [v Hv] _]; subst.
  unfold value_of in Hv. cbn [dict_get CONSTANTS] in Hv.
  change (String.eqb "__APP_NAME__" "__APP_NAME__") with true in Hv.
  cbn [dict_get] in Hv.
  by destruct (String.eqb_spec target COCOHUE).
Qed.

(** C3, as amended: for a target that has a value for every constant, and a
    line made of literal text and tokens in which the constants start exactly
    where the tokens stand (so no two occurrences overlap),
    [processConstants] returns the line with every token replaced by the
    value of its constant and the literal text as it was, and no constant
    occurs in the result; for every target, a line that holds no constant is
    returned as it is. *)
Theorem constants_substituted (target : string) (ps : list piece) :
  Forall (fun const => is_Some (value_of target const)) CONSTANT_KEYS ->
  tokens_exact CONSTANT_KEYS ps = true ->
  processConstants (line_of ps) target = Success (resolved target ps) /\
  (forall const, In const CONSTANT_KEYS -> contains const (resolved target ps) = false) /\
  (forall line target', holds_constant line = false ->
     processConstants line target' = Success line).
Proof.
  intros Hvalues Hexact.
  assert (target = COCOHUE) as -> by by apply only_COCOHUE_has_values.
  pose proof (separated_spec _ COCOHUE_separated) as Hsep.
  rewrite values_for_keys in Hsep.
  destruct (replace_each_settle CONSTANT_KEYS (values_for COCOHUE CONSTANT_KEYS) ps)
    as [Hline Hexact']; [|done|].
  { intros k v [Hk Hv]%values_for_entries. destruct (Hsep k Hk) as [Hne _].
    split; [done|]. split; [done|]. intros k' Hk'. by apply Hsep. }
  destruct (settle_each_resolved COCOHUE CONSTANT_KEYS ps) as [Hresolved Hlit].
  { intros const. by apply tokens_exact_listed. }
  rewrite Hresolved in Hline.
  split; [|split].
  - rewrite processConstants_COCOHUE.
    destruct (existsb _ _) eqn:Hholds; [by rewrite Hline|].
    by rewrite (no_key_no_token COCOHUE CONSTANT_KEYS).
  - intros const Hconst. rewrite <- Hresolved.
    apply (literal_line_holds_no_key CONSTANT_KEYS); try done.
    by apply Hsep.
  - intros line target'. apply processConstants_no_constant.
Qed.

Lemma constants_substituted_witness :
  line_of title_pieces = "title: " +:+ quote +:+ "__APP_NAME__ Setup" +:+ quote /\
  processConstants (line_of title_pieces) COCOHUE =
    Success ("title: " +:+ quote +:+ "CoCoHue - Hue Bridge Integration Setup" +:+ quote) /\
  processConstants "def installed() {}" "OTHER TARGET" = Success "def installed() {}".
Proof.
  destruct (constants_substituted COCOHUE title_pieces COCOHUE_has_values eq_refl)
    as (Hline & _ & Hsame).
  split; [reflexivity|]. split; [exact Hline|].
  apply Hsame. reflexivity.
Defined.

(** C3, as stated, fails: the line below starts with the token of
    [__NAMESPACE__], whose last two characters are the first two of a token
    of [__APP_NAME__]; the latter is replaced first, the former is left
    without its end, and the value of [__NAMESPACE__] is nowhere in the
    result. *)
Lemma overlapping_tokens_left_unreplaced :
  let line := "__NAMESPACE__APP_NAME__" in
  startswith line "__NAMESPACE__" = true /\
  value_of COCOHUE "__NAMESPACE__" = Some "RMoRobert" /\
  processConstants line COCOHUE = Success "__NAMESPACECoCoHue - Hue Bridge Integration" /\
  contains "RMoRobert" "__NAMESPACECoCoHue - Hue Bridge Integration" = false.
Proof. repeat split; reflexivity. Qed.

(** ** A whole run *)

(** With every file of the manifest present, the program run for COCOHUE
    processes the app and the ten drivers and prints the total. *)
Example program_COCOHUE :
  exists w,
    program parse_all ["preprocessor-cocohue.py"; "COCOHUE"] manifest_world = Ok tt w /\
    totalProcessed w = 11 /\
    List.last (stdout w) "" = nl +:+ "Done. TOTAL: 11 files processed." /\
    files w !! "full/cocohue/cocohue-app.groovy" = Some twice_output /\
    files w !! "full/cocohue/cocohue-plug-driver.groovy" =
      Some ("name: " +:+ quote +:+ "CoCoHue Plug" +:+ quote +:+ nl).
Proof. eexists. split; [vm_compute; reflexivity|]. repeat split; reflexivity. Qed.


(** ** The batch of [main] *)

Lemma rendered_ext {ast_Module : Type} (ast_parse : string -> option ast_Module)
    (target : string) (preprocessLibrary : bool) (fs fs' : gmap string string)
    (sourceFile : string) :
  fs !! sourceFile = fs' !! sourceFile ->
  (forall p, In p library_paths -> fs !! p = fs' !! p) ->
  rendered ast_parse target preprocessLibrary fs sourceFile =
  rendered ast_parse target preprocessLibrary fs' sourceFile.
Proof.
  intros Hsrc Hlibs. unfold rendered. rewrite Hsrc.
  destruct (fs' !! sourceFile); [|done]. by apply render_ext.
Qed.

Section BatchFacts.

Context {ast_Module : Type} (ast_parse : string -> option ast_Module).
Variable target : string.
Variable fs : gmap string string.

Lemma processJobs_batch (js : list (string * string)) (w : World) :
  (forall j, In j js -> ~ In (snd j) library_paths) ->
  (forall j j', In j js -> In j' js -> snd j <> fst j') ->
  (forall j, In j js -> files w !! fst j = fs !! fst j) ->
  (forall p, In p library_paths -> files w !! p = fs !! p) ->
  processJobs ast_parse target js w =
    ended (failure ast_parse target fs js)
      (mkWorld (write_all ast_parse target fs (attempted ast_parse target fs js) (files w))
         (stdout w ++ map progress (attempted ast_parse target fs js))
         (totalProcessed w + completed ast_parse target fs js)).
Proof.
  revert w. induction js as [|j rest IH]; intros w Hlib Hne Hsrc Hlibs.
  { unfold processJobs, write_all; simpl. unfold ret.
    destruct w as [f o t]; simpl. by rewrite app_nil_r, Nat.add_0_r. }
  unfold processJobs. cbn [for_each]. unfold bind at 1. unfold bind at 1.
  destruct (processFile_from ast_parse (fst j) (snd j) target true w w) as [Hrun _].
  { apply Hne; by left. }
  { apply Hlib. by left. }
  { by left. }
  rewrite Hrun.
  rewrite (rendered_ext ast_parse target true (files w) fs (fst j))
    by (try apply Hsrc; try done; by left).
  fold (job_result ast_parse target fs j).
  cbn [attempted failure completed]. unfold finish.
  destruct (snd (job_result ast_parse target fs j)) as [e|] eqn:Hres.
  { unfold ended, write_all; simpl. rewrite Nat.add_0_r. done. }
  cbv beta iota. unfold count_processed at 1. cbn [files stdout totalProcessed].
  change (for_each _ tt rest) with (processJobs ast_parse target rest). rewrite IH.
  - simpl. f_equal. f_equal.
    + by rewrite <- app_assoc.
    + lia.
  - intros j' Hj'. apply Hlib. by right.
  - intros j1 j2 H1 H2. apply Hne; by right.
  - intros j' Hj'. simpl. rewrite lookup_insert_ne.
    + apply Hsrc. by right.
    + apply Hne; [by left|by right].
  - intros p Hp. simpl. rewrite lookup_insert_ne; [by apply Hlibs|].
    intros Heq. apply (Hlib j); [by left|]. by rewrite Heq.
Qed.

Lemma completed_all (js : list (string * string)) :
  failure ast_parse target fs js = None ->
  attempted ast_parse target fs js = js /\
  completed ast_parse target fs js = length js.
Proof.
  induction js as [|j rest IH]; [done|]. cbn [attempted failure completed length].
  destruct (snd (job_result ast_parse target fs j)); [done|].
  intros [-> ->]%IH. done.
Qed.

Lemma failure_none (js : list (string * string)) :
  (forall j, In j js -> snd (job_result ast_parse target fs j) = None) ->
  failure ast_parse target fs js = None.
Proof.
  induction js as [|j rest IH]; [done|]. intros Hall. cbn [failure].
  rewrite (Hall j) by (by left). apply IH. intros j' Hj'. apply Hall. by right.
Qed.

Lemma failure_at (before after : list (string * string)) (j : string * string) (e : exn) :
  (forall b, In b before -> snd (job_result ast_parse target fs b) = None) ->
  snd (job_result ast_parse target fs j) = Some e ->
  failure ast_parse target fs (before ++ j :: after) = Some e /\
  attempted ast_parse target fs (before ++ j :: after) = before ++ [j] /\
  completed ast_parse target fs (before ++ j :: after) = length before.
Proof.
  intros Hbefore Hj. induction before as [|b before IH].
  { cbn [app attempted failure completed]. by rewrite Hj. }
  cbn [app attempted failure completed length].
  rewrite (Hbefore b) by (by left).
  destruct IH as (-> & -> & ->); [|done].
  intros b' Hb'. apply Hbefore. by right.
Qed.

Lemma write_all_cons (j : string * string) (rest : list (string * string))
    (acc : gmap string string) :
  write_all ast_parse target fs (j :: rest) acc =
    write_all ast_parse target fs rest (write_job ast_parse target fs acc j).
Proof. reflexivity. Qed.

Lemma write_all_other (js : list (string * string)) (acc : gmap string string)
    (p : string) :
  ~ In p (map snd js) ->
  write_all ast_parse target fs js acc !! p = acc !! p.
Proof.
  revert acc. induction js as [|j rest IH]; intros acc Hp; [done|].
  rewrite write_all_cons, IH.
  - unfold write_job. apply lookup_insert_ne. intros Heq. apply Hp. by left.
  - intros Hin. apply Hp. by right.
Qed.

Lemma write_all_written (js : list (string * string)) (acc : gmap string string)
    (j : string * string) :
  NoDup (map snd js) -> In j js ->
  write_all ast_parse target fs js acc !! snd j =
    Some (fst (job_result ast_parse target fs j)).
Proof.
  revert acc. induction js as [|j0 rest IH]; intros acc Hnodup Hin; [done|].
  cbn [map] in Hnodup. apply NoDup_cons in Hnodup as [Hfresh Hnodup].
  rewrite write_all_cons. destruct Hin as [->|Hin].
  - rewrite write_all_other.
    + unfold write_job. apply lookup_insert_eq.
    + intros Hin%list_elem_of_In. done.
  - by apply IH.
Qed.

End BatchFacts.

(** The destinations of the manifest are no library files and no source
    files, and no two jobs share a destination. *)
Lemma jobs_not_libraries (j : string * string) :
  In j jobs -> ~ In (snd j) library_paths.
Proof.
  assert (forallb (fun j => negb (existsb (String.eqb (snd j)) library_paths)) jobs = true)
    as Hall by (vm_compute; reflexivity).
  rewrite forallb_forall in Hall. intros Hj Hin. specialize (Hall j Hj).
  apply negb_true_iff in Hall.
  assert (existsb (String.eqb (snd j)) library_paths = true); [|congruence].
  apply existsb_exists. exists (snd j). split; [done|]. apply String.eqb_refl.
Qed.

Lemma jobs_apart (j j' : string * string) :
  In j jobs -> In j' jobs -> snd j <> fst j'.
Proof.
  assert (forallb (fun j => forallb (fun j' => negb (String.eqb (snd j) (fst j'))) jobs)
            jobs = true) as Hall by (vm_compute; reflexivity).
  rewrite forallb_forall in Hall. intros Hj Hj' Heq. specialize (Hall j Hj).
  rewrite forallb_forall in Hall. specialize (Hall j' Hj').
  apply negb_true_iff in Hall. apply String.eqb_neq in Hall. done.
Qed.

Lemma jobs_NoDup : NoDup (map snd jobs).
Proof.
  apply (bool_decide_unpack (NoDup (map snd jobs))). vm_compute. exact I.
Qed.

Lemma processJobs_app {ast_Module : Type} (ast_parse : string -> option ast_Module)
    (target : string) (js1 js2 : list (string * string)) (w : World) :
  processJobs ast_parse target (js1 ++ js2) w =
    (processJobs ast_parse target js1 ;; processJobs ast_parse target js2) w.
Proof.
  unfold processJobs, bind. rewrite for_each_app.
  by destruct (for_each _ tt js1 w) as [[] w'|].
Qed.

Lemma main_jobs {ast_Module : Type} (ast_parse : string -> option ast_Module)
    (target : string) (w : World) :
  main ast_parse target w =
    (print (banner target) ;;
     processJobs ast_parse target jobs ;;
     total <- (fun w => Ok (totalProcessed w) w) ;;
     print (done_line total)) w.
Proof.
  unfold main, bind. change (print _ w) with (print (banner target) w).
  destruct (print (banner target) w) as [[] w1|]; [|done].
  unfold jobs. rewrite processJobs_app. unfold bind.
  change (processApps ast_parse target w1)
    with (processJobs ast_parse target (map (job_of APP_DIR) appFiles) w1).
  destruct (processJobs ast_parse target (map (job_of APP_DIR) appFiles) w1)
    as [[] w2|]; [|done].
  change (processDrivers ast_parse target w2)
    with (processJobs ast_parse target (map (job_of DRIVER_DIR) driverFiles) w2).
  by destruct (processJobs ast_parse target (map (job_of DRIVER_DIR) driverFiles) w2)
    as [[] w3|].
Qed.

(** What [main] does, from the files it starts with. *)
Lemma main_batch {ast_Module : Type} (ast_parse : string -> option ast_Module)
    (target : string) (w : World) :
  main ast_parse target w =
    match failure ast_parse target (files w) jobs with
    | None =>
        Ok tt (mkWorld (write_all ast_parse target (files w) jobs (files w))
                 (stdout w ++ banner target :: map progress jobs
                  ++ [done_line (totalProcessed w + length jobs)])
                 (totalProcessed w + length jobs))
    | Some e =>
        Raise e
          (mkWorld (write_all ast_parse target (files w)
                      (attempted ast_parse target (files w) jobs) (files w))
             (stdout w ++ banner target
                :: map progress (attempted ast_parse target (files w) jobs))
             (totalProcessed w + completed ast_parse target (files w) jobs))
    end.
Proof.
  rewrite main_jobs. unfold bind at 1, print at 1. unfold bind at 1.
  rewrite (processJobs_batch ast_parse target (files w)).
  - cbn [files stdout totalProcessed].
    destruct (failure ast_parse target (files w) jobs) as [e|] eqn:Hfail.
    + unfold ended. by rewrite <- app_assoc.
    + destruct (completed_all ast_parse target (files w) jobs Hfail) as [-> ->].
      unfold ended, bind, print. cbn [files stdout totalProcessed].
      f_equal. f_equal. rewrite <- !app_assoc. done.
  - apply jobs_not_libraries.
  - apply jobs_apart.
  - done.
  - done.
Qed.

(** X1: when no source file of the manifest makes its run raise, [main] ends
    normally; every destination holds what its source renders to from the
    files [main] started with, every other file is as it was, the counter has
    grown by the eleven files, and the console shows the banner, one progress
    line per file (the app first, then the drivers in the order of the
    manifest) and the total. *)
Theorem main_writes_every_destination {ast_Module : Type}
    (ast_parse : string -> option ast_Module) (target : string) (w : World) :
  (forall j, In j jobs -> snd (rendered ast_parse target true (files w) (fst j)) = None) ->
  exists w',
    main ast_parse target w = Ok tt w' /\
    (forall j, In j jobs ->
       files w' !! snd j = Some (fst (rendered ast_parse target true (files w) (fst j)))) /\
    (forall p, ~ In p (map snd jobs) -> files w' !! p = files w !! p) /\
    totalProcessed w' = totalProcessed w + 11 /\
    stdout w' = stdout w ++ banner target :: map progress jobs
                ++ [done_line (totalProcessed w + 11)].
Proof.
  intros Hall. rewrite main_batch.
  rewrite (failure_none ast_parse target (files w) jobs Hall).
  eexists. split; [reflexivity|]. cbn [files stdout totalProcessed].
  split; [|split; [|split]].
  - intros j Hj. apply (write_all_written ast_parse target (files w)); [|done].
    apply jobs_NoDup.
  - intros p Hp. by apply write_all_other.
  - reflexivity.
  - reflexivity.
Qed.

Lemma main_writes_every_destination_witness :
  exists w',
    main parse_all COCOHUE manifest_world = Ok tt w' /\
    files w' !! "full/cocohue/cocohue-app.groovy" = Some twice_output /\
    files w' !! "apps/cocohue-app.groovy" = Some twice_source /\
    totalProcessed w' = 11.
Proof.
  destruct (main_writes_every_destination parse_all COCOHUE manifest_world)
    as (w' & Hrun & Hjobs & Hother & Htotal & _).
  { intros j Hj. vm_compute in Hj.
    repeat (destruct Hj as [<-|Hj]; [vm_compute; reflexivity|]). destruct Hj. }
  exists w'. split; [exact Hrun|]. split; [|split].
  - etrans; [apply (Hjobs (job_of APP_DIR "cocohue-app.groovy")); by left|].
    vm_compute. reflexivity.
  - etrans; [apply Hother|reflexivity]. vm_compute.
    intros H. repeat (destruct H as [H|H]; [discriminate H|]). exact H.
  - exact Htotal.
Defined.

(** X2: [main] stops at the first file whose run raises, with the exception
    of that run: the destinations of the files before it hold their
    renderings, the destination of the failing file holds what was written
    before the exception, every other file (the later destinations too) is
    as it was, the counter counts the files before the failing one, and the
    console ends with the progress line of the failing file. *)
Theorem main_stops_at_first_failure {ast_Module : Type}
    (ast_parse : string -> option ast_Module) (target : string) (w : World)
    (before after : list (string * string)) (j : string * string) (e : exn) :
  jobs = before ++ j :: after ->
  (forall b, In b before -> snd (rendered ast_parse target true (files w) (fst b)) = None) ->
  snd (rendered ast_parse target true (files w) (fst j)) = Some e ->
  exists w',
    main ast_parse target w = Raise e w' /\
    (forall b, In b (before ++ [j]) ->
       files w' !! snd b = Some (fst (rendered ast_parse target true (files w) (fst b)))) /\
    (forall p, ~ In p (map snd (before ++ [j])) -> files w' !! p = files w !! p) /\
    totalProcessed w' = totalProcessed w + length before /\
    stdout w' = stdout w ++ banner target :: map progress (before ++ [j]).
Proof.
  intros Hjobs Hbefore Hj. rewrite main_batch, Hjobs.
  destruct (failure_at ast_parse target (files w) before after j e Hbefore Hj)
    as (-> & -> & ->).
  eexists. split; [reflexivity|]. cbn [files stdout totalProcessed].
  split; [|split; [|split]].
  - intros b Hb. apply (write_all_written ast_parse target (files w)); [|done].
    pose proof jobs_NoDup as Hnodup. rewrite Hjobs in Hnodup.
    replace (before ++ j :: after) with ((before ++ [j]) ++ after) in Hnodup
      by (by rewrite <- app_assoc).
    rewrite map_app in Hnodup. by apply NoDup_app in Hnodup as [? _].
  - intros p Hp. by apply write_all_other.
  - reflexivity.
  - reflexivity.
Qed.

Lemma main_stops_at_first_failure_witness :
  let w := world_of [("apps/cocohue-app.groovy", twice_source);
                     ("libraries/cocohue-library-bri.groovy", "def bri() {}" +:+ nl)] in
  exists w',
    main parse_all COCOHUE w = Raise (FileNotFoundError "drivers/cocohue-bridge-driver.groovy") w' /\
    files w' !! "full/cocohue/cocohue-app.groovy" = Some twice_output /\
    files w' !! "full/cocohue/cocohue-bridge-driver.groovy" = Some "" /\
    files w' !! "full/cocohue/cocohue-button-driver.groovy" = None /\
    totalProcessed w' = 1.
Proof.
  intros w.
  destruct (main_stops_at_first_failure parse_all COCOHUE w
              [job_of APP_DIR "cocohue-app.groovy"]
              (map (job_of DRIVER_DIR) (tl driverFiles))
              (job_of DRIVER_DIR "cocohue-bridge-driver.groovy")
              (FileNotFoundError "drivers/cocohue-bridge-driver.groovy"))
    as (w' & Hrun & Hwritten & Hother & Htotal & _).
  - reflexivity.
  - intros b [<-|[]]. vm_compute. reflexivity.
  - vm_compute. reflexivity.
  - exists w'. split; [exact Hrun|]. split; [|split; [|split]].
    + etrans; [apply (Hwritten (job_of APP_DIR "cocohue-app.groovy")); by left|].
      vm_compute. reflexivity.
    + etrans; [apply (Hwritten (job_of DRIVER_DIR "cocohue-bridge-driver.groovy"));
               right; by left|].
      vm_compute. reflexivity.
    + etrans; [apply Hother|reflexivity]. vm_compute.
      intros H. repeat (destruct H as [H|H]; [discriminate H|]). exact H.
    + exact Htotal.
Defined.

(** X3: whatever the files, the target and the way it ends, [main] leaves
    every source file of the manifest and every registered library file as
    it found it. *)
Theorem main_preserves_inputs {ast_Module : Type}
    (ast_parse : string -> option ast_Module) (target : string) (w : World) :
  Forall (fun p => files_of (main ast_parse target w) !! p = files w !! p)
    (map fst jobs ++ library_paths).
Proof.
  assert (forall p, In p (map fst jobs ++ library_paths) -> ~ In p (map snd jobs))
    as Hinputs.
  { assert (forallb (fun p => negb (existsb (String.eqb p) (map snd jobs)))
              (map fst jobs ++ library_paths) = true) as Hall by (vm_compute; reflexivity).
    rewrite forallb_forall in Hall. intros p Hp Hin. specialize (Hall p Hp).
    apply negb_true_iff in Hall.
    assert (existsb (String.eqb p) (map snd jobs) = true); [|congruence].
    apply existsb_exists. exists p. split; [done|]. apply String.eqb_refl. }
  apply List.Forall_forall. intros p Hp. rewrite main_batch.
  destruct (failure ast_parse target (files w) jobs); cbn [files_of files].
  - apply write_all_other. intros Hin. apply (Hinputs p Hp).
    clear -Hin. revert Hin. generalize jobs as js. intros js.
    induction js as [|j rest IH]; [done|]. cbn [attempted].
    destruct (snd (job_result ast_parse target (files w) j)).
    + intros [<-|[]]. by left.
    + intros [<-|Hin]; [by left|]. right. by apply IH.
  - apply write_all_other. by apply Hinputs.
Qed.

(** X4: run with the name of the target as its argument, with white space
    around it or not, the program is [main] for COCOHUE started with the
    counter at zero; so when no file makes its run raise, it ends with a
    count of eleven and prints this total last, whatever the counter held
    before. *)
Theorem program_runs_main {ast_Module : Type}
    (ast_parse : string -> option ast_Module) (argv : list string) (w : World) :
  1 < length argv ->
  strip (nth 1 argv "") = "COCOHUE" ->
  let start := mkWorld (files w) (stdout w) 0 in
  program ast_parse argv w = main ast_parse COCOHUE start /\
  ((forall j, In j jobs -> snd (rendered ast_parse COCOHUE true (files w) (fst j)) = None) ->
   exists w',
     program ast_parse argv w = Ok tt w' /\
     totalProcessed w' = 11 /\
     stdout w' = stdout w ++ banner COCOHUE :: map progress jobs ++ [done_line 11]).
Proof.
  intros Hargs Hname start.
  assert (program ast_parse argv w = main ast_parse COCOHUE start) as Hmain.
  { unfold program, script. apply Nat.ltb_lt in Hargs. rewrite Hargs, Hname. reflexivity. }
  split; [exact Hmain|]. intros Hall. rewrite Hmain, main_batch.
  change (files start) with (files w).
  rewrite (failure_none ast_parse COCOHUE (files w) jobs Hall).
  eexists. split; [reflexivity|]. split; reflexivity.
Qed.

Lemma program_runs_main_witness :
  exists w',
    program parse_all ["preprocessor-cocohue.py"; " COCOHUE" +:+ nl]
      (mkWorld (files manifest_world) ["earlier output"] 7) = Ok tt w' /\
    totalProcessed w' = 11 /\
    List.last (stdout w') "" = nl +:+ "Done. TOTAL: 11 files processed.".
Proof.
  destruct (program_runs_main parse_all ["preprocessor-cocohue.py"; " COCOHUE" +:+ nl]
              (mkWorld (files manifest_world) ["earlier output"] 7))
    as [_ Hrun].
  - simpl. lia.
  - vm_compute. reflexivity.
  - destruct Hrun as (w' & Hrun & Htotal & Hout).
    { intros j Hj. vm_compute in Hj.
      repeat (destruct Hj as [<-|Hj]; [vm_compute; reflexivity|]). destruct Hj. }
    exists w'. split; [exact Hrun|]. split; [exact Htotal|].
    rewrite Hout. vm_compute. reflexivity.
Defined.

(** ** [str.replace] on any line *)

Lemma length_app (s t : string) :
  String.length (s +:+ t) = String.length s + String.length t.
Proof. induction s as [|c s IH]; [done|]. rewrite app_cons. simpl. by rewrite IH. Qed.

Lemma app_snoc (x : string) (c : ascii) (t : string) :
  (x +:+ String c "") +:+ t = x +:+ String c t.
Proof. by rewrite app_assoc', app_cons, app_empty_l. Qed.

(** How [replace] goes on at the head of a line: the line is empty, the key
    stands there and is replaced, or the first character is kept. *)
Lemma replace_cases (k v s : string) :
  k <> "" ->
  (s = "" /\ replace s k v = "") \/
  (exists r, s = k +:+ r /\ replace s k v = v +:+ replace r k v /\
             String.length r < String.length s) \/
  (exists c r, s = String c r /\ startswith s k = false /\
               replace s k v = String c (replace r k v)).
Proof.
  intros Hk. destruct s as [|c r].
  { left. split; [done|]. by destruct k. }
  right. destruct (startswith (String c r) k) eqn:Hstart.
  - left. apply startswith_spec in Hstart as [r' Hr']. exists r'.
    rewrite Hr'. split; [done|]. split; [by apply replace_hit|].
    rewrite length_app. destruct k; [done|]. simpl. lia.
  - right. exists c, r. split; [done|]. split; [done|]. by apply replace_miss.
Qed.

(** A key that overlaps no value starts after a replacement only where it
    started before. *)
Lemma replace_transfer (k v k' s : string) :
  k <> "" -> no_overlap k' v = true ->
  forall x, startswith (x +:+ replace s k v) k' = true ->
            startswith (x +:+ s) k' = true.
Proof.
  intros Hk Hapart. destruct (no_overlap_spec _ _ Hapart) as [Hkey _].
  remember (String.length s) as n eqn:Hn. revert s Hn.
  induction n as [n IH] using lt_wf_ind. intros s Hn x.
  destruct (replace_cases k v s Hk)
    as [[-> ->]|[(r & -> & -> & Hlen)|(c & r & -> & Hmiss & ->)]].
  - done.
  - intros [Hx|(u & Hu & Hy)]%startswith_app_cases; [by apply startswith_app_l|].
    destruct (Hkey u Hu) as [H1 H2].
    apply prefix_app_cases in Hy as [Hy|Hy]; congruence.
  - rewrite <- (app_snoc x c (replace r k v)), <- (app_snoc x c r).
    apply (IH (String.length r)); [|done].
    subst n. simpl. lia.
Qed.

(** After the replacement of a key by a value that it does not overlap, the
    key occurs nowhere. *)
Lemma replace_removes (k v s : string) :
  k <> "" -> no_overlap k v = true -> contains k (replace s k v) = false.
Proof.
  intros Hk Hapart.
  remember (String.length s) as n eqn:Hn. revert s Hn.
  induction n as [n IH] using lt_wf_ind. intros s Hn.
  destruct (replace_cases k v s Hk)
    as [[-> ->]|[(r & -> & -> & Hlen)|(c & r & -> & Hmiss & ->)]].
  - by destruct k.
  - rewrite contains_passes.
    + apply (IH (String.length r)); [by subst n|done].
    + apply (starts_none_value [k]). by intros k' [<-|[]].
  - cbn [contains]. apply orb_false_iff. split.
    + destruct (startswith (String c (replace r k v)) k) eqn:Hstart; [|done].
      apply (replace_transfer k v k r Hk Hapart (String c "")) in Hstart.
      rewrite app_cons, app_empty_l in Hstart. congruence.
    + apply (IH (String.length r)); [|done]. subst n. simpl. lia.
Qed.

(** A replacement makes no occurrence of a key that overlaps no value. *)
Lemma replace_no_new (k v k' s : string) :
  k <> "" -> no_overlap k' v = true ->
  contains k' s = false -> contains k' (replace s k v) = false.
Proof.
  intros Hk Hapart.
  remember (String.length s) as n eqn:Hn. revert s Hn.
  induction n as [n IH] using lt_wf_ind. intros s Hn.
  destruct (replace_cases k v s Hk)
    as [[-> ->]|[(r & -> & -> & Hlen)|(c & r & -> & Hmiss & ->)]].
  - done.
  - intros Hnone. rewrite contains_passes.
    + apply (IH (String.length r)); [by subst n|done|].
      destruct (contains k' r) eqn:Hr; [|done].
      by rewrite (contains_app_r k' k r Hr) in Hnone.
    + apply (starts_none_value [k']). by intros k0 [<-|[]].
  - cbn [contains]. intros [Hhead Hrest]%orb_false_iff.
    apply orb_false_iff. split.
    + destruct (startswith (String c (replace r k v)) k') eqn:Hstart; [|done].
      apply (replace_transfer k v k' r Hk Hapart (String c "")) in Hstart.
      rewrite app_cons, app_empty_l in Hstart. congruence.
    + apply (IH (String.length r)); [|done|done]. subst n. simpl. lia.
Qed.

Lemma replace_each_no_new (kvs : list (string * string)) (k' : string) :
  (forall k v, In (k, v) kvs -> k <> "" /\ no_overlap k' v = true) ->
  forall s, contains k' s = false -> contains k' (replace_each kvs s) = false.
Proof.
  induction kvs as [|[k v] kvs IH]; intros Hkvs s Hs; [done|].
  cbn [replace_each]. destruct (Hkvs k v) as [Hk Hapart]; [by left|].
  apply IH.
  - intros k0 v0 Hin. apply Hkvs. by right.
  - by apply replace_no_new.
Qed.

(** When every key is non-empty and overlaps no value, no key occurs after
    the replacements, whatever the line. *)
Lemma replace_each_clean (keys : list string) (kvs : list (string * string)) (s : string) :
  (forall k, In k (map fst kvs) -> In k keys) ->
  (forall k v, In k keys -> In v (map snd kvs) -> k <> "" /\ no_overlap k v = true) ->
  forall k', In k' (map fst kvs) -> contains k' (replace_each kvs s) = false.
Proof.
  revert s. induction kvs as [|[k v] kvs IH]; intros s Hkeys Hsep k' Hk'; [done|].
  cbn [replace_each].
  assert (forall k0 v0, In (k0, v0) kvs -> k0 <> "" /\ no_overlap k' v0 = true) as Hrest.
  { intros k0 v0 Hin. split.
    - apply (Hsep k0 v0).
      + apply Hkeys. right. apply in_map_iff. by exists (k0, v0).
      + right. apply in_map_iff. by exists (k0, v0).
    - apply (Hsep k' v0).
      + by apply Hkeys.
      + right. apply in_map_iff. by exists (k0, v0). }
  destruct Hk' as [<-|Hk'].
  - apply replace_each_no_new; [done|]. cbn [fst].
    destruct (Hsep k v) as [Hk Hapart]; [apply Hkeys; by left|by left|].
    by apply replace_removes.
  - apply IH; [|intros k0 v0 Hk0 Hv0; apply Hsep; [done|by right]|done].
    intros k0 Hk0. apply Hkeys. by right.
Qed.

(** X5: whatever the line, [processConstants] for COCOHUE returns a line in
    which no constant of the table occurs, also where tokens overlap in the
    source line; so a second substitution of the result changes nothing. *)
Theorem substitution_leaves_no_constant (line : string) :
  exists newLine,
    processConstants line COCOHUE = Success newLine /\
    (forall const, In const CONSTANT_KEYS -> contains const newLine = false) /\
    processConstants newLine COCOHUE = Success newLine.
Proof.
  rewrite processConstants_COCOHUE. eexists. split; [reflexivity|].
  assert (forall const, In const CONSTANT_KEYS ->
            contains const
              (if existsb (fun c => contains c line) CONSTANT_KEYS
               then replace_each (values_for COCOHUE CONSTANT_KEYS) line
               else line) = false) as Hclean.
  { intros const Hconst.
    destruct (existsb (fun c => contains c line) CONSTANT_KEYS) eqn:Hany.
    - pose proof (separated_spec _ COCOHUE_separated) as Hsep.
      rewrite values_for_keys in Hsep.
      apply (replace_each_clean CONSTANT_KEYS).
      + by rewrite values_for_keys.
      + intros k v Hk Hv. destruct (Hsep k Hk) as [Hne Hall]. split; [done|by apply Hall].
      + by rewrite values_for_keys.
    - destruct (contains const line) eqn:Hc; [|done].
      assert (existsb (fun c => contains c line) CONSTANT_KEYS = true); [|congruence].
      apply existsb_exists. by exists const. }
  split; [exact Hclean|].
  apply processConstants_no_constant.
  destruct (existsb _ CONSTANT_KEYS) eqn:Hany in |- *; [|done].
  apply existsb_exists in Hany as (const & Hconst & Hc).
  by rewrite Hclean in Hc.
Qed.

(** ** Targets without values *)

(** X6: for every target other than COCOHUE, [processConstants] returns a
    line that holds no constant as it is, and on a line that holds one it
    raises [KeyError] with the target as its key, at the lookup for the
    first constant of the table, whichever constant the line holds. *)
Theorem other_target_raises_on_constant (line target : string) :
  target <> COCOHUE ->
  processConstants line target =
    if holds_constant line then Failure (KeyError target) else Success line.
Proof.
  intros Hother. unfold processConstants, holds_constant.
  destruct (existsb _ _); [|done].
  cbn [CONSTANT_KEYS CONSTANTS dict_keys map fst replaceConstants]. unfold subscript.
  change (dict_get CONSTANTS "__APP_NAME__")
    with (Some [(COCOHUE, "CoCoHue - Hue Bridge Integration")]).
  cbn [dict_get]. by destruct (String.eqb_spec target COCOHUE).
Qed.

Lemma other_target_raises_on_constant_witness :
  processConstants ("name: __DRIVER_NAME_PLUG__" +:+ nl) "HUE" = Failure (KeyError "HUE") /\
  processConstants ("name: plug" +:+ nl) "HUE" = Success ("name: plug" +:+ nl).
Proof.
  split.
  - apply (other_target_raises_on_constant ("name: __DRIVER_NAME_PLUG__" +:+ nl) "HUE").
    discriminate.
  - apply (other_target_raises_on_constant ("name: plug" +:+ nl) "HUE"). discriminate.
Defined.

(** ** Conditions without a comparison *)

Lemma contains_head (sub : string) (c : ascii) (r : string) :
  contains sub (String c r) = false ->
  startswith (String c r) sub = false /\ contains sub r = false.
Proof. cbn [contains]. by intros [? ?]%orb_false_iff. Qed.

Lemma split_none (s sep : string) :
  contains sep s = false -> split s sep = [s].
Proof.
  unfold split. induction s as [|c r IH]; [done|].
  intros [Hhead Hrest]%contains_head. cbn [split_go].
  rewrite Hhead, IH by done. reflexivity.
Qed.

(** X7: when what follows [#IF ] on the line holds no [==], the unpacking of
    the split into two names raises [ValueError], before any table is looked
    up and whatever the target. *)
Theorem condition_without_comparison {ast_Module : Type}
    (ast_parse : string -> option ast_Module) (line target : string) :
  contains "==" (condition_of line) = false ->
  checkConditionFromLine ast_parse line target = Failure ValueError.
Proof.
  intros Hnone. unfold checkConditionFromLine. fold (condition_of line).
  by rewrite split_none.
Qed.

Lemma condition_without_comparison_witness :
  checkConditionFromLine parse_all ("#IF __DNI_PREFIX__" +:+ nl) "HUE" = Failure ValueError.
Proof.
  apply (condition_without_comparison parse_all ("#IF __DNI_PREFIX__" +:+ nl) "HUE").
  vm_compute. reflexivity.
Defined.

(** ** Text without directives and constants *)

Lemma readlines_concat (content : string) :
  String.concat "" (readlines content) = content.
Proof.
  induction content as [|c r IH]; [done|]. cbn [readlines].
  destruct (ascii_dec c "010").
  - by rewrite concat_empty_cons, IH.
  - destruct (readlines r) as [|l ls].
    + simpl in IH. by rewrite <- IH.
    + rewrite concat_empty_cons in IH. rewrite concat_empty_cons, app_cons. by rewrite IH.
Qed.

Lemma renderLines_copy {ast_Module : Type} (ast_parse : string -> option ast_Module)
    (target : string) (st : locals) (lines : list string) :
  inIf st && skipLines st = false ->
  Forall (fun line => is_if line = false /\ is_endif line = false /\
                      holds_constant line = false) lines ->
  renderLines (renderLibraryLine ast_parse target) st lines =
    (String.concat "" lines, Success st).
Proof.
  intros Hst. induction 1 as [|line rest (Hif & Hendif & Hconst) _ IH]; [done|].
  cbn [renderLines]. unfold renderLibraryLine at 1.
  rewrite Hif, Hendif, Hst. cbn [negb].
  rewrite processConstants_no_constant by exact Hconst.
  rewrite IH. by rewrite concat_empty_cons.
Qed.

Lemma renderLines_copy_source {ast_Module : Type} (ast_parse : string -> option ast_Module)
    (target : string) (st : locals) (lines : list string) :
  inIf st && skipLines st = false ->
  Forall (fun line => is_text line = true /\ holds_constant line = false) lines ->
  renderLines (renderSourceLine ast_parse target) st lines =
    (String.concat "" lines, Success st).
Proof.
  intros Hst. induction 1 as [|line rest [Htext Hconst] _ IH]; [done|].
  unfold is_text in Htext. apply andb_true_iff in Htext as [[Hinc Hif]%andb_true_iff Hendif].
  apply negb_true_iff in Hinc, Hif, Hendif.
  cbn [renderLines]. unfold renderSourceLine at 1, renderLibraryLine at 1.
  rewrite Hinc, Hif, Hendif, Hst. cbn [negb andb].
  rewrite processConstants_no_constant by exact Hconst.
  rewrite IH. by rewrite concat_empty_cons.
Qed.

(** X8: once the destination is open, the loop over the lines of a source
    file in which no line is a directive and no line holds a constant
    appends the text of the file, as Python has read it, to the destination
    character for character, its last line with or without a newline; it
    raises nothing and leaves the flags and the collected names as they
    were: for every target, known or not. *)
Theorem plain_lines_are_copied {ast_Module : Type}
    (ast_parse : string -> option ast_Module)
    (destFile target : string) (st : locals) (ogFile : string) (w : World) (c : string) :
  files w !! destFile = Some c ->
  inIf st && skipLines st = false ->
  Forall (fun line => is_text line = true /\ holds_constant line = false)
    (readlines ogFile) ->
  for_each (sourceLine ast_parse destFile target) st (readlines ogFile) w =
    Ok st (with_file destFile (c +:+ ogFile) w).
Proof.
  intros Hc Hst Hplain.
  rewrite (for_each_render destFile _ _
             (sourceLine_render ast_parse destFile target) _ _ _ c Hc).
  rewrite renderLines_copy_source by done.
  unfold wrote. cbn [fst snd]. by rewrite readlines_concat.
Qed.

Lemma plain_lines_are_copied_witness :
  let text := "def on() {" +:+ nl +:+ "  log.debug on" +:+ nl +:+ "}" in
  let dest := "full/cocohue/plain.groovy" in
  let w := world_of [(dest, "")] in
  for_each (sourceLine parse_all dest "HUE") (mkLocals false false []) (readlines text) w =
    Ok (mkLocals false false []) (with_file dest text w).
Proof.
  intros text dest w.
  apply (plain_lines_are_copied parse_all dest "HUE" (mkLocals false false []) text w "").
  - reflexivity.
  - reflexivity.
  - vm_compute. repeat constructor.
Defined.

(** X9: a library in which no line is an [#IF] or [#ENDIF] line and no line
    holds a constant is appended as it is after its marker, with
    preprocessing as without it, when the lines are not being skipped; its
    [#include] lines are such lines: inside a library they are text, and
    the list of names is left as it was. *)
Theorem plain_library_is_copied {ast_Module : Type}
    (ast_parse : string -> option ast_Module)
    (destFile target : string) (preprocessLibrary : bool) (st : locals)
    (libName libFileName libFile : string) (w : World) (c : string) :
  ~ In destFile library_paths ->
  files w !! destFile = Some c ->
  dict_get libraries libName = Some libFileName ->
  files w !! path_join LIB_DIR libFileName = Some libFile ->
  inIf st && skipLines st = false ->
  Forall (fun line => is_include line = true \/
                      (is_if line = false /\ is_endif line = false))
    (readlines libFile) ->
  Forall (fun line => holds_constant line = false) (readlines libFile) ->
  includeLibrary ast_parse destFile target preprocessLibrary st libName w =
    Ok st (with_file destFile (c +:+ marker libName +:+ libFile) w).
Proof.
  intros Hlib Hc Hreg Hfile Hst Hlines Hconst.
  rewrite (includeLibrary_render ast_parse destFile target preprocessLibrary Hlib
             (fun p => files w !! p) st libName w c Hc) by done.
  unfold renderLibrary, subscript. rewrite Hreg, Hfile.
  destruct preprocessLibrary; cbn [negb]; [|done].
  rewrite renderLines_copy; [by rewrite readlines_concat|done|].
  apply List.Forall_forall. intros line Hline.
  rewrite List.Forall_forall in Hlines, Hconst.
  split; [|split]; [| |by apply Hconst].
  - destruct (Hlines line Hline) as [Hinc|[Hif _]]; [by apply is_include_not_if|done].
  - destruct (Hlines line Hline) as [Hinc|[_ Hend]]; [by apply is_include_not_endif|done].
Qed.

Lemma plain_library_is_copied_witness :
  let libFile := "#include RMoRobert.CoCoHue_CT_Lib" +:+ nl +:+ "def bri() {}" +:+ nl in
  let w := world_of [("full/cocohue/app.groovy", "def app() {}" +:+ nl);
                     ("libraries/cocohue-library-bri.groovy", libFile)] in
  includeLibrary parse_all "full/cocohue/app.groovy" COCOHUE true
    (mkLocals false false ["RMoRobert.CoCoHue_Bri_Lib"]) "RMoRobert.CoCoHue_Bri_Lib" w =
    Ok (mkLocals false false ["RMoRobert.CoCoHue_Bri_Lib"])
       (with_file "full/cocohue/app.groovy"
          ("def app() {}" +:+ nl +:+ marker "RMoRobert.CoCoHue_Bri_Lib" +:+ libFile) w).
Proof.
  intros libFile w.
  assert (~ In "full/cocohue/app.groovy" library_paths) as Hlib by not_a_library.
  apply (plain_library_is_copied parse_all "full/cocohue/app.groovy" COCOHUE true
           (mkLocals false false ["RMoRobert.CoCoHue_Bri_Lib"])
           "RMoRobert.CoCoHue_Bri_Lib" "cocohue-library-bri.groovy" libFile w
           ("def app() {}" +:+ nl)).
  - exact Hlib.
  - vm_compute. reflexivity.
  - vm_compute. reflexivity.
  - vm_compute. reflexivity.
  - reflexivity.
  - vm_compute. constructor; [left; reflexivity|].
    constructor; [right; split; reflexivity|]. constructor.
  - vm_compute. repeat constructor.
Defined.

(** ** Blocks *)

(** X10: an [#ENDIF] line ends every block at once: whatever [#IF] lines
    came before it, and whether lines were being skipped or not, the loop
    over the source file goes on after it with both flags off and the names
    collected so far. *)
Theorem endif_closes_every_block {ast_Module : Type}
    (ast_parse : string -> option ast_Module) (destFile target : string)
    (st st1 : locals) (pre post : list string) (line : string) (w w1 : World) :
  for_each (sourceLine ast_parse destFile target) st pre w = Ok st1 w1 ->
  is_endif line = true ->
  for_each (sourceLine ast_parse destFile target) st (pre ++ line :: post) w =
  for_each (sourceLine ast_parse destFile target)
    (mkLocals false false (libNamesToInclude st1)) post w1.
Proof.
  intros Hpre Hend. rewrite for_each_app, Hpre. cbn [for_each]. unfold bind.
  by rewrite sourceLine_endif.
Qed.

Lemma endif_closes_every_block_witness :
  let dest := "full/cocohue/app.groovy" in
  let w := world_of [(dest, "")] in
  for_each (sourceLine parse_all dest COCOHUE) (mkLocals false false [])
    ([if_prefix_line "CCH"; if_prefix_line "XXX"; "inner" +:+ nl]
     ++ ("#ENDIF" +:+ nl) :: ["outer" +:+ nl]) w =
    Ok (mkLocals false false []) (with_file dest ("outer" +:+ nl) w).
Proof.
  intros dest w.
  rewrite (endif_closes_every_block parse_all dest COCOHUE (mkLocals false false [])
             (mkLocals true true [])
             [if_prefix_line "CCH"; if_prefix_line "XXX"; "inner" +:+ nl]
             ["outer" +:+ nl] ("#ENDIF" +:+ nl) w w).
  - vm_compute. reflexivity.
  - vm_compute. reflexivity.
  - reflexivity.
Defined.

(** ** A destination that is the source *)

(** X11: run with the source file as its own destination, [processFile]
    removes the file, creates it empty, reads no line from it and ends
    normally: the text of the source is lost, whatever it was. *)
Theorem source_as_destination_is_emptied {ast_Module : Type}
    (ast_parse : string -> option ast_Module) (path target : string)
    (preprocessLibrary : bool) (w : World) :
  processFile ast_parse path path target preprocessLibrary w =
    Ok tt (mkWorld (<[path := ""]> (files w))
             (stdout w ++ [progress (path, path)]) (totalProcessed w)).
Proof.
  rewrite processFile_start. unfold bind at 1, open_read. cbn [files].
  rewrite lookup_insert_eq. reflexivity.
Qed.

(** ** The name on an [#include] line *)

Lemma split_go_skip (sep p r : string) :
  split_go sep (String.length p) (p +:+ r) = split_go sep 0 r.
Proof.
  induction p as [|a p IH]; simpl.
  - by destruct r.
  - apply IH.
Qed.

Lemma split_hit (sep r : string) :
  sep <> "" -> split (sep +:+ r) sep = "" :: split r sep.
Proof.
  intros Hsep. destruct sep as [|a sep]; [done|]. unfold split.
  rewrite app_cons. cbn [split_go]. rewrite <- app_cons, startswith_app.
  f_equal. cbn [String.length]. rewrite Nat.sub_succ, Nat.sub_0_r.
  apply split_go_skip.
Qed.

Lemma lstrip_empty (c : ascii) (r : string) :
  lstrip (String c r) = "" -> isspace c = true /\ lstrip r = "".
Proof. cbn [lstrip]. by destruct (isspace c). Qed.

Lemma lstrip_app (indent s : string) :
  lstrip indent = "" -> lstrip (indent +:+ s) = lstrip s.
Proof.
  induction indent as [|c r IH]; [done|].
  intros [Hc Hr]%lstrip_empty. rewrite app_cons. cbn [lstrip]. rewrite Hc. by apply IH.
Qed.

Lemma rstrip_cons (c : ascii) (r : string) :
  isspace c = false -> rstrip (String c r) = String c (rstrip r).
Proof. intros Hc. cbn [rstrip]. rewrite Hc. by destruct (rstrip r). Qed.

Lemma split_indent (indent rest : string) :
  lstrip indent = "" ->
  contains "#include" rest = false ->
  split (indent +:+ "#include" +:+ rest) "#include" = [indent; rest].
Proof.
  intros Hindent Hrest. induction indent as [|c r IH].
  - rewrite app_empty_l, split_hit by done. by rewrite split_none.
  - apply lstrip_empty in Hindent as [Hc Hr]. specialize (IH Hr).
    unfold split in IH |- *. rewrite app_cons.
    cbn [split_go startswith]. destruct (ascii_dec "#" c) as [<-|_]; [done|].
    by rewrite IH.
Qed.

(** X12: on a line made of white space, [#include] and a rest that holds no
    further [#include], the test for an include line holds and the name
    taken from the line is the rest without the white space around it, the
    newline too; whatever else stands in the rest belongs to the name. *)
Theorem include_line_names_the_rest (indent rest : string) :
  lstrip indent = "" ->
  contains "#include" rest = false ->
  is_include (indent +:+ "#include" +:+ rest) = true /\
  include_name (indent +:+ "#include" +:+ rest) = strip rest.
Proof.
  intros Hindent Hrest. split.
  - unfold is_include, strip. rewrite lstrip_app by done.
    rewrite !app_cons, app_empty_l. cbn [lstrip].
    change (isspace "#") with false. cbn iota.
    rewrite !rstrip_cons by reflexivity.
    apply (startswith_app "#include" (rstrip rest)).
  - unfold include_name. by rewrite split_indent.
Qed.

Lemma include_line_names_the_rest_witness :
  include_name ("  #include RMoRobert.CoCoHue_Bri_Lib // brightness" +:+ nl)
    = "RMoRobert.CoCoHue_Bri_Lib // brightness".
Proof.
  destruct (include_line_names_the_rest "  "
              (" RMoRobert.CoCoHue_Bri_Lib // brightness" +:+ nl)) as [_ Hname].
  - reflexivity.
  - vm_compute. reflexivity.
  - etrans; [exact Hname|]. vm_compute. reflexivity.
Defined.

(** ** A library that cannot be appended *)

Lemma renderLibraries_stop {ast_Module : Type} (ast_parse : string -> option ast_Module)
    (target : string) (lib_text : string -> option string) (preprocessLibrary : bool)
    (known : list string) (libName : string) (later : list string)
    (st st' : locals) (libs text : string) (e : exn) :
  renderLibraries ast_parse target lib_text preprocessLibrary st known = (libs, Success st') ->
  renderLibrary ast_parse target lib_text preprocessLibrary st' libName = (text, Failure e) ->
  renderLibraries ast_parse target lib_text preprocessLibrary st (known ++ libName :: later)
    = (libs +:+ text, Failure e).
Proof.
  revert st libs. induction known as [|n known IH]; intros st libs.
  - cbn [renderLibraries app]. intros [= <- <-] ->. by rewrite app_empty_l.
  - cbn [renderLibraries app].
    destruct (renderLibrary _ _ _ _ st n) as [t [st1|e1]]; [|done].
    destruct (renderLibraries _ _ _ _ st1 known) as [t' r] eqn:Hknown.
    intros [= <- ->] Hfail. rewrite (IH st1 t' Hknown Hfail). by rewrite app_assoc'.
Qed.

(** X13: a library that is not registered, or whose file is missing, is
    found only in phase two: the run has then written all the lines of the
    source file, those after the [#include] line too, and the libraries
    named before it with their markers; it raises [KeyError] with the name,
    or [FileNotFoundError] with the path of the library, and leaves this
    text in the destination, without a marker for the failing library. *)
Theorem library_failure_comes_in_phase_two {ast_Module : Type}
    (ast_parse : string -> option ast_Module)
    (sourceFile destFile target : string) (preprocessLibrary : bool)
    (w : World) (ogFile : string) (content : string -> string)
    (known : list string) (libName : string) (later : list string) :
  destFile <> sourceFile ->
  ~ In destFile library_paths ->
  files w !! sourceFile = Some ogFile ->
  if_lines_return ast_parse target (readlines ogFile) ->
  constants_resolve target (readlines ogFile) ->
  recorded_includes false (readlines ogFile) = known ++ libName :: later ->
  libraries_available ast_parse target (fun p => files w !! p) content
    preprocessLibrary known ->
  let written :=
    own_text target false (readlines ogFile)
    +:+ libraries_text target content preprocessLibrary
          (skip_after false (readlines ogFile)) known in
  let run := processFile ast_parse sourceFile destFile target preprocessLibrary w in
  (dict_get libraries libName = None ->
   run = finish sourceFile destFile (written, Some (KeyError libName)) w) /\
  (forall libFileName,
     dict_get libraries libName = Some libFileName ->
     files w !! path_join LIB_DIR libFileName = None ->
     run = finish sourceFile destFile
             (written, Some (FileNotFoundError (path_join LIB_DIR libFileName))) w).
Proof.
  intros Hne Hlib Hsrc Hif Hsub Hnames Hknown written run.
  assert (forall e,
            (forall st, renderLibrary ast_parse target (fun p => files w !! p)
                          preprocessLibrary st libName = ("", Failure e)) ->
            run = finish sourceFile destFile (written, Some e) w) as Hstop.
  { intros e Hfail. subst run written.
    rewrite (processFile_render ast_parse _ _ _ Hlib _ _ ogFile) by done.
    f_equal. unfold render.
    change (mkLocals false false []) with (flags false []).
    rewrite renderLines_source by done. cbn [app libNamesToInclude flags].
    rewrite Hnames.
    destruct (renderLibraries_text ast_parse target (fun p => files w !! p) content
                preprocessLibrary (skip_after false (readlines ogFile))
                (known ++ libName :: later) known Hknown) as [skip' Hlibs].
    rewrite (renderLibraries_stop ast_parse target _ _ known libName later _ _ _ ""
               e Hlibs (Hfail _)).
    by rewrite app_empty_r. }
  split.
  - intros Hnone. apply Hstop. intros st. unfold renderLibrary, subscript.
    by rewrite Hnone.
  - intros libFileName Hreg Hmissing. apply Hstop. intros st.
    unfold renderLibrary, subscript. by rewrite Hreg, Hmissing.
Qed.

Lemma library_failure_comes_in_phase_two_witness :
  let source := "#include RMoRobert.CoCoHue_Bri_Lib" +:+ nl +:+
                "#include RMoRobert.CoCoHue_Hue_Lib" +:+ nl +:+
                "def installed() {}" +:+ nl in
  let run := processFile parse_all "apps/app.groovy" "full/cocohue/app.groovy" COCOHUE true
               (one_library_world source) in
  raised run = Some (KeyError "RMoRobert.CoCoHue_Hue_Lib") /\
  files_of run !! "full/cocohue/app.groovy" =
    Some ("def installed() {}" +:+ nl +:+ marker "RMoRobert.CoCoHue_Bri_Lib"
          +:+ "def bri() {}" +:+ nl).
Proof.
  intros source run.
  assert (~ In "full/cocohue/app.groovy" library_paths) as Hlib by not_a_library.
  destruct (library_failure_comes_in_phase_two parse_all "apps/app.groovy"
              "full/cocohue/app.groovy" COCOHUE true (one_library_world source) source
              (fun _ => "def bri() {}" +:+ nl)
              ["RMoRobert.CoCoHue_Bri_Lib"] "RMoRobert.CoCoHue_Hue_Lib" [])
    as [Hkey _].
  - discriminate.
  - exact Hlib.
  - vm_compute. reflexivity.
  - apply if_lines_return_none. vm_compute. repeat constructor.
  - apply constants_resolve_COCOHUE.
  - vm_compute. reflexivity.
  - intros libName [<-|[]]. exists "cocohue-library-bri.groovy".
    split; [reflexivity|]. split; [vm_compute; reflexivity|].
    intros _. split; [|apply constants_resolve_COCOHUE].
    apply if_lines_return_none. vm_compute. repeat constructor.
  - subst run. rewrite Hkey by reflexivity. split; [reflexivity|].
    vm_compute. reflexivity.
Defined.
